(** * AsyncBuzzer: the non-blocking buzzer scheduler, embedded in Rocq

    A shallow embedding of [src/AsyncBuzzer.h] and [src/AsyncBuzzer.cpp]:
    the four file-scope statics ([config], [pulseState], [patternState],
    [melodyState]) form the state that every operation threads through,
    the pin driver ([tone], [noTone]) is an event trace, and [millis()] is
    the clock reading handed to [update].

    Conventions of the embedding.
    - Unsigned integers of width w are [Z], used in the range 0 .. 2^w - 1;
      every operation that can leave the range has its wrap-around written
      out ([u8], [u32]).
    - The sum of two [uint16_t] operands ([interval + duration],
      [duration + rest]) is formed after integer promotion, so its value
      depends on the width of [int]: exact where [int] has 32 bits, taken
      modulo 2^16 where it has 16 (AVR).  [update], [run] and the
      statements about them take the 32-bit reading ([add16]);
      [update_on] and [run_on] carry the width as a parameter
      ([add16_on]), and the statements that depend on the sum are made
      about them.
    - A call of [update()] is taken to finish within one clock tick: every
      [millis()] read inside one call yields the same reading [now].
    - [Pulse *] and [Tone *] are caller-owned arrays: [None] is [nullptr],
      [Some l] an array holding [l].  A read past the end of the array is
      undefined in C++; the embedding yields the default-constructed
      element there.  A write past the end is undefined as well:
      [array_set] models the write inside the array only, and
      [array_store] reports a write outside it. *)

From Stdlib Require Import ZArith List Bool Lia Ascii.
Import ListNotations.
Open Scope Z_scope.

(** ** Machine arithmetic *)

Definition u8 (x : Z) : Z := x mod 2 ^ 8.
Definition u32 (x : Z) : Z := x mod 2 ^ 32.

#[global] Arguments u8 : simpl never.
#[global] Arguments u32 : simpl never.

(** [uint16_t + uint16_t] after promotion to a 32-bit [int]: the exact
    sum.  [add16_on] below is the sum on either width of [int]. *)
Definition add16 (a b : Z) : Z := a + b.

(** ** Data model (AsyncBuzzer.h) *)

Definition BUZZER_PIN : Z := 255.
Definition BUZZER_ACK_FREQ : Z := 800.
Definition BUZZER_ACK_DURATION : Z := 30.
Definition BUZZER_ERR_FREQ : Z := 1000.
Definition BUZZER_ERR_DURATION : Z := 300.
Definition BUZZER_PULSE_INTERVAL : Z := 50.

Module Tone.
Record t := mk { frequency : Z; duration : Z; rest : Z }.
(** [Tone()] *)
Definition default : t := mk 0 0 BUZZER_PULSE_INTERVAL.
End Tone.

Module Config.
Record t := mk { pin : Z; ack : Tone.t; err : Tone.t }.
(** [Config(p)] *)
Definition of_pin (p : Z) : t :=
  mk p (Tone.mk BUZZER_ACK_FREQ BUZZER_ACK_DURATION BUZZER_PULSE_INTERVAL)
       (Tone.mk BUZZER_ERR_FREQ BUZZER_ERR_DURATION BUZZER_PULSE_INTERVAL).
Definition default : t := of_pin 255.
End Config.

Module Pulse.
Record t := mk {
  pulses : Z;
  frequency : Z;
  duration : Z;
  interval : Z;
  last : Z;
  active : bool
}.
(** [Pulse()] *)
Definition default : t := mk 0 0 0 0 0 false.
Definition set_active (a : bool) (p : t) : t :=
  mk (pulses p) (frequency p) (duration p) (interval p) (last p) a.
Definition set_last (l : Z) (p : t) : t :=
  mk (pulses p) (frequency p) (duration p) (interval p) l (active p).
Definition set_pulses (n : Z) (p : t) : t :=
  mk n (frequency p) (duration p) (interval p) (last p) (active p).
End Pulse.

Module Pattern.
Record t := mk {
  pulses : option (list Pulse.t);
  count : Z;
  current : Z;
  active : bool;
  repeat : bool;
  pulseDelay : Z;
  lastPulseEnd : Z;
  waitingForDelay : bool
}.
(** [Pattern(p, c, cur, a, r, pd)]: the constructor clears
    [lastPulseEnd] and [waitingForDelay]. *)
Definition make (p : option (list Pulse.t)) (c cur : Z) (a r : bool) (pd : Z) : t :=
  mk p c cur a r pd 0 false.
(** [Pattern()] *)
Definition default : t := make None 0 0 false false 300.
Definition set_active (a : bool) (p : t) : t :=
  mk (pulses p) (count p) (current p) a (repeat p) (pulseDelay p)
     (lastPulseEnd p) (waitingForDelay p).
Definition set_current (c : Z) (p : t) : t :=
  mk (pulses p) (count p) c (active p) (repeat p) (pulseDelay p)
     (lastPulseEnd p) (waitingForDelay p).
Definition set_lastPulseEnd (l : Z) (p : t) : t :=
  mk (pulses p) (count p) (current p) (active p) (repeat p) (pulseDelay p)
     l (waitingForDelay p).
Definition set_waitingForDelay (w : bool) (p : t) : t :=
  mk (pulses p) (count p) (current p) (active p) (repeat p) (pulseDelay p)
     (lastPulseEnd p) w.
End Pattern.

Module Melody.
Record t := mk {
  tones : option (list Tone.t);
  count : Z;
  current : Z;
  active : bool;
  repeat : bool;
  toneStart : Z;
  playingTone : bool
}.
(** [Melody()] *)
Definition default : t := mk None 0 0 false false 0 false.
Definition set_active (a : bool) (m : t) : t :=
  mk (tones m) (count m) (current m) a (repeat m) (toneStart m) (playingTone m).
Definition set_repeat (r : bool) (m : t) : t :=
  mk (tones m) (count m) (current m) (active m) r (toneStart m) (playingTone m).
Definition set_current (c : Z) (m : t) : t :=
  mk (tones m) (count m) c (active m) (repeat m) (toneStart m) (playingTone m).
Definition set_toneStart (ts : Z) (m : t) : t :=
  mk (tones m) (count m) (current m) (active m) (repeat m) ts (playingTone m).
Definition set_playingTone (p : bool) (m : t) : t :=
  mk (tones m) (count m) (current m) (active m) (repeat m) (toneStart m) p.
End Melody.

(** The four statics of the translation unit. *)
Record Statics := mkStatics {
  config : Config.t;
  pulseState : Pulse.t;
  patternState : Pattern.t;
  melodyState : Melody.t
}.

Definition set_config (c : Config.t) (s : Statics) : Statics :=
  mkStatics c (pulseState s) (patternState s) (melodyState s).
Definition set_pulseState (p : Pulse.t) (s : Statics) : Statics :=
  mkStatics (config s) p (patternState s) (melodyState s).
Definition set_patternState (p : Pattern.t) (s : Statics) : Statics :=
  mkStatics (config s) (pulseState s) p (melodyState s).
Definition set_melodyState (m : Melody.t) (s : Statics) : Statics :=
  mkStatics (config s) (pulseState s) (patternState s) m.

(** The statics as their default constructors leave them at start-up. *)
Definition boot : Statics :=
  mkStatics Config.default Pulse.default Pattern.default Melody.default.

(** ** The pin driver *)

Inductive event :=
| EvTone (pin frequency duration : Z)   (* tone(pin, frequency, duration) *)
| EvNoTone (pin : Z).                   (* noTone(pin) *)

Definition is_tone (e : event) : bool :=
  match e with EvTone _ _ _ => true | EvNoTone _ => false end.

(** ** Array reads *)

Definition is_null {A : Type} (p : option (list A)) : bool :=
  match p with None => true | Some _ => false end.

Definition pulse_at (arr : option (list Pulse.t)) (i : Z) : Pulse.t :=
  match arr with
  | Some l => nth (Z.to_nat i) l Pulse.default
  | None => Pulse.default
  end.

Definition tone_at (arr : option (list Tone.t)) (i : Z) : Tone.t :=
  match arr with
  | Some l => nth (Z.to_nat i) l Tone.default
  | None => Tone.default
  end.

(** [Pulse(p.pulses, p.frequency, p.duration, p.interval, 0, true)]: an
    entry of a pattern loaded into the embedded pulse train. *)
Definition load_pulse (p : Pulse.t) : Pulse.t :=
  Pulse.mk (Pulse.pulses p) (Pulse.frequency p) (Pulse.duration p)
           (Pulse.interval p) 0 true.

(** ** Operations (AsyncBuzzer.cpp) *)

(** [setConfig]: the serial output is not modelled. *)
Definition setConfig (conf : Config.t) (s : Statics) : Statics :=
  set_config conf s.

(** [advancePattern()], lines 60-81. *)
Definition advancePattern (s : Statics) : bool * Statics :=
  let pt := patternState s in
  if negb (Pattern.active pt) || is_null (Pattern.pulses pt)
     || (Pattern.count pt =? 0)
  then (false, set_patternState (Pattern.set_active false pt) s)
  else
    let pt1 := Pattern.set_current (u8 (Pattern.current pt + 1)) pt in
    if Pattern.count pt1 <=? Pattern.current pt1 then
      if Pattern.repeat pt1 then
        let pt2 := Pattern.set_current 0 pt1 in
        (true, set_pulseState
                 (load_pulse (pulse_at (Pattern.pulses pt2) (Pattern.current pt2)))
                 (set_patternState pt2 s))
      else (false, set_patternState (Pattern.set_active false pt1) s)
    else
      (true, set_pulseState
               (load_pulse (pulse_at (Pattern.pulses pt1) (Pattern.current pt1)))
               (set_patternState pt1 s)).

(** The pulse-train branch of [update()], lines 85-107; entered when
    [pulseState.active && config.pin != 255]. *)
Definition pulseTick (s : Statics) (now : Z) : bool * Statics * list event :=
  let pin := Config.pin (config s) in
  let ps := pulseState s in
  if 0 <? Pulse.pulses ps then
    if (Pulse.last ps =? 0)
       || (add16 (Pulse.interval ps) (Pulse.duration ps) <=? u32 (now - Pulse.last ps))
    then
      let ps' := Pulse.set_pulses (u8 (Pulse.pulses ps - 1)) (Pulse.set_last now ps) in
      (Pulse.last ps' =? now, set_pulseState ps' s,
       [EvTone pin (Pulse.frequency ps) (Pulse.duration ps)])
    else (Pulse.last ps =? now, s, [])
  else
    let ps' := Pulse.set_active false ps in
    let s1 := set_pulseState ps' s in
    let s2 :=
      if Pattern.active (patternState s1) then
        set_patternState
          (Pattern.set_waitingForDelay true
             (Pattern.set_lastPulseEnd (u32 (now + Pulse.duration ps'))
                (patternState s1))) s1
      else s1 in
    (Pulse.last ps' =? now, s2, []).

(** The pattern-level logic of [update()], lines 109-123. *)
Definition patternTick (s : Statics) (now : Z) : Statics :=
  let pt := patternState s in
  if Pattern.active pt && Pattern.waitingForDelay pt then
    if Pattern.lastPulseEnd pt <=? now then
      let elapsed := u32 (now - Pattern.lastPulseEnd pt) in
      if Pattern.pulseDelay pt <=? elapsed then
        snd (advancePattern
               (set_patternState (Pattern.set_waitingForDelay false pt) s))
      else s
    else s
  else if Pattern.active pt && negb (Pulse.active (pulseState s))
          && negb (Pattern.waitingForDelay pt)
  then snd (advancePattern s)
  else s.

(** The melody logic of [update()], lines 125-166. *)
Definition melodyTick (s : Statics) (now : Z) : Statics * list event :=
  let pin := Config.pin (config s) in
  let ms := melodyState s in
  if Melody.active ms && negb (pin =? 255)
     && negb (Pulse.active (pulseState s))
     && negb (Pattern.active (patternState s))
  then
    if Melody.current ms <? Melody.count ms then
      let currentTone := tone_at (Melody.tones ms) (Melody.current ms) in
      if Melody.toneStart ms =? 0 then
        (set_melodyState
           (Melody.set_playingTone true (Melody.set_toneStart now ms)) s,
         if 0 <? Tone.frequency currentTone
         then [EvTone pin (Tone.frequency currentTone) (Tone.duration currentTone)]
         else [])
      else if Melody.playingTone ms then
        if Tone.duration currentTone <=? u32 (now - Melody.toneStart ms) then
          (set_melodyState (Melody.set_playingTone false ms) s, [EvNoTone pin])
        else (s, [])
      else
        if add16 (Tone.duration currentTone) (Tone.rest currentTone)
           <=? u32 (now - Melody.toneStart ms)
        then
          (set_melodyState
             (Melody.set_toneStart 0
                (Melody.set_current (u8 (Melody.current ms + 1)) ms)) s, [])
        else (s, [])
    else
      if Melody.repeat ms then
        (set_melodyState
           (Melody.set_playingTone false
              (Melody.set_toneStart 0 (Melody.set_current 0 ms))) s, [])
      else (set_melodyState (Melody.set_active false ms) s, [])
  else (s, []).

(** [update()], lines 83-169: the return value, the statics afterwards and
    the pin-driver calls made, for the clock reading [now]. *)
Definition update (s : Statics) (now : Z) : bool * Statics * list event :=
  if Pulse.active (pulseState s) && negb (Config.pin (config s) =? 255)
  then pulseTick s now
  else
    let '(s2, evs) := melodyTick (patternTick s now) now in
    (false, s2, evs).

Definition update_ret (s : Statics) (now : Z) : bool := fst (fst (update s now)).
Definition update_post (s : Statics) (now : Z) : Statics := snd (fst (update s now)).
Definition update_events (s : Statics) (now : Z) : list event := snd (update s now).

(** [pulse(count, frequency, duration, interval)], lines 219-224. *)
Definition pulse (s : Statics) (count frequency duration interval : Z) : Statics :=
  if (Config.pin (config s) =? 255) || (count =? 0) then s
  else set_pulseState (Pulse.mk count frequency duration interval 0 true) s.

(** [pattern(pulses, count, repeat, pulseDelay)], lines 233-242. *)
Definition pattern (s : Statics) (pulses : option (list Pulse.t)) (count : Z)
    (repeat : bool) (pulseDelay : Z) : Statics :=
  if (Config.pin (config s) =? 255) || is_null pulses || (count =? 0) then s
  else
    let pt := Pattern.make pulses count 0 true repeat pulseDelay in
    let firstPulse := pulse_at (Pattern.pulses pt) 0 in
    set_pulseState (load_pulse firstPulse) (set_patternState pt s).

Definition isPatternActive (s : Statics) : bool := Pattern.active (patternState s).

(** [stopPattern()], lines 256-260. *)
Definition stopPattern (s : Statics) : Statics * list event :=
  (set_pulseState (Pulse.set_active false (pulseState s))
     (set_patternState (Pattern.set_active false (patternState s)) s), []).

Definition isMelodyActive (s : Statics) : bool := Melody.active (melodyState s).

(** [stopMelody()], lines 292-297. *)
Definition stopMelody (s : Statics) : Statics * list event :=
  (set_melodyState (Melody.set_active false (melodyState s)) s,
   if negb (Config.pin (config s) =? 255)
   then [EvNoTone (Config.pin (config s))] else []).

(** [melody(tones, count, repeat)], lines 262-274. *)
Definition melody (s : Statics) (tones : option (list Tone.t)) (count : Z)
    (repeat : bool) : Statics * list event :=
  if (Config.pin (config s) =? 255) || is_null tones || (count =? 0) then (s, [])
  else
    let '(s1, evs) := stopMelody s in
    (set_melodyState (Melody.mk tones count 0 true repeat 0 false) s1, evs).

(** ** Running the dispatcher *)

(** Successive [update()] calls, one per clock reading; the log pairs each
    pin-driver call with the reading of the call that made it. *)
Fixpoint run (s : Statics) (clock : list Z) : Statics * list (Z * event) :=
  match clock with
  | [] => (s, [])
  | now :: rest =>
      let '(_, s1, evs) := update s now in
      let '(s2, log) := run s1 rest in
      (s2, map (pair now) evs ++ log)
  end.

(** [while (cond) update();] where the k-th call of [update()] reads the
    k-th entry of [clock].  [None]: the loop is still spinning when the
    readings run out. *)
Fixpoint spin (cond : Statics -> bool) (s : Statics) (clock : list Z)
  : option (Statics * list (Z * event)) :=
  if cond s then
    match clock with
    | [] => None
    | now :: rest =>
        let '(_, s1, evs) := update s now in
        match spin cond s1 rest with
        | Some (s2, log) => Some (s2, map (pair now) evs ++ log)
        | None => None
        end
    end
  else Some (s, []).

(** [pulseBlocking], lines 226-231: the loop runs on the remaining count. *)
Definition pulseBlocking (s : Statics) (count frequency duration interval : Z)
    (clock : list Z) : option (Statics * list (Z * event)) :=
  spin (fun st => negb (Pulse.pulses (pulseState st) =? 0))
       (pulse s count frequency duration interval) clock.

(** [patternBlocking], lines 244-249. *)
Definition patternBlocking (s : Statics) (pulses : option (list Pulse.t))
    (count : Z) (repeat : bool) (pulseDelay : Z) (clock : list Z)
  : option (Statics * list (Z * event)) :=
  spin (fun st => Pattern.active (patternState st) || Pulse.active (pulseState st))
       (pattern s pulses count repeat pulseDelay) clock.

(** [melodyBlocking], lines 276-285; [delay(1)] only lets the clock move on.
    The events of [melody] itself (the [noTone] of [stopMelody]) come first,
    without a reading. *)
Definition melodyBlocking (s : Statics) (tones : option (list Tone.t))
    (count : Z) (repeat : bool) (clock : list Z)
  : option (Statics * list event * list (Z * event)) :=
  let '(s1, evs) := melody s tones count repeat in
  let s2 := set_melodyState (Melody.set_repeat false (melodyState s1)) s1 in
  match spin (fun st => Melody.active (melodyState st)) s2 clock with
  | Some (s3, log) => Some (s3, evs, log)
  | None => None
  end.

(** The statics after each of the successive [update()] calls. *)
Fixpoint states (s : Statics) (clock : list Z) : list Statics :=
  match clock with
  | [] => []
  | now :: rest => update_post s now :: states (update_post s now) rest
  end.

(** No entry of the log is a [tone] call. *)
Definition no_tone (log : list (Z * event)) : Prop :=
  Forall (fun e => is_tone (snd e) = false) log.

(** The statics with the pulse train and the pattern switched off: what
    the melody would face had nothing interrupted it. *)
Definition quiesce (s : Statics) : Statics :=
  set_pulseState (Pulse.set_active false (pulseState s))
    (set_patternState (Pattern.set_active false (patternState s)) s).

(** The melody is held back in the call at [now]: the pulse train is
    active on entry, or the pattern is still active when the call is over. *)
Definition paused (s : Statics) (now : Z) : Prop :=
  Pulse.active (pulseState s) = true
  \/ Pattern.active (patternState (update_post s now)) = true.

Fixpoint paused_during (s : Statics) (clock : list Z) : Prop :=
  match clock with
  | [] => True
  | now :: rest => paused s now /\ paused_during (update_post s now) rest
  end.

(** ** Moving the time origin *)

Definition in_u32 (x : Z) : Prop := 0 <= x < 2 ^ 32.

(** A stored timestamp moved by [k] ticks of the 32-bit clock.  In
    [pulseState.last] and [melodyState.toneStart] the value 0 is no
    timestamp but the mark of a tone or step not begun, and stays 0. *)
Definition shift_ref (k r : Z) : Z := if r =? 0 then 0 else u32 (r + k).

Definition shift_statics (k : Z) (s : Statics) : Statics :=
  mkStatics (config s)
    (Pulse.set_last (shift_ref k (Pulse.last (pulseState s))) (pulseState s))
    (Pattern.set_lastPulseEnd (u32 (Pattern.lastPulseEnd (patternState s) + k))
       (patternState s))
    (Melody.set_toneStart (shift_ref k (Melody.toneStart (melodyState s)))
       (melodyState s)).

(** ** Scenarios used by the examples *)

(** The statics once [setup] has configured pin 9 (no start-up beep). *)
Definition configured : Statics := setConfig (Config.of_pin 9) boot.

(** Clock readings of an irregular sequence of [update()] calls. *)
Definition demo_clock : list Z := [1; 71; 141; 500; 1000; 2000].

(** A two-entry pattern list and a one-step melody. *)
Definition demo_pulses : option (list Pulse.t) :=
  Some [Pulse.mk 1 1000 50 20 0 false; Pulse.mk 1 2000 60 30 0 false].

Definition demo_tones : option (list Tone.t) := Some [Tone.mk 440 100 50].

(** A two-entry pattern started on pin 9. *)
Definition pattern_started : Statics := pattern configured demo_pulses 2 false 300.

(** The same, after the [update()] call at reading 1 has fired the first
    entry's tone (50 ms long). *)
Definition pattern_sounding : Statics := update_post pattern_started 1.

(** A one-step melody started on pin 9. *)
Definition melody_started : Statics := fst (melody configured demo_tones 1 false).

(** A pulse train of three on pin 9, after its first tone fired at reading 5. *)
Definition pulse_fired : Statics := update_post (pulse configured 3 1000 50 20) 5.

(** A one-entry pattern started while the one-step melody is active, and
    the statics three calls later, the pattern waiting out its delay. *)
Definition melody_then_pattern : Statics :=
  pattern melody_started (Some [Pulse.mk 1 1000 50 20 0 false]) 1 false 300.

Definition pattern_last_wait : Statics := fst (run melody_then_pattern [1; 71; 141]).

(** A two-entry pattern with a delay of 10 ms, after the calls at 1 (tone
    of the first entry) and 50 (train retired): it waits, the tone being
    over at 100. *)
Definition pattern_waiting : Statics :=
  fst (run (pattern configured demo_pulses 2 false 10) [1; 50]).

(** ** Observations on logs, clocks and sequencer states *)

(** The pin a driver call addresses. *)
Definition event_pin (e : event) : Z :=
  match e with EvTone p _ _ => p | EvNoTone p => p end.

(** Successive readings, each at least [gap] after the one before on the
    32-bit clock; [prev = 0] stands for no reading before. *)
Fixpoint spaced_from (gap prev : Z) (times : list Z) : Prop :=
  match times with
  | [] => True
  | t :: rest => (prev = 0 \/ gap <= u32 (t - prev)) /\ spaced_from gap t rest
  end.

(** A pattern that [advancePattern] can only wrap around, never end. *)
Definition pattern_loops (s : Statics) : Prop :=
  Pattern.active (patternState s) = true
  /\ Pattern.repeat (patternState s) = true
  /\ Pattern.pulses (patternState s) <> None
  /\ Pattern.count (patternState s) <> 0.

(** While the pattern is active its index is a valid entry number and the
    embedded pulse train carries the parameters of that entry. *)
Definition pattern_consistent (s : Statics) : Prop :=
  Pattern.active (patternState s) = true ->
  0 <= Pattern.current (patternState s) < Pattern.count (patternState s)
  /\ Pulse.frequency (pulseState s)
     = Pulse.frequency (pulse_at (Pattern.pulses (patternState s))
                          (Pattern.current (patternState s)))
  /\ Pulse.duration (pulseState s)
     = Pulse.duration (pulse_at (Pattern.pulses (patternState s))
                         (Pattern.current (patternState s)))
  /\ Pulse.interval (pulseState s)
     = Pulse.interval (pulse_at (Pattern.pulses (patternState s))
                         (Pattern.current (patternState s))).

(** The pattern's wait is not over at reading [now]. *)
Definition still_waiting (s : Statics) (now : Z) : Prop :=
  now < Pattern.lastPulseEnd (patternState s)
  \/ u32 (now - Pattern.lastPulseEnd (patternState s))
     < Pattern.pulseDelay (patternState s).

(** The melody sequencer holds the list it was started with, its index is
    at most the count, and a repeating melody is active. *)
Definition melody_within (l : list Tone.t) (count : Z) (rep : bool)
    (s : Statics) : Prop :=
  Melody.tones (melodyState s) = Some l
  /\ Melody.count (melodyState s) = count
  /\ Melody.repeat (melodyState s) = rep
  /\ 0 <= Melody.current (melodyState s) <= count
  /\ (rep = true -> Melody.active (melodyState s) = true).

(** ** Pin set-up (setup, beep) *)

Definition BUZ_NONE : Z := 0.
Definition BUZ_BEEP : Z := 1.
Definition BUZ_PULSE : Z := 2.
Definition BUZ_FORCE : Z := 8.
Definition BUZ_SILENT : Z := 128.

(** [flags & mask] as a condition. *)
Definition has_flag (flags mask : Z) : bool := negb (Z.land flags mask =? 0).

Inductive pin_mode := INPUT | OUTPUT.

(** What [setup] does to the hardware: pin-driver calls, [pinMode] and
    [digitalWrite] (LOW is [false]).  Serial output is not modelled. *)
Inductive io :=
| IoDriver (e : event)
| IoPinMode (pin : Z) (mode : pin_mode)
| IoDigitalWrite (pin : Z) (high : bool).

(** [getConfig()], lines 171-174. *)
Definition getConfig (s : Statics) : Config.t := config s.

(** [setup(Config conf, uint8_t flags)], lines 22-53.  With [BUZ_BEEP] it
    ends in [pulseBlocking(3)], whose default arguments are read from
    [getConfig().ack] at the call; [clock] holds the readings of that loop,
    and [None] means the loop is still spinning when they run out. *)
Definition setup (s : Statics) (conf : Config.t) (flags : Z) (clock : list Z)
  : option (bool * Statics * list io) :=
  if (Config.pin conf =? 255) && negb (Config.pin (config s) =? 255) then
    Some (false, boot,
          [IoDriver (EvNoTone (Config.pin (config s)));
           IoPinMode (Config.pin (config s)) INPUT])
  else if (Config.pin conf =? Config.pin (config s))
          && negb (has_flag flags BUZ_FORCE) then
    Some (true, s, [])
  else
    let s1 := set_config (Config.of_pin (Config.pin conf)) s in
    let io1 := [IoPinMode (Config.pin conf) OUTPUT;
                IoDigitalWrite (Config.pin conf) false] in
    if has_flag flags BUZ_BEEP then
      match pulseBlocking s1 3 (Tone.frequency (Config.ack (getConfig s1)))
              (Tone.duration (Config.ack (getConfig s1)))
              (Tone.rest (Config.ack (getConfig s1))) clock with
      | Some (s2, log) =>
          Some (true, s2, io1 ++ map (fun e => IoDriver (snd e)) log)
      | None => None
      end
    else Some (true, s1, io1).

(** [setup(uint8_t pin, uint8_t flags)], lines 55-58. *)
Definition setup_pin (s : Statics) (pin flags : Z) (clock : list Z)
  : option (bool * Statics * list io) :=
  setup s (Config.of_pin pin) flags clock.

(** [beep(frequency, duration)], lines 212-217. *)
Definition beep (s : Statics) (frequency duration : Z) : list event :=
  if Config.pin (config s) =? 255 then []
  else [EvTone (Config.pin (config s)) frequency duration].

(** ** The tokenizer (split, lines 299-339)

    The character buffer is a list of characters standing for the bytes
    before its terminating NUL; a read at or past the end of the list
    reads that terminator.  Pointers into the buffer are indices, the
    [output] array is a list of [max_elements] slots, [None] being
    [nullptr]. *)

Definition NUL : ascii := "000"%char.
Definition SPACE : ascii := " "%char.
Definition QUOTE : ascii := "034"%char.

Definition is_nul (c : ascii) : bool := Ascii.eqb c NUL.
Definition is_space (c : ascii) : bool := Ascii.eqb c SPACE.
Definition is_quote (c : ascii) : bool := Ascii.eqb c QUOTE.

(** [*ptr] *)
Definition peek (buf : list ascii) (ptr : nat) : ascii := nth ptr buf NUL.

(** The number of leading characters of [l] that satisfy [keep]. *)
Fixpoint span (keep : ascii -> bool) (l : list ascii) : nat :=
  match l with
  | c :: r => if keep c then S (span keep r) else O
  | [] => O
  end.

(** [while (keep *ptr) ++ptr;], for a [keep] that rejects NUL. *)
Definition scan (keep : ascii -> bool) (buf : list ascii) (ptr : nat) : nat :=
  (ptr + span keep (skipn ptr buf))%nat.

(** [*ptr = c], for [ptr] inside the buffer. *)
Definition poke (buf : list ascii) (ptr : nat) (c : ascii) : list ascii :=
  firstn ptr buf ++ match skipn ptr buf with
                    | _ :: r => c :: r
                    | [] => []
                    end.

(** [output[i] = p] *)
Fixpoint set_slot (i : nat) (p : option nat) (output : list (option nat))
  {struct output} : list (option nat) :=
  match output, i with
  | [], _ => []
  | _ :: r, O => p :: r
  | o :: r, S j => o :: set_slot j p r
  end.

Definition in_unquoted (c : ascii) : bool :=
  negb (is_nul c) && negb (is_space c) && negb (is_quote c).

Definition in_quoted (c : ascii) : bool :=
  negb (is_nul c) && negb (is_quote c).

(** The outer [while] loop, which runs while [*ptr] is not NUL and
    [count < max_elements].  Every pass that
    does not leave the loop raises [count], so [max_elements] passes are
    all the loop can make; [fuel] counts them. *)
Fixpoint split_loop (fuel : nat) (buf : list ascii) (output : list (option nat))
    (count ptr max_elements : nat) : list ascii * list (option nat) * nat :=
  match fuel with
  | O => (buf, output, count)
  | S fuel' =>
      if negb (is_nul (peek buf ptr)) && (count <? max_elements)%nat then
        let ptr1 := scan is_space buf ptr in
        if is_nul (peek buf ptr1) then (buf, output, count)
        else if is_quote (peek buf ptr1) then
          let ptr2 := S ptr1 in
          let output' := set_slot count (Some ptr2) output in
          let ptr3 := scan in_quoted buf ptr2 in
          if is_quote (peek buf ptr3)
          then split_loop fuel' (poke buf ptr3 NUL) output' (S count) (S ptr3)
                 max_elements
          else split_loop fuel' buf output' (S count) ptr3 max_elements
        else
          let output' := set_slot count (Some ptr1) output in
          let ptr3 := scan in_unquoted buf ptr1 in
          if negb (is_nul (peek buf ptr3))
          then split_loop fuel' (poke buf ptr3 NUL) output' (S count) (S ptr3)
                 max_elements
          else split_loop fuel' buf output' (S count) ptr3 max_elements
      else (buf, output, count)
  end.

(** [split(input, output, max_elements)]: the buffer and the output array
    afterwards, and the count returned. *)
Definition split (input : list ascii) (max_elements : nat)
  : list ascii * list (option nat) * nat :=
  split_loop max_elements input (repeat None max_elements) O O max_elements.

(** The C string that starts at [ptr]. *)
Definition cstr (buf : list ascii) (ptr : nat) : list ascii :=
  firstn (span (fun c => negb (is_nul c)) (skipn ptr buf)) (skipn ptr buf).

(** The strings the first [count] output slots point to. *)
Definition split_tokens (r : list ascii * list (option nat) * nat)
  : list (list ascii) :=
  let '(buf, output, count) := r in
  map (fun o => match o with Some p => cstr buf p | None => [] end)
      (firstn count output).

(** Lines as [split] is meant to read them: items, each after any number
    of blanks; a plain item is followed by one blank when another item
    comes after it. *)
Inductive item :=
| Plain (w : list ascii)
| Quoted (body : list ascii).

Definition token_of (it : item) : list ascii :=
  match it with Plain w => w | Quoted b => b end.

Definition render (it : item) : list ascii :=
  match it with Plain w => w | Quoted b => QUOTE :: b ++ [QUOTE] end.

Definition valid_item (it : item) : Prop :=
  match it with
  | Plain w => w <> [] /\ Forall (fun c => in_unquoted c = true) w
  | Quoted b => Forall (fun c => in_quoted c = true) b
  end.

Definition separator (it : item) (more : list (nat * item)) : list ascii :=
  match it, more with
  | Plain _, _ :: _ => [SPACE]
  | _, _ => []
  end.

Fixpoint layout (items : list (nat * item)) : list ascii :=
  match items with
  | [] => []
  | (k, it) :: more =>
      repeat SPACE k ++ render it ++ separator it more ++ layout more
  end.

(** The buffer [split] leaves behind once it has taken the first [n] items
    of a line: the blank after a plain item and the closing quote of a
    quoted one are overwritten with NUL. *)
Definition render_done (it : item) : list ascii :=
  match it with Plain w => w | Quoted b => QUOTE :: b ++ [NUL] end.

Definition separator_done (it : item) (more : list (nat * item)) : list ascii :=
  match it, more with
  | Plain _, _ :: _ => [NUL]
  | _, _ => []
  end.

Fixpoint layout_cut (n : nat) (items : list (nat * item)) : list ascii :=
  match n, items with
  | S n', (k, it) :: more =>
      repeat SPACE k ++ render_done it ++ separator_done it more
        ++ layout_cut n' more
  | _, _ => layout items
  end.

(** Where the tokens of a line start, counted from [base]. *)
Definition start_offset (it : item) : nat :=
  match it with Plain _ => O | Quoted _ => 1%nat end.

Fixpoint starts (base : nat) (items : list (nat * item)) : list nat :=
  match items with
  | [] => []
  | (k, it) :: more =>
      (base + k + start_offset it)%nat
      :: starts (base + k + length (render it) + length (separator it more))%nat
           more
  end.

(** The output array after the pointers [ps] went into the slots from
    [count] on. *)
Fixpoint fill (output : list (option nat)) (count : nat) (ps : list nat)
  : list (option nat) :=
  match ps with
  | [] => output
  | p :: r => fill (set_slot count (Some p) output) (S count) r
  end.

(** The data line [440  100 "a b"]: a plain item, two blanks and a second
    plain item, a blank and a quoted item. *)
Definition demo_line : list (nat * item) :=
  [(O, Plain ["4"; "4"; "0"]%char);
   (2%nat, Plain ["1"; "0"; "0"]%char);
   (O, Quoted ["a"; " "; "b"]%char)].

(** ** The line handlers of the loaders (loadTones, loadPattern)

    [SDCard::processLines] hands each line of a file, with its number, to
    a handler; the handlers are modelled here, with the caller-owned array
    and the static count they work on passed in and out.  [trim] is
    [String::trim] and [atoi] the C library function, both taken as given;
    serial output is not modelled. *)

Definition BUZZER_MAX_MELODY_TONES : nat := 30.
Definition BUZZER_MAX_PATTERN_PULSES : nat := 20.

Definition u16 (x : Z) : Z := x mod 2 ^ 16.

#[global] Arguments u16 : simpl never.

(** [s.toCharArray(buff, bufsize)]: at most [bufsize - 1] characters,
    then the terminator. *)
Definition toCharArray (s : list ascii) (bufsize : nat) : list ascii :=
  firstn (bufsize - 1) s.

(** [s.startsWith(F("#"))] *)
Definition starts_with_hash (s : list ascii) : bool :=
  match s with
  | c :: _ => Ascii.eqb c "#"%char
  | [] => false
  end.

Fixpoint chars_eqb (a b : list ascii) : bool :=
  match a, b with
  | [], [] => true
  | x :: a', y :: b' => Ascii.eqb x y && chars_eqb a' b'
  | _, _ => false
  end.

Definition header_play : list ascii := ["#"; " "; "p"; "l"; "a"; "y"]%char.
Definition header_pattern : list ascii :=
  ["#"; " "; "p"; "a"; "t"; "t"; "e"; "r"; "n"]%char.

(** [array[i] = x] for [i] inside the array.  Outside the array the C++
    write is undefined and this function is not a model of it (it leaves
    the list as it is); [array_store] below checks the index. *)
Fixpoint array_set {A : Type} (i : nat) (x : A) (l : list A) {struct l}
  : list A :=
  match l, i with
  | [], _ => []
  | _ :: r, O => x :: r
  | y :: r, S j => y :: array_set j x r
  end.

Section Loader.

Variable trim : list ascii -> list ascii.
Variable atoi : list ascii -> Z.

(** The handler of [loadTones], lines 416-447: its return value, the
    array [staticTones] points to and [staticToneCount] afterwards. *)
Definition tone_line (tones : list Tone.t) (count : nat) (line : list ascii)
    (linenum : Z) : bool * list Tone.t * nat :=
  let trimmedLine := trim line in
  if linenum =? 1 then
    if negb (chars_eqb trimmedLine header_play) then (false, tones, count)
    else (true, tones, count)
  else if (length trimmedLine =? 0)%nat || starts_with_hash trimmedLine
  then (true, tones, count)
  else if (BUZZER_MAX_MELODY_TONES <=? count)%nat then (true, tones, count)
  else
    let buff := toCharArray trimmedLine 20 in
    let '(buf, tok, _) := split buff 3 in
    match nth 0 tok None, nth 1 tok None, nth 2 tok None with
    | Some p0, Some p1, Some p2 =>
        let freq := u16 (atoi (cstr buf p0)) in
        let dur := u16 (atoi (cstr buf p1)) in
        let rest := u16 (atoi (cstr buf p2)) in
        (true, array_set count (Tone.mk freq dur rest) tones, S count)
    | _, _, _ => (true, tones, count)
    end.

(** The handler of [loadPattern], lines 350-382. *)
Definition pattern_line (pulses : list Pulse.t) (count : nat)
    (line : list ascii) (linenum : Z) : bool * list Pulse.t * nat :=
  let trimmedLine := trim line in
  if linenum =? 1 then
    if negb (chars_eqb trimmedLine header_pattern) then (false, pulses, count)
    else (true, pulses, count)
  else if (length trimmedLine =? 0)%nat || starts_with_hash trimmedLine
  then (true, pulses, count)
  else if (BUZZER_MAX_PATTERN_PULSES <=? count)%nat then (true, pulses, count)
  else
    let buff := toCharArray trimmedLine 25 in
    let '(buf, tok, _) := split buff 4 in
    match nth 0 tok None, nth 1 tok None, nth 2 tok None, nth 3 tok None with
    | Some p0, Some p1, Some p2, Some p3 =>
        let pulseCnt := u8 (atoi (cstr buf p0)) in
        let freq := u16 (atoi (cstr buf p1)) in
        let dur := u16 (atoi (cstr buf p2)) in
        let interval := u16 (atoi (cstr buf p3)) in
        (true,
         array_set count (Pulse.mk pulseCnt freq dur interval 0 false) pulses,
         S count)
    | _, _, _, _ => (true, pulses, count)
    end.

(** The handlers called on one line after the other. *)
Fixpoint tone_lines (tones : list Tone.t) (count : nat)
    (lines : list (list ascii * Z)) : list Tone.t * nat :=
  match lines with
  | [] => (tones, count)
  | (line, linenum) :: rest =>
      let '(_, tones1, count1) := tone_line tones count line linenum in
      tone_lines tones1 count1 rest
  end.

Fixpoint pattern_lines (pulses : list Pulse.t) (count : nat)
    (lines : list (list ascii * Z)) : list Pulse.t * nat :=
  match lines with
  | [] => (pulses, count)
  | (line, linenum) :: rest =>
      let '(_, pulses1, count1) := pattern_line pulses count line linenum in
      pattern_lines pulses1 count1 rest
  end.

End Loader.

(** Instances for the examples: a line handed over already trimmed, and
    the value of the leading decimal digits of a string (what [atoi]
    yields on an unsigned number that fits an [int]). *)
Definition trim_none (s : list ascii) : list ascii := s.

Fixpoint decimal_from (acc : Z) (s : list ascii) : Z :=
  match s with
  | c :: r =>
      let n := Z.of_nat (nat_of_ascii c) in
      if (48 <=? n) && (n <=? 57) then decimal_from (10 * acc + (n - 48)) r
      else acc
  | [] => acc
  end.

Definition decimal (s : list ascii) : Z := decimal_from 0 s.

(** The tone line [440 100 50] and the pattern line [3 1000 50 20]. *)
Definition demo_tone_line : list ascii :=
  ["4"; "4"; "0"; " "; "1"; "0"; "0"; " "; "5"; "0"]%char.

Definition demo_pattern_line : list ascii :=
  ["3"; " "; "1"; "0"; "0"; "0"; " "; "5"; "0"; " "; "2"; "0"]%char.

(** ** A melody played through *)

(** Readings that rise by at least [gap] from one call to the next and do
    not wrap. *)
Fixpoint rising (gap prev : Z) (clock : list Z) : Prop :=
  match clock with
  | [] => True
  | t :: rest => prev + gap <= t < 2 ^ 32 /\ rising gap t rest
  end.

(** The driver calls of a melody whose steps each take three [update()]
    calls: the step begins (a tone, unless its frequency is 0), the tone
    is stopped, the rest is over. *)
Fixpoint melody_log (pin : Z) (l : list Tone.t) (clock : list Z)
  : list (Z * event) :=
  match l, clock with
  | tn :: l', ta :: tb :: _ :: clock' =>
      (if 0 <? Tone.frequency tn
       then [(ta, EvTone pin (Tone.frequency tn) (Tone.duration tn))]
       else [])
      ++ (tb, EvNoTone pin) :: melody_log pin l' clock'
  | _, _ => []
  end.

(** Every step of the melody is over within [gap] milliseconds. *)
Definition steps_within (gap : Z) (l : list Tone.t) : Prop :=
  Forall (fun tn => 0 <= Tone.duration tn /\ 0 <= Tone.rest tn
                    /\ Tone.duration tn + Tone.rest tn <= gap) l.

(** ** The width of int

    [interval + duration] (line 90) and [duration + rest] (line 148) add
    two [uint16_t] values.  With a 32-bit [int] the operands are promoted
    and the sum is exact, which is what [add16], [pulseTick], [melodyTick]
    and [update] above model.  With a 16-bit [int] (AVR) the operands stay
    [unsigned int] and the sum is taken modulo 2^16.  The definitions
    below are the same functions with the width made explicit. *)

Inductive int_width := Int16 | Int32.

Definition add16_on (w : int_width) (a b : Z) : Z :=
  match w with
  | Int16 => (a + b) mod 2 ^ 16
  | Int32 => add16 a b
  end.

(** Lines 85-107 on a target of width [w]. *)
Definition pulseTick_on (w : int_width) (s : Statics) (now : Z)
  : bool * Statics * list event :=
  let pin := Config.pin (config s) in
  let ps := pulseState s in
  if 0 <? Pulse.pulses ps then
    if (Pulse.last ps =? 0)
       || (add16_on w (Pulse.interval ps) (Pulse.duration ps)
           <=? u32 (now - Pulse.last ps))
    then
      let ps' := Pulse.set_pulses (u8 (Pulse.pulses ps - 1)) (Pulse.set_last now ps) in
      (Pulse.last ps' =? now, set_pulseState ps' s,
       [EvTone pin (Pulse.frequency ps) (Pulse.duration ps)])
    else (Pulse.last ps =? now, s, [])
  else
    let ps' := Pulse.set_active false ps in
    let s1 := set_pulseState ps' s in
    let s2 :=
      if Pattern.active (patternState s1) then
        set_patternState
          (Pattern.set_waitingForDelay true
             (Pattern.set_lastPulseEnd (u32 (now + Pulse.duration ps'))
                (patternState s1))) s1
      else s1 in
    (Pulse.last ps' =? now, s2, []).

(** Lines 125-166 on a target of width [w]. *)
Definition melodyTick_on (w : int_width) (s : Statics) (now : Z)
  : Statics * list event :=
  let pin := Config.pin (config s) in
  let ms := melodyState s in
  if Melody.active ms && negb (pin =? 255)
     && negb (Pulse.active (pulseState s))
     && negb (Pattern.active (patternState s))
  then
    if Melody.current ms <? Melody.count ms then
      let currentTone := tone_at (Melody.tones ms) (Melody.current ms) in
      if Melody.toneStart ms =? 0 then
        (set_melodyState
           (Melody.set_playingTone true (Melody.set_toneStart now ms)) s,
         if 0 <? Tone.frequency currentTone
         then [EvTone pin (Tone.frequency currentTone) (Tone.duration currentTone)]
         else [])
      else if Melody.playingTone ms then
        if Tone.duration currentTone <=? u32 (now - Melody.toneStart ms) then
          (set_melodyState (Melody.set_playingTone false ms) s, [EvNoTone pin])
        else (s, [])
      else
        if add16_on w (Tone.duration currentTone) (Tone.rest currentTone)
           <=? u32 (now - Melody.toneStart ms)
        then
          (set_melodyState
             (Melody.set_toneStart 0
                (Melody.set_current (u8 (Melody.current ms + 1)) ms)) s, [])
        else (s, [])
    else
      if Melody.repeat ms then
        (set_melodyState
           (Melody.set_playingTone false
              (Melody.set_toneStart 0 (Melody.set_current 0 ms))) s, [])
      else (set_melodyState (Melody.set_active false ms) s, [])
  else (s, []).

(** [update()] on a target of width [w]. *)
Definition update_on (w : int_width) (s : Statics) (now : Z)
  : bool * Statics * list event :=
  if Pulse.active (pulseState s) && negb (Config.pin (config s) =? 255)
  then pulseTick_on w s now
  else
    let '(s2, evs) := melodyTick_on w (patternTick s now) now in
    (false, s2, evs).

Definition update_post_on (w : int_width) (s : Statics) (now : Z) : Statics :=
  snd (fst (update_on w s now)).
Definition update_events_on (w : int_width) (s : Statics) (now : Z)
  : list event := snd (update_on w s now).

Fixpoint run_on (w : int_width) (s : Statics) (clock : list Z)
  : Statics * list (Z * event) :=
  match clock with
  | [] => (s, [])
  | now :: rest =>
      let '(_, s1, evs) := update_on w s now in
      let '(s2, log) := run_on w s1 rest in
      (s2, map (pair now) evs ++ log)
  end.

(** The sum of the two operands is formed without loss on a target of
    width [w]. *)
Definition sum_fits (w : int_width) (a b : Z) : Prop :=
  w = Int32 \/ a + b < 2 ^ 16.



(** ** The loaders' stores, bounds checked

    [staticTones[staticToneCount] = ...] and
    [staticPulses[staticPulseCount] = ...] write into the array the
    caller handed in.  [array_store] is that write with the array's
    extent checked: [None] stands for a write outside the array, which is
    undefined in C++. *)

Definition array_store {A : Type} (i : nat) (x : A) (l : list A)
  : option (list A) :=
  if (i <? length l)%nat then Some (array_set i x l) else None.

Section CheckedLoader.

Variable trim : list ascii -> list ascii.
Variable atoi : list ascii -> Z.

(** The handler of [loadTones], lines 416-447, with the store checked. *)
Definition tone_line_checked (tones : list Tone.t) (count : nat)
    (line : list ascii) (linenum : Z) : option (bool * list Tone.t * nat) :=
  let trimmedLine := trim line in
  if linenum =? 1 then
    if negb (chars_eqb trimmedLine header_play) then Some (false, tones, count)
    else Some (true, tones, count)
  else if (length trimmedLine =? 0)%nat || starts_with_hash trimmedLine
  then Some (true, tones, count)
  else if (BUZZER_MAX_MELODY_TONES <=? count)%nat then Some (true, tones, count)
  else
    let buff := toCharArray trimmedLine 20 in
    let '(buf, tok, _) := split buff 3 in
    match nth 0 tok None, nth 1 tok None, nth 2 tok None with
    | Some p0, Some p1, Some p2 =>
        let freq := u16 (atoi (cstr buf p0)) in
        let dur := u16 (atoi (cstr buf p1)) in
        let rest := u16 (atoi (cstr buf p2)) in
        match array_store count (Tone.mk freq dur rest) tones with
        | Some tones' => Some (true, tones', S count)
        | None => None
        end
    | _, _, _ => Some (true, tones, count)
    end.

(** The handler of [loadPattern], lines 350-382, with the store checked. *)
Definition pattern_line_checked (pulses : list Pulse.t) (count : nat)
    (line : list ascii) (linenum : Z) : option (bool * list Pulse.t * nat) :=
  let trimmedLine := trim line in
  if linenum =? 1 then
    if negb (chars_eqb trimmedLine header_pattern) then Some (false, pulses, count)
    else Some (true, pulses, count)
  else if (length trimmedLine =? 0)%nat || starts_with_hash trimmedLine
  then Some (true, pulses, count)
  else if (BUZZER_MAX_PATTERN_PULSES <=? count)%nat then Some (true, pulses, count)
  else
    let buff := toCharArray trimmedLine 25 in
    let '(buf, tok, _) := split buff 4 in
    match nth 0 tok None, nth 1 tok None, nth 2 tok None, nth 3 tok None with
    | Some p0, Some p1, Some p2, Some p3 =>
        let pulseCnt := u8 (atoi (cstr buf p0)) in
        let freq := u16 (atoi (cstr buf p1)) in
        let dur := u16 (atoi (cstr buf p2)) in
        let interval := u16 (atoi (cstr buf p3)) in
        match array_store count (Pulse.mk pulseCnt freq dur interval 0 false)
                pulses with
        | Some pulses' => Some (true, pulses', S count)
        | None => None
        end
    | _, _, _, _ => Some (true, pulses, count)
    end.

(** The checked handlers called on one line after the other; [None] as
    soon as one call writes outside the array. *)
Fixpoint tone_lines_checked (tones : list Tone.t) (count : nat)
    (lines : list (list ascii * Z)) : option (list Tone.t * nat) :=
  match lines with
  | [] => Some (tones, count)
  | (line, linenum) :: rest =>
      match tone_line_checked tones count line linenum with
      | Some (_, tones1, count1) => tone_lines_checked tones1 count1 rest
      | None => None
      end
  end.

Fixpoint pattern_lines_checked (pulses : list Pulse.t) (count : nat)
    (lines : list (list ascii * Z)) : option (list Pulse.t * nat) :=
  match lines with
  | [] => Some (pulses, count)
  | (line, linenum) :: rest =>
      match pattern_line_checked pulses count line linenum with
      | Some (_, pulses1, count1) => pattern_lines_checked pulses1 count1 rest
      | None => None
      end
  end.

End CheckedLoader.

(** A pattern running on pin 9 when the clock wraps: started shortly
    before the wrap, its first tone fired at 2^32 - 149 and the train
    retired at 2^32 - 100, so that the tone is over at 2^32 - 50. *)
Definition pattern_before_wrap : Statics :=
  fst (run (pattern configured demo_pulses 2 false 10)
         [2 ^ 32 - 149; 2 ^ 32 - 100]).

(** ** Proof support *)

Ltac break_if :=
  match goal with
  | |- context [if ?c then _ else _] => destruct c eqn:?
  end.

Ltac unfold_ops :=
  unfold update_ret, update_post, update_events, update, pulseTick,
    patternTick, melodyTick, advancePattern, pulse, pattern, melody,
    stopMelody, stopPattern, isPatternActive, isMelodyActive in *.

(** ** Start requests *)

Lemma pulse_rejects (s : Statics) (count f d i : Z) :
  Config.pin (config s) = 255 \/ count = 0 -> pulse s count f d i = s.
Proof.
  intros H. unfold pulse.
  destruct H as [H | H]; rewrite H; simpl;
    [ reflexivity | rewrite orb_true_r; reflexivity ].
Qed.

Lemma pattern_rejects (s : Statics) (pulses : option (list Pulse.t))
    (count : Z) (rep : bool) (pd : Z) :
  Config.pin (config s) = 255 \/ pulses = None \/ count = 0 ->
  pattern s pulses count rep pd = s.
Proof.
  intros H. unfold pattern.
  destruct H as [H | [H | H]]; rewrite H; simpl;
    rewrite ?orb_true_r; reflexivity.
Qed.

Lemma melody_rejects (s : Statics) (tones : option (list Tone.t))
    (count : Z) (rep : bool) :
  Config.pin (config s) = 255 \/ tones = None \/ count = 0 ->
  melody s tones count rep = (s, []).
Proof.
  intros H. unfold melody.
  destruct H as [H | [H | H]]; rewrite H; simpl;
    rewrite ?orb_true_r; reflexivity.
Qed.

(** C8. A start request with invalid input is a silent no-op: [pulse] with
    count 0, [pattern] with a null list or count 0, [melody] with a null
    list or count 0, and each of them when no pin is configured
    (pin = 255), returns normally, leaves the pulse, pattern and melody
    state (and the configuration) exactly as they were, and makes no call
    to the pin driver; so the activity queries answer as before. *)
Theorem invalid_start_is_noop (s : Statics) :
  (forall count f d i,
      Config.pin (config s) = 255 \/ count = 0 ->
      pulse s count f d i = s) /\
  (forall pulses count rep pd,
      Config.pin (config s) = 255 \/ pulses = None \/ count = 0 ->
      pattern s pulses count rep pd = s
      /\ isPatternActive (pattern s pulses count rep pd) = isPatternActive s) /\
  (forall tones count rep,
      Config.pin (config s) = 255 \/ tones = None \/ count = 0 ->
      melody s tones count rep = (s, [])
      /\ isMelodyActive (fst (melody s tones count rep)) = isMelodyActive s).
Proof.
  split; [| split].
  - intros. now apply pulse_rejects.
  - intros pulses count rep pd H.
    rewrite (pattern_rejects s pulses count rep pd H). split; reflexivity.
  - intros tones count rep H.
    rewrite (melody_rejects s tones count rep H). split; reflexivity.
Qed.

(** ** The blocking wrappers *)

Lemma spin_exit (cond : Statics -> bool) (clock : list Z) :
  forall s s' log, spin cond s clock = Some (s', log) -> cond s' = false.
Proof.
  induction clock as [| now rest IH]; intros s s' log H; simpl in H.
  - destruct (cond s) eqn:E; [discriminate | now inversion H; subst].
  - destruct (cond s) eqn:E.
    + destruct (update s now) as [[r s1] evs].
      destruct (spin cond s1 rest) as [[s2 log2] |] eqn:E2; [| discriminate].
      inversion H; subst. eapply IH; eassumption.
    + now inversion H; subst.
Qed.

(** What a terminated loop did is what [update()] does when called at the
    readings the loop consumed. *)
Lemma spin_run (cond : Statics -> bool) (clock : list Z) :
  forall s s' log,
    spin cond s clock = Some (s', log) ->
    exists used unused, clock = used ++ unused /\ run s used = (s', log).
Proof.
  induction clock as [| now rest IH]; intros s s' log H; simpl in H.
  - destruct (cond s); [discriminate |]. inversion H; subst.
    exists [], []. split; reflexivity.
  - destruct (cond s).
    + destruct (update s now) as [[r s1] evs] eqn:U.
      destruct (spin cond s1 rest) as [[s2 log2] |] eqn:E2; [| discriminate].
      inversion H; subst.
      destruct (IH _ _ _ E2) as (used & unused & -> & R).
      exists (now :: used), unused. split; [reflexivity |].
      simpl. rewrite U, R. reflexivity.
    + inversion H; subst. exists [], (now :: rest). split; reflexivity.
Qed.

(** While the pulse train is active on a configured pin and has pulses
    left, a call leaves it active. *)
Lemma update_keeps_train (s : Statics) (now : Z) :
  Config.pin (config s) <> 255 ->
  Pulse.active (pulseState s) = true ->
  0 < Pulse.pulses (pulseState s) ->
  Config.pin (config (update_post s now)) = Config.pin (config s)
  /\ Pulse.active (pulseState (update_post s now)) = true
  /\ 0 <= Pulse.pulses (pulseState (update_post s now)).
Proof.
  intros Hpin Hact Hpos. apply Z.eqb_neq in Hpin. apply Z.ltb_lt in Hpos.
  destruct s as [c [n f d i l a] pt m]. simpl in Hpin, Hact, Hpos. subst a.
  unfold update_post, update, pulseTick.
  cbn [pulseState config Pulse.active Pulse.pulses Pulse.last Pulse.interval
       Pulse.duration Pulse.frequency].
  rewrite Hpin, Hpos. cbn [andb negb].
  destruct ((l =? 0) || (add16 i d <=? u32 (now - l))); cbn.
  - repeat split. unfold u8. apply Z.mod_pos_bound. reflexivity.
  - apply Z.ltb_lt in Hpos. repeat split. lia.
Qed.

(** The loop of [pulseBlocking] leaves an active pulse train active. *)
Lemma spin_keeps_train (clock : list Z) :
  forall s s' log,
    Config.pin (config s) <> 255 ->
    Pulse.active (pulseState s) = true ->
    0 <= Pulse.pulses (pulseState s) ->
    spin (fun st => negb (Pulse.pulses (pulseState st) =? 0)) s clock
    = Some (s', log) ->
    Config.pin (config s') <> 255 /\ Pulse.active (pulseState s') = true.
Proof.
  induction clock as [| now rest IH]; intros s s' log Hpin Hact Hge H;
    cbn [spin] in H.
  - destruct (negb _); [discriminate |]. inversion H; subst. now split.
  - destruct (negb (Pulse.pulses (pulseState s) =? 0)) eqn:E.
    + apply negb_true_iff, Z.eqb_neq in E.
      destruct (update_keeps_train s now Hpin Hact ltac:(lia)) as (K1 & K2 & K3).
      unfold update_post in K1, K2, K3.
      destruct (update s now) as [[r s1] evs]. cbn [fst snd] in K1, K2, K3.
      destruct (spin _ s1 rest) as [[s2 log2] |] eqn:E2; [| discriminate].
      inversion H; subst.
      apply (IH s1 s' log2); try assumption. now rewrite K1.
    + inversion H; subst. now split.
Qed.

(** The call that finds an active train with no pulses left retires it. *)
Lemma update_retires_train (s : Statics) (now : Z) :
  Config.pin (config s) <> 255 ->
  Pulse.active (pulseState s) = true ->
  Pulse.pulses (pulseState s) = 0 ->
  Pulse.active (pulseState (update_post s now)) = false.
Proof.
  intros Hpin Hact Hzero. apply Z.eqb_neq in Hpin.
  unfold update_post, update, pulseTick.
  rewrite Hact, Hpin, Hzero. cbn [andb negb Z.ltb Z.compare].
  destruct (Pattern.active _); reflexivity.
Qed.

(** C9 (as the code has it). Each blocking wrapper starts the
    corresponding non-blocking operation and then only calls [update()]:
    when it returns, the statics and the pin-driver log are those of plain
    [update()] calls at the clock readings it consumed.  [patternBlocking]
    returns with the pattern and the pulse train inactive, [melodyBlocking]
    with the melody inactive; [pulseBlocking] loops on the remaining pulse
    count and returns as soon as that count is 0: when its start was
    accepted (configured pin, count above 0) it returns with the pulse
    train's active flag still set, and whatever the clock reads then, the
    next [update()] call clears the flag. *)
Theorem blocking_wrappers_only_tick (s : Statics) (clock : list Z) :
  (forall count f d i s' log,
      pulseBlocking s count f d i clock = Some (s', log) ->
      (exists used unused, clock = used ++ unused
         /\ run (pulse s count f d i) used = (s', log))
      /\ Pulse.pulses (pulseState s') = 0
      /\ (Config.pin (config s) <> 255 -> 0 < count ->
          Pulse.active (pulseState s') = true
          /\ forall now, Pulse.active (pulseState (update_post s' now)) = false)) /\
  (forall pulses count rep pd s' log,
      patternBlocking s pulses count rep pd clock = Some (s', log) ->
      (exists used unused, clock = used ++ unused
         /\ run (pattern s pulses count rep pd) used = (s', log))
      /\ isPatternActive s' = false
      /\ Pulse.active (pulseState s') = false) /\
  (forall tones count rep s' evs log,
      melodyBlocking s tones count rep clock = Some (s', evs, log) ->
      (exists used unused, clock = used ++ unused
         /\ run (set_melodyState
                   (Melody.set_repeat false
                      (melodyState (fst (melody s tones count rep))))
                   (fst (melody s tones count rep))) used = (s', log))
      /\ evs = snd (melody s tones count rep)
      /\ isMelodyActive s' = false).
Proof.
  split; [| split].
  - intros count f d i s' log H. unfold pulseBlocking in H.
    assert (Hzero : Pulse.pulses (pulseState s') = 0).
    { apply spin_exit in H. apply negb_false_iff in H. now apply Z.eqb_eq. }
    split; [eapply spin_run; eassumption |]. split; [exact Hzero |].
    intros Hpin Hcount.
    assert (Hstart : pulse s count f d i
                     = set_pulseState (Pulse.mk count f d i 0 true) s).
    { unfold pulse. apply Z.eqb_neq in Hpin. rewrite Hpin.
      assert (E : (count =? 0) = false) by (apply Z.eqb_neq; lia).
      now rewrite E. }
    rewrite Hstart in H.
    destruct (spin_keeps_train clock
                (set_pulseState (Pulse.mk count f d i 0 true) s) s' log)
      as [Hpin' Hact];
      [destruct s; exact Hpin | destruct s; reflexivity
      | destruct s; simpl; lia | exact H |].
    split; [exact Hact |].
    intros now. now apply update_retires_train.
  - intros pulses count rep pd s' log H. unfold patternBlocking in H. split.
    + eapply spin_run; eassumption.
    + apply spin_exit in H. now apply orb_false_iff in H.
  - intros tones count rep s' evs log H. unfold melodyBlocking in H.
    destruct (melody s tones count rep) as [s1 evs1]. simpl.
    destruct (spin _ _ clock) as [[s3 log3] |] eqn:E; [| discriminate].
    inversion H; subst. split; [| split].
    + eapply spin_run; eassumption.
    + reflexivity.
    + now apply spin_exit in E.
Qed.

(** A run in which each of the three wrappers does return. *)
Lemma blocking_wrappers_only_tick_witness :
  (exists s' log,
      pulseBlocking configured 3 1000 50 20 demo_clock = Some (s', log)
      /\ Pulse.pulses (pulseState s') = 0
      /\ Pulse.active (pulseState s') = true
      /\ Pulse.active (pulseState (update_post s' 500)) = false) /\
  (exists s' log,
      patternBlocking configured (Some [Pulse.mk 1 1000 50 20 0 false]) 1
        false 300 demo_clock = Some (s', log)
      /\ isPatternActive s' = false) /\
  (exists s' evs log,
      melodyBlocking configured (Some [Tone.mk 440 100 50]) 1 true demo_clock
        = Some (s', evs, log)
      /\ isMelodyActive s' = false).
Proof.
  destruct (blocking_wrappers_only_tick configured demo_clock) as (HP & HT & HM).
  split; [| split].
  - eexists. eexists. split; [vm_compute; reflexivity |].
    destruct (HP 3 1000 50 20 _ _ eq_refl) as (_ & Hzero & Hflag).
    destruct (Hflag ltac:(vm_compute; discriminate) ltac:(lia)) as [Hact Hnext].
    split; [exact Hzero |]. split; [exact Hact | exact (Hnext 500)].
  - eexists. eexists. split; [vm_compute; reflexivity |].
    exact (proj1 (proj2 (HT (Some [Pulse.mk 1 1000 50 20 0 false]) 1 false 300
                            _ _ eq_refl))).
  - eexists. eexists. eexists. split; [vm_compute; reflexivity |].
    exact (proj2 (proj2 (HM (Some [Tone.mk 440 100 50]) 1 true _ _ _ eq_refl))).
Defined.

(** C9, refuted for [pulseBlocking]: with pin 9 configured,
    [pulseBlocking(3, 1000, 50, 20)] whose [update()] calls read the clock
    at 1, 71 and 141 returns after the third tone with the pulse train's
    active flag still set. *)
Lemma pulseBlocking_returns_with_active_flag :
  exists s' log,
    pulseBlocking configured 3 1000 50 20 [1; 71; 141] = Some (s', log)
    /\ Pulse.active (pulseState s') = true.
Proof. eexists. eexists. split; vm_compute; reflexivity. Qed.

Lemma update_keeps_repeat (s : Statics) (now : Z) :
  Melody.repeat (melodyState (update_post s now)) = Melody.repeat (melodyState s).
Proof.
  unfold_ops. repeat break_if; reflexivity.
Qed.

Lemma spin_keeps_repeat (cond : Statics -> bool) (clock : list Z) :
  forall s s' log,
    spin cond s clock = Some (s', log) ->
    Melody.repeat (melodyState s') = Melody.repeat (melodyState s).
Proof.
  induction clock as [| now rest IH]; intros s s' log H; simpl in H.
  - destruct (cond s); [discriminate | now inversion H; subst].
  - destruct (cond s).
    + pose proof (update_keeps_repeat s now) as K. unfold update_post in K.
      destruct (update s now) as [[r s1] evs]. simpl in K.
      destruct (spin cond s1 rest) as [[s2 log2] |] eqn:E2; [| discriminate].
      inversion H; subst. rewrite <- K. eapply IH; eassumption.
    + now inversion H; subst.
Qed.

(** C10. [melodyBlocking(tones, count, repeat)] does exactly what
    [melodyBlocking(tones, count, false)] does, whatever [repeat] is: the
    wrapper overwrites the repeat flag with false before it starts to
    tick, no [update()] call sets it again, and so the melody it drives
    never loops; the flag is still false when the wrapper returns. *)
Theorem melodyBlocking_ignores_repeat (s : Statics)
    (tones : option (list Tone.t)) (count : Z) (rep : bool) (clock : list Z) :
  melodyBlocking s tones count rep clock = melodyBlocking s tones count false clock
  /\ (forall s' evs log,
        melodyBlocking s tones count rep clock = Some (s', evs, log) ->
        Melody.repeat (melodyState s') = false).
Proof.
  split.
  - unfold melodyBlocking, melody, stopMelody.
    destruct ((Config.pin (config s) =? 255) || is_null tones || (count =? 0));
      reflexivity.
  - intros s' evs log H. unfold melodyBlocking in H.
    destruct (melody s tones count rep) as [s1 evs1].
    destruct (spin _ _ clock) as [[s3 log3] |] eqn:E; [| discriminate].
    inversion H; subst.
    apply spin_keeps_repeat in E. rewrite E. reflexivity.
Qed.

(** ** Starting a pulse while a pattern runs *)

(** C2, refuted: a pattern of two entries is running on pin 9 when
    [pulse(1, 500, 10, 10)] is called.  [isPatternActive()] still answers
    true, and once the new pulse train is through, the old pattern waits
    its delay, advances to its second entry and fires that entry's tone. *)
Lemma pulse_does_not_stop_pattern :
  isPatternActive pattern_started = true
  /\ isPatternActive (pulse pattern_started 1 500 10 10) = true
  /\ snd (run (pulse pattern_started 1 500 10 10) demo_clock)
     = [(1, EvTone 9 500 10); (1000, EvTone 9 2000 60)]
  /\ Pattern.current
       (patternState (fst (run (pulse pattern_started 1 500 10 10) demo_clock))) = 1.
Proof. repeat split; vm_compute; reflexivity. Qed.

(** ** The return value of update() *)

(** C3, refuted in both directions: the [update()] call that starts the
    first tone of a melody fires [tone] and returns false; and a second
    [update()] call within the millisecond in which a pulse-train tone
    fired returns true again without firing anything. *)
Lemma update_return_is_not_tone_fired :
  (update_events melody_started 5 = [EvTone 9 440 100]
   /\ update_ret melody_started 5 = false)
  /\ (update_events pulse_fired 5 = []
      /\ update_ret pulse_fired 5 = true).
Proof. repeat split; vm_compute; reflexivity. Qed.

(** C3 (as the code has it). [update()] reports tones of the pulse train
    only.  A call that fires a pulse-train tone returns true; a call made
    while the pulse train is inactive or no pin is configured returns
    false, whether or not the melody starts a tone in it; and a call that
    returns true ran the pulse train and leaves its last-fire timestamp
    equal to the clock reading. *)
Theorem update_return_reports_pulse_tones (s : Statics) (now : Z) :
  (Pulse.active (pulseState s) = true ->
   Config.pin (config s) <> 255 ->
   update_events s now <> [] ->
   update_ret s now = true
   /\ update_events s now
      = [EvTone (Config.pin (config s)) (Pulse.frequency (pulseState s))
           (Pulse.duration (pulseState s))])
  /\ (Pulse.active (pulseState s) = false \/ Config.pin (config s) = 255 ->
      update_ret s now = false)
  /\ (update_ret s now = true ->
      Pulse.active (pulseState s) = true
      /\ Config.pin (config s) <> 255
      /\ Pulse.last (pulseState (update_post s now)) = now).
Proof.
  split; [| split].
  - intros Ha Hp He. apply Z.eqb_neq in Hp.
    unfold update_events, update_ret, update, pulseTick in *.
    rewrite Ha, Hp in *. simpl in *.
    repeat break_if; simpl in *; try congruence.
    rewrite Z.eqb_refl. split; reflexivity.
  - intros H. unfold update_ret, update.
    assert (E : Pulse.active (pulseState s) && negb (Config.pin (config s) =? 255)
                = false).
    { destruct H as [H | H]; rewrite H; simpl;
        [ reflexivity | apply andb_false_r ]. }
    rewrite E. destruct (melodyTick (patternTick s now) now). reflexivity.
  - intros H. unfold update_ret, update_post, update in *.
    destruct (Pulse.active (pulseState s)) eqn:Ha; simpl in *.
    + destruct (Config.pin (config s) =? 255) eqn:Hp; simpl in *.
      * destruct (melodyTick (patternTick s now) now). discriminate.
      * apply Z.eqb_neq in Hp. repeat split; try assumption.
        unfold pulseTick in *.
        repeat break_if; simpl in *; now apply Z.eqb_eq.
    + destruct (melodyTick (patternTick s now) now). discriminate.
Qed.

(** The first call of a pulse train returns true, the first call of a
    melody false. *)
Lemma update_return_reports_pulse_tones_witness :
  update_ret (pulse configured 3 1000 50 20) 5 = true
  /\ update_ret melody_started 5 = false
  /\ Pulse.last (pulseState (update_post (pulse configured 3 1000 50 20) 5)) = 5.
Proof.
  split; [| split].
  - refine (proj1 (proj1 (update_return_reports_pulse_tones
                            (pulse configured 3 1000 50 20) 5) _ _ _)).
    + reflexivity.
    + vm_compute; discriminate.
    + vm_compute; discriminate.
  - apply (proj1 (proj2 (update_return_reports_pulse_tones melody_started 5))).
    left. reflexivity.
  - apply (proj2 (proj2 (update_return_reports_pulse_tones
                           (pulse configured 3 1000 50 20) 5))).
    vm_compute; reflexivity.
Defined.

(** ** Cancellation *)

Lemma stopPattern_spec (s : Statics) :
  isPatternActive (fst (stopPattern s)) = false
  /\ Pulse.active (pulseState (fst (stopPattern s))) = false
  /\ snd (stopPattern s) = [].
Proof. repeat split. Qed.

Lemma stopMelody_spec (s : Statics) :
  isMelodyActive (fst (stopMelody s)) = false
  /\ (Config.pin (config s) <> 255 ->
      snd (stopMelody s) = [EvNoTone (Config.pin (config s))]).
Proof.
  split; [reflexivity |].
  intros H. apply Z.eqb_neq in H. unfold stopMelody. simpl. now rewrite H.
Qed.

(** C5, at the failing input: a pattern on pin 9 has just fired a 50 ms
    tone.  [stopPattern()] clears the pattern's and the pulse train's
    active flags but makes no call to the pin driver, so nothing silences
    the tone; [stopMelody()] on the same statics does call [noTone(9)]. *)
Theorem stopPattern_does_not_silence_pin :
  snd (run pattern_started [1]) = [(1, EvTone 9 1000 50)]
  /\ isPatternActive (fst (stopPattern pattern_sounding)) = false
  /\ Pulse.active (pulseState (fst (stopPattern pattern_sounding))) = false
  /\ snd (stopPattern pattern_sounding) = []
  /\ snd (stopMelody pattern_sounding) = [EvNoTone 9].
Proof. repeat split. Qed.

(** ** The pulse train under an irregular call cadence *)

Lemma run_app (a b : list Z) :
  forall s,
    run s (a ++ b)
    = (fst (run (fst (run s a)) b), snd (run s a) ++ snd (run (fst (run s a)) b)).
Proof.
  induction a as [| now rest IH]; intros s; simpl.
  - now destruct (run s b).
  - destruct (update s now) as [[r s1] evs].
    rewrite IH. destruct (run s1 rest) as [s2 log2]. simpl.
    destruct (run s2 b) as [s3 log3]. simpl. now rewrite app_assoc.
Qed.

Lemma run_cons (s : Statics) (now : Z) (rest : list Z) :
  run s (now :: rest)
  = (fst (run (update_post s now) rest),
     map (pair now) (update_events s now) ++ snd (run (update_post s now) rest)).
Proof.
  simpl. unfold update_post, update_events.
  destruct (update s now) as [[r s1] evs]. simpl. now destruct (run s1 rest).
Qed.

(** Nothing is active: [update()] does nothing. *)
Lemma update_idle (s : Statics) (now : Z) :
  Pulse.active (pulseState s) = false ->
  Pattern.active (patternState s) = false ->
  Melody.active (melodyState s) = false ->
  update s now = (false, s, []).
Proof.
  intros Hp Ht Hm. unfold update. rewrite Hp. simpl.
  unfold patternTick. rewrite Ht. simpl.
  unfold melodyTick. rewrite Hm. reflexivity.
Qed.

Lemma run_idle (clock : list Z) (s : Statics) :
  Pulse.active (pulseState s) = false ->
  Pattern.active (patternState s) = false ->
  Melody.active (melodyState s) = false ->
  run s clock = (s, []).
Proof.
  intros Hp Ht Hm. induction clock as [| now rest IH]; [reflexivity |].
  simpl. rewrite (update_idle s now Hp Ht Hm), IH. reflexivity.
Qed.

(** A tone of the pulse train is due: the sentinel 0 in [last], or enough
    time elapsed since the tone before. *)
Lemma update_fires (c : Config.t) (n f d i l : Z) (pt : Pattern.t)
    (m : Melody.t) (now : Z) :
  Config.pin c <> 255 -> 0 < n ->
  l = 0 \/ i + d <= u32 (now - l) ->
  update (mkStatics c (Pulse.mk n f d i l true) pt m) now
  = (true, mkStatics c (Pulse.mk (u8 (n - 1)) f d i now true) pt m,
     [EvTone (Config.pin c) f d]).
Proof.
  intros Hpin Hn Hdue. apply Z.eqb_neq in Hpin. apply Z.ltb_lt in Hn.
  unfold update, pulseTick, add16. simpl. rewrite Hpin, Hn. simpl.
  assert (E : (l =? 0) || (i + d <=? u32 (now - l)) = true).
  { destruct Hdue as [-> | H]; [reflexivity |].
    apply Z.leb_le in H. rewrite H. apply orb_true_r. }
  rewrite E. unfold set_pulseState. simpl. now rewrite Z.eqb_refl.
Qed.

(** No tone is due: calls made before the interval is over change nothing. *)
Lemma run_waits (c : Config.t) (n f d i l : Z) (pt : Pattern.t) (m : Melody.t)
    (clock : list Z) :
  Config.pin c <> 255 -> 0 < n -> l <> 0 ->
  Forall (fun t => u32 (t - l) < i + d) clock ->
  run (mkStatics c (Pulse.mk n f d i l true) pt m) clock
  = (mkStatics c (Pulse.mk n f d i l true) pt m, []).
Proof.
  intros Hpin Hn Hl Hall. apply Z.eqb_neq in Hpin, Hl. apply Z.ltb_lt in Hn.
  induction Hall as [| t rest Ht _ IH]; [reflexivity |].
  simpl. unfold update, pulseTick, add16. simpl. rewrite Hpin, Hn, Hl. simpl.
  apply Z.leb_gt in Ht. rewrite Ht. simpl in IH |- *. now rewrite IH.
Qed.

(** All tones fired: the next call retires the train; with no pattern and
    no melody active every later call does nothing. *)
Lemma run_retires (c : Config.t) (f d i l : Z) (pt : Pattern.t) (m : Melody.t)
    (clock : list Z) :
  Config.pin c <> 255 ->
  Pattern.active pt = false -> Melody.active m = false ->
  clock <> [] ->
  run (mkStatics c (Pulse.mk 0 f d i l true) pt m) clock
  = (mkStatics c (Pulse.mk 0 f d i l false) pt m, []).
Proof.
  intros Hpin Hpt Hm Hne. apply Z.eqb_neq in Hpin.
  destruct clock as [| now rest]; [congruence |].
  simpl. unfold update, pulseTick. simpl. rewrite Hpin. simpl. rewrite Hpt.
  unfold set_pulseState, Pulse.set_active. simpl.
  now rewrite run_idle.
Qed.

(** C6 (as the code has it). With a configured pin and neither a pattern
    nor a melody active, [pulse(3, 1000, 50, 20)] followed by [update()]
    calls at arbitrary readings: the first tone fires on the first call
    (reading t1, not the sentinel 0), the second on the first call at
    which at least 70 ms have elapsed since t1 (reading t2, not 0), the
    third on the first call at which at least 70 ms have elapsed since t2;
    each fires exactly once, no other driver call is made, and the call
    after the third tone marks the train inactive. *)
Theorem pulse_3_fires_three_times (s : Statics) (t1 t2 t3 : Z)
    (pre1 pre2 post : list Z) :
  Config.pin (config s) <> 255 ->
  isPatternActive s = false -> isMelodyActive s = false ->
  t1 <> 0 -> t2 <> 0 ->
  Forall (fun t => u32 (t - t1) < 70) pre1 -> 70 <= u32 (t2 - t1) ->
  Forall (fun t => u32 (t - t2) < 70) pre2 -> 70 <= u32 (t3 - t2) ->
  let clock := t1 :: pre1 ++ t2 :: pre2 ++ t3 :: post in
  let tone := EvTone (Config.pin (config s)) 1000 50 in
  snd (run (pulse s 3 1000 50 20) clock) = [(t1, tone); (t2, tone); (t3, tone)]
  /\ Pulse.pulses (pulseState (fst (run (pulse s 3 1000 50 20) clock))) = 0
  /\ (post <> [] ->
      Pulse.active (pulseState (fst (run (pulse s 3 1000 50 20) clock))) = false).
Proof.
  intros Hpin Hpt Hm Ht1 Ht2 Hpre1 Hdue2 Hpre2 Hdue3 clock tone.
  destruct s as [c ps pt m]. unfold isPatternActive, isMelodyActive in *.
  simpl in Hpin, Hpt, Hm.
  assert (Hstart : pulse (mkStatics c ps pt m) 3 1000 50 20
                   = mkStatics c (Pulse.mk 3 1000 50 20 0 true) pt m).
  { unfold pulse. simpl. apply Z.eqb_neq in Hpin. now rewrite Hpin. }
  subst clock tone. rewrite Hstart. simpl config.
  rewrite run_cons. unfold update_post, update_events.
  rewrite (update_fires c 3 1000 50 20 0 pt m t1 Hpin ltac:(lia) (or_introl eq_refl)).
  cbn [fst snd map]. change (u8 (3 - 1)) with 2.
  rewrite run_app.
  rewrite (run_waits c 2 1000 50 20 t1 pt m pre1 Hpin ltac:(lia) Ht1 Hpre1).
  cbn [fst snd]. rewrite run_cons. unfold update_post, update_events.
  rewrite (update_fires c 2 1000 50 20 t1 pt m t2 Hpin ltac:(lia) (or_intror Hdue2)).
  cbn [fst snd map]. change (u8 (2 - 1)) with 1.
  rewrite run_app.
  rewrite (run_waits c 1 1000 50 20 t2 pt m pre2 Hpin ltac:(lia) Ht2 Hpre2).
  cbn [fst snd]. rewrite run_cons. unfold update_post, update_events.
  rewrite (update_fires c 1 1000 50 20 t2 pt m t3 Hpin ltac:(lia) (or_intror Hdue3)).
  cbn [fst snd map]. change (u8 (1 - 1)) with 0.
  destruct post as [| p rest].
  - simpl. repeat split. congruence.
  - rewrite (run_retires c 1000 50 20 t3 pt m (p :: rest) Hpin Hpt Hm ltac:(discriminate)).
    simpl. repeat split.
Qed.

(** The scenario of the specification moved off the sentinel: calls at
    1, 30, 71, 100, 141, 142 and 500. *)
Lemma pulse_3_fires_three_times_witness :
  snd (run (pulse configured 3 1000 50 20) [1; 30; 71; 100; 141; 142; 500])
  = [(1, EvTone 9 1000 50); (71, EvTone 9 1000 50); (141, EvTone 9 1000 50)]
  /\ Pulse.active
       (pulseState
          (fst (run (pulse configured 3 1000 50 20) [1; 30; 71; 100; 141; 142; 500])))
     = false.
Proof.
  assert (H := pulse_3_fires_three_times configured 1 71 141 [30] [100] [142; 500]).
  simpl in H.
  assert (H1 : 9 <> 255) by lia.
  assert (H2 : 1 <> 0) by lia.
  assert (H3 : 71 <> 0) by lia.
  assert (H4 : Forall (fun t => u32 (t - 1) < 70) [30])
    by (repeat constructor).
  assert (H5 : 70 <= u32 (71 - 1)) by (vm_compute; discriminate).
  assert (H6 : Forall (fun t => u32 (t - 71) < 70) [100])
    by (repeat constructor).
  assert (H7 : 70 <= u32 (141 - 71)) by (vm_compute; discriminate).
  destruct (H H1 eq_refl eq_refl H2 H3 H4 H5 H6 H7) as (Hlog & _ & Hact).
  split; [exact Hlog | apply Hact; discriminate].
Defined.

(** C6, refuted: after [pulse(3, 1000, 50, 20)] on pin 9 the first
    [update()] call reads the clock at 0 and fires tone 1; it stores 0 as
    the last-fire time, which is also the value meaning that no tone has
    fired yet, so the call at 1 fires tone 2 at once, long before 70.
    And the interval runs from the reading at which the tone before
    actually fired: with calls at 0, 100, 150 and 170 the second tone
    fires at 100 and the third at 170, not on the call at 150. *)
Lemma pulse_3_from_clock_zero :
  snd (run (pulse configured 3 1000 50 20) [0; 1; 2; 70; 140; 141])
  = [(0, EvTone 9 1000 50); (1, EvTone 9 1000 50); (140, EvTone 9 1000 50)]
  /\ snd (run (pulse configured 3 1000 50 20) [0; 100; 150; 170; 180])
     = [(0, EvTone 9 1000 50); (100, EvTone 9 1000 50); (170, EvTone 9 1000 50)].
Proof. split; vm_compute; reflexivity. Qed.

(** The four readings of the specification's scenario taken literally:
    at 0, 70, 140 and 141 the three tones do fire at 0, 70 and 140, the
    second one because the stored 0 reads as not yet fired. *)
Example pulse_3_at_0_70_140_141 :
  run (pulse configured 3 1000 50 20) [0; 70; 140; 141]
  = (mkStatics (Config.of_pin 9) (Pulse.mk 0 1000 50 20 140 false)
       Pattern.default Melody.default,
     [(0, EvTone 9 1000 50); (70, EvTone 9 1000 50); (140, EvTone 9 1000 50)]).
Proof. vm_compute. reflexivity. Qed.

(** ** Melody steps *)


Lemma no_tone_of_events (now pin : Z) (evs : list event) :
  evs = [] \/ evs = [EvNoTone pin] -> no_tone (map (pair now) evs).
Proof.
  intros [-> | ->]; unfold no_tone; simpl; repeat constructor.
Qed.

Lemma no_tone_app (a b : list (Z * event)) :
  no_tone a -> no_tone b -> no_tone (a ++ b).
Proof. unfold no_tone. intros. apply Forall_app. now split. Qed.

(** ** The melody under a pulse train or a pattern *)

Lemma advancePattern_frame (s : Statics) :
  config (snd (advancePattern s)) = config s
  /\ melodyState (snd (advancePattern s)) = melodyState s.
Proof. unfold advancePattern. repeat break_if; split; reflexivity. Qed.

Lemma patternTick_frame (s : Statics) (now : Z) :
  config (patternTick s now) = config s
  /\ melodyState (patternTick s now) = melodyState s.
Proof.
  unfold patternTick.
  repeat break_if; try (split; reflexivity);
    match goal with
    | |- context [advancePattern ?x] =>
        destruct (advancePattern_frame x) as [-> ->]; split; reflexivity
    end.
Qed.

Lemma melodyTick_frame (s : Statics) (now : Z) :
  config (fst (melodyTick s now)) = config s
  /\ pulseState (fst (melodyTick s now)) = pulseState s
  /\ patternState (fst (melodyTick s now)) = patternState s.
Proof. unfold melodyTick. repeat break_if; repeat split. Qed.

Lemma pulseTick_frame (s : Statics) (now : Z) :
  config (snd (fst (pulseTick s now))) = config s
  /\ melodyState (snd (fst (pulseTick s now))) = melodyState s.
Proof. unfold pulseTick. repeat break_if; split; reflexivity. Qed.

Lemma update_config (s : Statics) (now : Z) :
  config (update_post s now) = config s.
Proof.
  unfold update_post, update. break_if.
  - apply pulseTick_frame.
  - destruct (melodyTick (patternTick s now) now) as [s2 evs] eqn:E. simpl.
    change s2 with (fst (s2, evs)). rewrite <- E.
    destruct (melodyTick_frame (patternTick s now) now) as [-> _].
    apply patternTick_frame.
Qed.

(** One held-back call leaves every field of the melody as it was. *)
Lemma paused_update (s : Statics) (now : Z) :
  paused s now -> melodyState (update_post s now) = melodyState s.
Proof.
  unfold paused, update_post, update. intros H.
  destruct (Pulse.active (pulseState s) && negb (Config.pin (config s) =? 255))
    eqn:Hbranch.
  - apply pulseTick_frame.
  - destruct (melodyTick (patternTick s now) now) as [s2 evs] eqn:E.
    simpl in *.
    destruct (patternTick_frame s now) as [Hc Hm].
    destruct (melodyTick_frame (patternTick s now) now) as (_ & Hps & Hpt).
    rewrite E in Hps, Hpt. simpl in Hps, Hpt.
    assert (Hs2 : s2 = fst (melodyTick (patternTick s now) now)) by now rewrite E.
    rewrite Hs2, <- Hm. unfold melodyTick. rewrite Hc.
    destruct H as [H | H].
    + rewrite H in Hbranch. simpl in Hbranch. apply negb_false_iff in Hbranch.
      rewrite Hbranch. simpl. rewrite andb_false_r. reflexivity.
    + rewrite Hpt in H. rewrite H. simpl. rewrite !andb_false_r. reflexivity.
Qed.

Lemma paused_run (clock : list Z) :
  forall s, paused_during s clock ->
            melodyState (fst (run s clock)) = melodyState s
            /\ config (fst (run s clock)) = config s.
Proof.
  induction clock as [| now rest IH]; intros s H; [split; reflexivity |].
  destruct H as [Hnow Hrest]. rewrite run_cons. cbn [fst].
  destruct (IH _ Hrest) as [-> ->].
  split; [now apply paused_update | apply update_config].
Qed.

(** With the pulse train and the pattern inactive, a call acts on the
    melody alone, and what it does depends on the configuration, the
    melody state and the reading only. *)
Lemma update_melody_only (a : Statics) (now : Z) :
  Pulse.active (pulseState a) = false ->
  Pattern.active (patternState a) = false ->
  update a now = (false, fst (melodyTick a now), snd (melodyTick a now)).
Proof.
  intros Hp Hpt. unfold update. rewrite Hp. simpl.
  unfold patternTick. rewrite Hpt. simpl.
  now destruct (melodyTick a now).
Qed.

Lemma melodyTick_same (a b : Statics) (now : Z) :
  config a = config b -> melodyState a = melodyState b ->
  Pulse.active (pulseState a) = false -> Pattern.active (patternState a) = false ->
  Pulse.active (pulseState b) = false -> Pattern.active (patternState b) = false ->
  melodyState (fst (melodyTick a now)) = melodyState (fst (melodyTick b now))
  /\ snd (melodyTick a now) = snd (melodyTick b now).
Proof.
  intros Hc Hm Hpa Hta Hpb Htb. unfold melodyTick.
  rewrite Hc, Hm, Hpa, Hta, Hpb, Htb.
  repeat break_if; split; simpl; congruence.
Qed.

Lemma resumed_run (clock : list Z) :
  forall a b,
    config a = config b -> melodyState a = melodyState b ->
    Pulse.active (pulseState a) = false -> Pattern.active (patternState a) = false ->
    Pulse.active (pulseState b) = false -> Pattern.active (patternState b) = false ->
    snd (run a clock) = snd (run b clock)
    /\ melodyState (fst (run a clock)) = melodyState (fst (run b clock)).
Proof.
  induction clock as [| now rest IH]; intros a b Hc Hm Hpa Hta Hpb Htb.
  - split; [reflexivity | assumption].
  - rewrite !run_cons. cbn [fst snd]. unfold update_post, update_events.
    rewrite (update_melody_only a now Hpa Hta), (update_melody_only b now Hpb Htb).
    cbn [fst snd].
    destruct (melodyTick_same a b now Hc Hm Hpa Hta Hpb Htb) as [Hm' Hev].
    destruct (melodyTick_frame a now) as (Hca & Hpsa & Hpta).
    destruct (melodyTick_frame b now) as (Hcb & Hpsb & Hptb).
    destruct (IH (fst (melodyTick a now)) (fst (melodyTick b now))) as [Hlog Hfin];
      try congruence.
    split; [now rewrite Hev, Hlog | assumption].
Qed.

(** C4, refuted: a one-step melody is active when a one-entry pattern is
    started on pin 9.  Three calls later the pattern is active, waiting
    out its delay.  The call at 500 finds the delay over, the pattern ends
    itself in that call, and the same call already begins the melody's
    step: the melody state changes (and a tone fires) in a call that the
    pattern entered active.
    Nor is elapsed time frozen while the melody is held back: a step of
    100 + 50 ms begun at 5 and held back by a pulse train from the call at
    10 to the call at 90 is over with the calls at 200 and 201, the time
    held back counting in full. *)
Lemma melody_runs_in_call_that_ends_pattern :
  (isPatternActive pattern_last_wait = true
   /\ melodyState pattern_last_wait = melodyState melody_started
   /\ melodyState (update_post pattern_last_wait 500)
      = Melody.mk demo_tones 1 0 true false 500 true
   /\ melodyState (update_post pattern_last_wait 500) <> melodyState pattern_last_wait
   /\ update_events pattern_last_wait 500 = [EvTone 9 440 100])
  /\ (melodyState (update_post melody_started 5)
      = Melody.mk demo_tones 1 0 true false 5 true
      /\ run (pulse (update_post melody_started 5) 2 1000 50 20)
             [10; 20; 80; 90; 200; 201]
         = (mkStatics (Config.of_pin 9) (Pulse.mk 0 1000 50 20 80 false)
              Pattern.default (Melody.mk demo_tones 1 1 true false 0 false),
            [(10, EvTone 9 1000 50); (80, EvTone 9 1000 50); (200, EvNoTone 9)])).
Proof.
  repeat split; try (vm_compute; reflexivity).
  vm_compute. discriminate.
Qed.

(** The pattern logic of a call loads a pulse train only when it leaves
    the pattern active. *)
Lemma patternTick_ends (s : Statics) (now : Z) :
  Pattern.active (patternState (patternTick s now)) = false ->
  pulseState (patternTick s now) = pulseState s.
Proof.
  destruct s as [c ps [pl cnt cur act rp pd lpe wfd] m].
  unfold patternTick, advancePattern.
  cbn [patternState pulseState Pattern.active Pattern.waitingForDelay
       Pattern.lastPulseEnd Pattern.pulseDelay Pattern.set_waitingForDelay
       set_patternState].
  destruct act; cbn [andb negb orb]; [| intros _; reflexivity].
  repeat break_if; cbn; intros H; try reflexivity; discriminate.
Qed.

(** A call that the pulse train enters inactive and the pattern leaves
    inactive acts on the melody as if neither had been there. *)
Lemma update_resumes (a b : Statics) (t : Z) :
  config a = config b -> melodyState a = melodyState b ->
  Pulse.active (pulseState a) = false ->
  Pattern.active (patternState (update_post a t)) = false ->
  Pulse.active (pulseState b) = false -> Pattern.active (patternState b) = false ->
  update_events a t = update_events b t
  /\ config (update_post a t) = config (update_post b t)
  /\ melodyState (update_post a t) = melodyState (update_post b t)
  /\ Pulse.active (pulseState (update_post a t)) = false
  /\ Pulse.active (pulseState (update_post b t)) = false
  /\ Pattern.active (patternState (update_post b t)) = false.
Proof.
  intros Hc Hm Hpa Hta Hpb Htb.
  unfold update_post, update_events in *.
  rewrite (update_melody_only b t Hpb Htb). cbn [fst snd].
  unfold update in *. rewrite Hpa in *. cbn [andb] in *.
  destruct (melodyTick_frame (patternTick a t) t) as (Fc & Fps & Fpt).
  destruct (melodyTick_frame b t) as (Gc & Gps & Gpt).
  destruct (patternTick_frame a t) as (Pc & Pm).
  destruct (melodyTick (patternTick a t) t) as [s2 evs] eqn:E.
  cbn [fst snd] in *.
  rewrite Fpt in Hta.
  pose proof (patternTick_ends a t Hta) as Pps.
  destruct (melodyTick_same (patternTick a t) b t) as [Hm' Hev];
    try congruence.
  rewrite E in Hm', Hev. cbn [fst snd] in Hm', Hev.
  repeat split; congruence.
Qed.

(** C4 (as the code has it). Over any run of [update()] calls in each of
    which the pulse train is active on entry or the pattern is still
    active on exit, every field of the melody state is left unchanged.
    After that run the melody goes on from the unchanged state, as soon as
    a call finds the pulse train inactive and leaves the pattern inactive
    (the call in which a pattern ends itself is such a call): whatever
    readings that call and the later ones see, they make the driver calls
    and leave the melody state that the same calls would have made and
    left had the pulse train and the pattern not been active in the first
    place.  (Elapsed time is taken from the stored step start, so the time
    spent held back counts.) *)
Theorem melody_paused_then_resumed (s : Statics) (clock later : list Z) :
  paused_during s clock ->
  melodyState (fst (run s clock)) = melodyState s
  /\ (Pulse.active (pulseState (fst (run s clock))) = false ->
      Pattern.active (patternState (fst (run s clock))) = false ->
      snd (run (fst (run s clock)) later) = snd (run (quiesce s) later)
      /\ melodyState (fst (run (fst (run s clock)) later))
         = melodyState (fst (run (quiesce s) later)))
  /\ (forall t,
        Pulse.active (pulseState (fst (run s clock))) = false ->
        Pattern.active (patternState (update_post (fst (run s clock)) t))
        = false ->
        snd (run (fst (run s clock)) (t :: later))
        = snd (run (quiesce s) (t :: later))
        /\ melodyState (fst (run (fst (run s clock)) (t :: later)))
           = melodyState (fst (run (quiesce s) (t :: later)))).
Proof.
  intros H. destruct (paused_run clock s H) as [Hm Hc].
  split; [assumption |]. split.
  - intros Hp Hpt. apply resumed_run; try assumption; reflexivity.
  - intros t Hp Hpt.
    destruct (update_resumes (fst (run s clock)) (quiesce s) t)
      as (Hev & Hc' & Hm' & Hpa & Hpb & Htb); try assumption; try reflexivity.
    rewrite !run_cons. cbn [fst snd].
    destruct (resumed_run later (update_post (fst (run s clock)) t)
                (update_post (quiesce s) t)) as [Hlog Hfin]; try assumption.
    split; [now rewrite Hev, Hlog | assumption].
Qed.

(** A one-step melody is held back by a one-entry pattern over the calls
    at 1, 71 and 141; the call at 500 ends the pattern, and from that call
    on the melody plays as if the pattern had never been there. *)
Lemma melody_paused_then_resumed_witness :
  melodyState (fst (run melody_then_pattern [1; 71; 141]))
  = melodyState melody_then_pattern
  /\ snd (run (fst (run melody_then_pattern [1; 71; 141])) [500; 601; 700])
     = [(500, EvTone 9 440 100); (601, EvNoTone 9)].
Proof.
  assert (H : paused_during melody_then_pattern [1; 71; 141]).
  { simpl. split; [left | split; [left | split; [right | exact I]]];
      vm_compute; reflexivity. }
  destruct (melody_paused_then_resumed _ _ [601; 700] H) as (Hm & _ & Hres).
  split.
  - exact Hm.
  - rewrite (proj1 (Hres 500 eq_refl eq_refl)). vm_compute. reflexivity.
Defined.

(** The same for a bare pulse train: a melody step begun at 5 is held
    back by a pulse train of two from the call at 10 to the call at 90 and
    goes on at 100 and later. *)
Lemma melody_resumes_after_pulse_train :
  melodyState (fst (run (pulse (update_post melody_started 5) 2 1000 50 20)
                        [10; 20; 80; 90]))
  = Melody.mk demo_tones 1 0 true false 5 true
  /\ snd (run (fst (run (pulse (update_post melody_started 5) 2 1000 50 20)
                        [10; 20; 80; 90])) [100; 105; 155])
     = [(105, EvNoTone 9)].
Proof. split; vm_compute; reflexivity. Qed.

(** ** Elapsed time and clock wrap-around *)

Lemma u32_sub_shift (a b k : Z) : u32 (u32 (a + k) - u32 (b + k)) = u32 (a - b).
Proof.
  unfold u32. rewrite <- Zminus_mod. f_equal. lia.
Qed.

Lemma u32_add_shift (a d k : Z) : u32 (u32 (a + k) + d) = u32 (u32 (a + d) + k).
Proof.
  unfold u32. rewrite !Zplus_mod_idemp_l. f_equal. lia.
Qed.

Lemma u32_shift_eqb (a b k : Z) :
  in_u32 a -> in_u32 b -> (u32 (a + k) =? u32 (b + k)) = (a =? b).
Proof.
  unfold in_u32, u32. intros Ha Hb.
  destruct (a =? b) eqn:E.
  - apply Z.eqb_eq in E. subst. apply Z.eqb_refl.
  - apply Z.eqb_neq in E. apply Z.eqb_neq. intros H. apply E.
    change (2 ^ 32) with 4294967296 in *.
    Z.div_mod_to_equations. lia.
Qed.

(** The pattern of [pattern_waiting] waits for its delay of
    10 ms, the tone being over at reading 100.  The call at 200 finds
    [now >= lastPulseEnd] and 100 ms elapsed, and advances the pattern.
    Move the stored timestamp and the reading by the same 2^32 - 150
    ticks, across the wrap of the clock: the stored time is 2^32 - 50, the
    reading 50, the elapsed time [now - lastPulseEnd] is the same 100 ms,
    yet the call does not advance the pattern, because [update()] first
    compares the two absolute timestamps, [now >= lastPulseEnd]. *)
Lemma pattern_wait_compares_timestamps :
  Pattern.lastPulseEnd (patternState pattern_waiting) = 100
  /\ Pattern.current (patternState (update_post pattern_waiting 200)) = 1
  /\ Pattern.lastPulseEnd (patternState (shift_statics (2 ^ 32 - 150) pattern_waiting))
     = 2 ^ 32 - 50
  /\ u32 (200 + (2 ^ 32 - 150)) = 50
  /\ u32 (50 - (2 ^ 32 - 50)) = u32 (200 - 100)
  /\ Pattern.current
       (patternState
          (update_post (shift_statics (2 ^ 32 - 150) pattern_waiting)
             (u32 (200 + (2 ^ 32 - 150))))) = 0.
Proof. repeat split; vm_compute; reflexivity. Qed.

(** The two cases of a sentinel-bearing timestamp under a shift. *)
Lemma shift_ref_cases (k r : Z) :
  (r <> 0 -> u32 (r + k) <> 0) ->
  (r = 0 /\ shift_ref k r = 0)
  \/ ((r =? 0) = false /\ shift_ref k r = u32 (r + k)
      /\ (u32 (r + k) =? 0) = false).
Proof.
  intros H. unfold shift_ref. destruct (r =? 0) eqn:E.
  - left. apply Z.eqb_eq in E. now split.
  - right. apply Z.eqb_neq in E. repeat split. now apply Z.eqb_neq, H.
Qed.

Lemma shift_ref_now (k now : Z) : now <> 0 -> shift_ref k now = u32 (now + k).
Proof. intros H. unfold shift_ref. apply Z.eqb_neq in H. now rewrite H. Qed.

(** [advancePattern] reads no timestamp. *)
Lemma advancePattern_shift (k : Z) (s : Statics) :
  advancePattern (shift_statics k s)
  = (fst (advancePattern s), shift_statics k (snd (advancePattern s))).
Proof.
  destruct s as [c ps pt m]. unfold advancePattern, shift_statics. simpl.
  repeat break_if; reflexivity.
Qed.

Lemma pulseTick_shift (s : Statics) (now k : Z) :
  in_u32 now -> in_u32 (Pulse.last (pulseState s)) ->
  now <> 0 -> u32 (now + k) <> 0 ->
  (Pulse.last (pulseState s) <> 0 -> u32 (Pulse.last (pulseState s) + k) <> 0) ->
  pulseTick (shift_statics k s) (u32 (now + k))
  = (fst (fst (pulseTick s now)), shift_statics k (snd (fst (pulseTick s now))),
     snd (pulseTick s now)).
Proof.
  intros Hnow Hlast Hn0 Hn0' Hl.
  destruct s as [c [pn pf pd pi pl pa] pt m]. simpl in *.
  pose proof (shift_ref_now k now Hn0) as Hsn.
  apply Z.eqb_neq in Hn0, Hn0'.
  unfold pulseTick, shift_statics, add16. simpl.
  destruct (shift_ref_cases k pl Hl) as [[-> Hs] | (Hz & Hs & Hz')];
    rewrite ?Hs, ?Hz, ?Hz', ?u32_sub_shift; simpl.
  - destruct (0 <? pn); simpl.
    + rewrite !Z.eqb_refl, Hsn. reflexivity.
    + change (match u32 (now + k) with 0 => true | _ => false end)
        with (0 =? u32 (now + k)).
      change (match now with 0 => true | _ => false end) with (0 =? now).
      rewrite (Z.eqb_sym 0 (u32 (now + k))), Hn0', (Z.eqb_sym 0 now), Hn0.
      destruct (Pattern.active pt); simpl; unfold shift_statics; simpl;
        rewrite ?(u32_add_shift now pd k); reflexivity.
  - rewrite (u32_shift_eqb pl now k Hlast Hnow).
    destruct (0 <? pn); simpl.
    + destruct (pi + pd <=? u32 (now - pl)); simpl.
      * rewrite !Z.eqb_refl, Hsn. reflexivity.
      * unfold shift_statics. simpl. rewrite Hs. reflexivity.
    + destruct (Pattern.active pt); simpl; unfold shift_statics; simpl;
        rewrite ?Hs; rewrite ?(u32_add_shift now pd k); reflexivity.
Qed.

Lemma patternTick_shift (s : Statics) (now k : Z) :
  (Pattern.lastPulseEnd (patternState s) <=? now)
  = (u32 (Pattern.lastPulseEnd (patternState s) + k) <=? u32 (now + k)) ->
  patternTick (shift_statics k s) (u32 (now + k))
  = shift_statics k (patternTick s now).
Proof.
  intros Hord. unfold patternTick.
  change (patternState (shift_statics k s))
    with (Pattern.set_lastPulseEnd (u32 (Pattern.lastPulseEnd (patternState s) + k))
            (patternState s)).
  cbn [Pattern.active Pattern.waitingForDelay Pattern.lastPulseEnd
       Pattern.pulseDelay Pattern.set_lastPulseEnd].
  rewrite <- Hord, u32_sub_shift.
  change (Pulse.active (pulseState (shift_statics k s)))
    with (Pulse.active (pulseState s)).
  repeat break_if; try reflexivity.
  - match goal with
    | |- snd (advancePattern ?x) = _ =>
        change x with (shift_statics k
          (set_patternState (Pattern.set_waitingForDelay false (patternState s)) s))
    end.
    rewrite advancePattern_shift. reflexivity.
  - rewrite advancePattern_shift. reflexivity.
Qed.

Lemma melodyTick_shift (s : Statics) (now k : Z) :
  now <> 0 ->
  (Melody.toneStart (melodyState s) <> 0 ->
   u32 (Melody.toneStart (melodyState s) + k) <> 0) ->
  melodyTick (shift_statics k s) (u32 (now + k))
  = (shift_statics k (fst (melodyTick s now)), snd (melodyTick s now)).
Proof.
  intros Hn0 Hts.
  destruct s as [c ps pt [mt mc mcur ma mr mts mp]]. simpl in *.
  pose proof (shift_ref_now k now Hn0) as Hsn.
  unfold melodyTick, shift_statics, add16. simpl.
  destruct (shift_ref_cases k mts Hts) as [[-> Hs] | (Hz & Hs & Hz')];
    rewrite ?Hs, ?Hz, ?Hz', ?u32_sub_shift; simpl.
  - repeat break_if; simpl; rewrite ?Hsn; reflexivity.
  - repeat break_if; simpl; rewrite ?Hs; reflexivity.
Qed.


Lemma update_shift (s : Statics) (now k : Z) :
  in_u32 now -> in_u32 (Pulse.last (pulseState s)) ->
  now <> 0 -> u32 (now + k) <> 0 ->
  (Pulse.last (pulseState s) <> 0 -> u32 (Pulse.last (pulseState s) + k) <> 0) ->
  (Melody.toneStart (melodyState s) <> 0 ->
   u32 (Melody.toneStart (melodyState s) + k) <> 0) ->
  (Pattern.lastPulseEnd (patternState s) <=? now)
  = (u32 (Pattern.lastPulseEnd (patternState s) + k) <=? u32 (now + k)) ->
  update (shift_statics k s) (u32 (now + k))
  = (update_ret s now, shift_statics k (update_post s now), update_events s now).
Proof.
  intros Hnow Hlast Hn0 Hn0' Hl Hts Hord.
  unfold update_ret, update_post, update_events, update.
  change (Pulse.active (pulseState (shift_statics k s)))
    with (Pulse.active (pulseState s)).
  change (config (shift_statics k s)) with (config s).
  destruct (Pulse.active (pulseState s) && negb (Config.pin (config s) =? 255)).
  - rewrite pulseTick_shift by assumption.
    destruct (pulseTick s now) as [[r s1] evs]. reflexivity.
  - rewrite patternTick_shift by assumption.
    rewrite melodyTick_shift.
    + destruct (melodyTick (patternTick s now) now) as [s2 evs]. reflexivity.
    + assumption.
    + destruct (patternTick_frame s now) as [_ ->]. assumption.
Qed.

(** The test that lets the pulse train fire. *)
Lemma pulse_decision (s : Statics) (now : Z) :
  Pulse.active (pulseState s) = true -> Config.pin (config s) <> 255 ->
  0 < Pulse.pulses (pulseState s) ->
  (update_events s now <> [] <->
   Pulse.last (pulseState s) = 0
   \/ Pulse.interval (pulseState s) + Pulse.duration (pulseState s)
      <= u32 (now - Pulse.last (pulseState s))).
Proof.
  intros Ha Hpin Hn. apply Z.eqb_neq in Hpin. apply Z.ltb_lt in Hn.
  unfold update_events, update, pulseTick, add16. rewrite Ha, Hpin, Hn. simpl.
  destruct (Pulse.last (pulseState s) =? 0) eqn:E0; simpl.
  - apply Z.eqb_eq in E0. split; [now left | discriminate].
  - apply Z.eqb_neq in E0.
    destruct (Pulse.interval (pulseState s) + Pulse.duration (pulseState s)
              <=? u32 (now - Pulse.last (pulseState s))) eqn:E; simpl.
    + apply Z.leb_le in E. split; [now right | discriminate].
    + apply Z.leb_gt in E. split; [congruence | intros [H | H]; [congruence | lia]].
Qed.

(** The test that ends the pattern's wait between two entries. *)
Lemma pattern_decision (s : Statics) (now : Z) :
  Pulse.active (pulseState s) = false ->
  Pattern.active (patternState s) = true ->
  Pattern.waitingForDelay (patternState s) = true ->
  (Pattern.waitingForDelay (patternState (update_post s now)) = false <->
   Pattern.lastPulseEnd (patternState s) <= now
   /\ Pattern.pulseDelay (patternState s)
      <= u32 (now - Pattern.lastPulseEnd (patternState s))).
Proof.
  intros Hp Ha Hw. unfold update_post, update. rewrite Hp. simpl.
  destruct (melodyTick_frame (patternTick s now) now) as (_ & _ & Hpt).
  destruct (melodyTick (patternTick s now) now) as [s2 evs]. simpl in *.
  rewrite Hpt. unfold patternTick. rewrite Ha, Hw. simpl.
  destruct (Pattern.lastPulseEnd (patternState s) <=? now) eqn:E1.
  - apply Z.leb_le in E1.
    destruct (Pattern.pulseDelay (patternState s)
              <=? u32 (now - Pattern.lastPulseEnd (patternState s))) eqn:E2.
    + apply Z.leb_le in E2. split; [now split |]. intros _.
      unfold advancePattern. simpl. repeat break_if; reflexivity.
    + apply Z.leb_gt in E2. rewrite Hw. split; [discriminate | lia].
  - apply Z.leb_gt in E1. rewrite Hw. split; [discriminate | lia].
Qed.

(** The two tests of a melody step that has begun. *)
Lemma melody_decision (s : Statics) (now : Z) :
  Melody.active (melodyState s) = true -> Config.pin (config s) <> 255 ->
  Pulse.active (pulseState s) = false ->
  Pattern.active (patternState s) = false ->
  Melody.current (melodyState s) < Melody.count (melodyState s) ->
  Melody.toneStart (melodyState s) <> 0 ->
  let tn := tone_at (Melody.tones (melodyState s)) (Melody.current (melodyState s)) in
  let elapsed := u32 (now - Melody.toneStart (melodyState s)) in
  (Melody.playingTone (melodyState s) = true ->
   (Melody.playingTone (melodyState (update_post s now)) = false
    <-> Tone.duration tn <= elapsed))
  /\ (Melody.playingTone (melodyState s) = false ->
      (Melody.toneStart (melodyState (update_post s now)) = 0
       <-> Tone.duration tn + Tone.rest tn <= elapsed)).
Proof.
  intros Ha Hpin Hp Hpt Hcur Hts tn elapsed.
  apply Z.eqb_neq in Hpin, Hts. apply Z.ltb_lt in Hcur.
  unfold update_post. rewrite (update_melody_only s now Hp Hpt). cbn [fst snd].
  unfold melodyTick, add16. rewrite Ha, Hpin, Hp, Hpt, Hcur, Hts. simpl.
  fold tn. fold elapsed. split; intros Hplay; rewrite Hplay.
  - destruct (Tone.duration tn <=? elapsed) eqn:E; simpl.
    + apply Z.leb_le in E. split; [intros _; exact E | reflexivity].
    + apply Z.leb_gt in E. rewrite Hplay. split; [discriminate | lia].
  - destruct (Tone.duration tn + Tone.rest tn <=? elapsed) eqn:E; simpl.
    + apply Z.leb_le in E. split; [intros _; exact E | reflexivity].
    + apply Z.leb_gt in E. apply Z.eqb_neq in Hts. split; [congruence | lia].
Qed.

(** The elapsed-time decisions of [update] (32-bit [int]), one by one.
    The pulse train and the melody decide on
    [(now - reference) mod 2^32 >= threshold], each behind a test of the
    reference against the sentinel 0; the pattern's wait decides on the
    same subtraction, but behind the direct comparison
    [now >= lastPulseEnd] of two absolute timestamps.  So an [update()]
    call returns the same value, makes the same driver calls and leaves
    the same (shifted) statics when the reading and every stored timestamp
    are moved by the same offset on the 32-bit clock, wrap-around
    included, provided the reading is not 0, the move maps neither the
    reading nor a live reference to the sentinel 0, and it keeps the
    outcome of [now >= lastPulseEnd]. *)
Theorem elapsed_time_decisions (s : Statics) (now k : Z) :
  (Pulse.active (pulseState s) = true -> Config.pin (config s) <> 255 ->
   0 < Pulse.pulses (pulseState s) ->
   (update_events s now <> [] <->
    Pulse.last (pulseState s) = 0
    \/ Pulse.interval (pulseState s) + Pulse.duration (pulseState s)
       <= u32 (now - Pulse.last (pulseState s))))
  /\ (Pulse.active (pulseState s) = false ->
      Pattern.active (patternState s) = true ->
      Pattern.waitingForDelay (patternState s) = true ->
      (Pattern.waitingForDelay (patternState (update_post s now)) = false <->
       Pattern.lastPulseEnd (patternState s) <= now
       /\ Pattern.pulseDelay (patternState s)
          <= u32 (now - Pattern.lastPulseEnd (patternState s))))
  /\ (Melody.active (melodyState s) = true -> Config.pin (config s) <> 255 ->
      Pulse.active (pulseState s) = false ->
      Pattern.active (patternState s) = false ->
      Melody.current (melodyState s) < Melody.count (melodyState s) ->
      Melody.toneStart (melodyState s) <> 0 ->
      let tn := tone_at (Melody.tones (melodyState s))
                  (Melody.current (melodyState s)) in
      let elapsed := u32 (now - Melody.toneStart (melodyState s)) in
      (Melody.playingTone (melodyState s) = true ->
       (Melody.playingTone (melodyState (update_post s now)) = false
        <-> Tone.duration tn <= elapsed))
      /\ (Melody.playingTone (melodyState s) = false ->
          (Melody.toneStart (melodyState (update_post s now)) = 0
           <-> Tone.duration tn + Tone.rest tn <= elapsed)))
  /\ (in_u32 now -> in_u32 (Pulse.last (pulseState s)) ->
      now <> 0 -> u32 (now + k) <> 0 ->
      (Pulse.last (pulseState s) <> 0 ->
       u32 (Pulse.last (pulseState s) + k) <> 0) ->
      (Melody.toneStart (melodyState s) <> 0 ->
       u32 (Melody.toneStart (melodyState s) + k) <> 0) ->
      (Pattern.lastPulseEnd (patternState s) <=? now)
      = (u32 (Pattern.lastPulseEnd (patternState s) + k) <=? u32 (now + k)) ->
      update (shift_statics k s) (u32 (now + k))
      = (update_ret s now, shift_statics k (update_post s now),
         update_events s now)).
Proof.
  split; [| split; [| split]].
  - apply pulse_decision.
  - apply pattern_decision.
  - apply melody_decision.
  - apply update_shift.
Qed.

(** The four parts at work: a pulse train that fired at 5 fires again at
    75; the waiting pattern of [pattern_waiting] ends its wait at 200; a
    melody tone begun at 5 is stopped at 105; and moving [pattern_waiting]
    and the reading 200 by 2^32 - 50 ticks, across the wrap but without
    changing the order of reading and stored time, changes nothing. *)
Lemma elapsed_time_decisions_witness :
  update_events pulse_fired 75 <> []
  /\ Pattern.waitingForDelay (patternState (update_post pattern_waiting 200)) = false
  /\ Melody.playingTone
       (melodyState (update_post (update_post melody_started 5) 105)) = false
  /\ update (shift_statics (2 ^ 32 - 50) pattern_waiting) 150
     = (false, shift_statics (2 ^ 32 - 50) (update_post pattern_waiting 200), []).
Proof.
  split; [| split; [| split]].
  - apply (proj1 (elapsed_time_decisions pulse_fired 75 0)).
    + reflexivity.
    + vm_compute; discriminate.
    + vm_compute; reflexivity.
    + right. vm_compute. discriminate.
  - apply (proj1 (proj2 (elapsed_time_decisions pattern_waiting 200 0)));
      try reflexivity.
    split; vm_compute; discriminate.
  - refine (proj2 (proj1 (proj1 (proj2 (proj2 (elapsed_time_decisions
              (update_post melody_started 5) 105 0))) _ _ _ _ _ _) _) _).
    + reflexivity.
    + vm_compute; discriminate.
    + reflexivity.
    + reflexivity.
    + vm_compute; reflexivity.
    + vm_compute; discriminate.
    + reflexivity.
    + vm_compute; discriminate.
  - change 150 with (u32 (200 + (2 ^ 32 - 50))).
    change (@nil event) with (update_events pattern_waiting 200).
    change false with (update_ret pattern_waiting 200) at 1.
    apply (proj2 (proj2 (proj2 (elapsed_time_decisions pattern_waiting 200
                                  (2 ^ 32 - 50))))).
    + split; vm_compute; [discriminate | reflexivity].
    + split; vm_compute; [discriminate | reflexivity].
    + lia.
    + vm_compute; discriminate.
    + intros _. vm_compute; discriminate.
    + intros _. vm_compute; discriminate.
    + vm_compute; reflexivity.
Defined.

(** ** Concrete instances of the start and wrapper theorems *)

(** A pulse of count 0 and a melody with a null list on statics busy with a
    pattern, and a pattern requested before any pin is configured. *)
Lemma invalid_start_is_noop_witness :
  pulse pattern_sounding 0 1000 50 20 = pattern_sounding
  /\ pattern boot demo_pulses 2 true 300 = boot
  /\ melody pattern_sounding None 3 true = (pattern_sounding, []).
Proof.
  split; [| split].
  - apply (proj1 (invalid_start_is_noop pattern_sounding)). right. reflexivity.
  - apply (proj1 (proj2 (invalid_start_is_noop boot))). left. reflexivity.
  - apply (proj2 (proj2 (invalid_start_is_noop pattern_sounding))).
    right. left. reflexivity.
Defined.

(** [melodyBlocking] asked to repeat a one-step melody returns all the same,
    the repeat flag cleared. *)
Lemma melodyBlocking_ignores_repeat_witness :
  exists s' evs log,
    melodyBlocking configured demo_tones 1 true demo_clock = Some (s', evs, log)
    /\ Melody.repeat (melodyState s') = false.
Proof.
  eexists. eexists. eexists. split; [vm_compute; reflexivity |].
  exact (proj2 (melodyBlocking_ignores_repeat configured demo_tones 1 true demo_clock)
           _ _ _ eq_refl).
Defined.

(** * Further properties of the scheduler *)

(** ** The pulse train in general *)

Lemma run_single (s : Statics) (now : Z) :
  run s [now] = (update_post s now, map (pair now) (update_events s now)).
Proof. rewrite run_cons. simpl. now rewrite app_nil_r. Qed.

(** One call on statics in which only the pulse train can be active: the
    train keeps its parameters, and either nothing is fired or exactly its
    own tone is, the remaining count going down by one. *)
Lemma pulse_only_update (c : Config.t) (n f d i l : Z) (a : bool)
    (pt : Pattern.t) (m : Melody.t) (now : Z) :
  Config.pin c <> 255 -> Pattern.active pt = false -> Melody.active m = false ->
  0 <= n < 256 ->
  exists n' l' a',
    update_post (mkStatics c (Pulse.mk n f d i l a) pt m) now
    = mkStatics c (Pulse.mk n' f d i l' a') pt m
    /\ 0 <= n' < 256
    /\ ((update_events (mkStatics c (Pulse.mk n f d i l a) pt m) now = []
         /\ n' = n /\ l' = l)
        \/ (update_events (mkStatics c (Pulse.mk n f d i l a) pt m) now
            = [EvTone (Config.pin c) f d]
            /\ n' = n - 1 /\ l' = now
            /\ (l = 0 \/ i + d <= u32 (now - l)))).
Proof.
  intros Hpin Hpt Hm Hn.
  destruct a.
  - destruct (Z.ltb_spec 0 n) as [Hpos | Hzero].
    + destruct (Z.eq_dec l 0) as [Hl | Hl].
      * exists (n - 1), now, true.
        unfold update_post, update_events.
        rewrite (update_fires c n f d i l pt m now Hpin Hpos (or_introl Hl)).
        cbn [fst snd]. unfold u8. change (2 ^ 8) with 256.
        rewrite Z.mod_small by lia.
        split; [reflexivity |]. split; [lia |]. right. auto.
      * destruct (Z.leb_spec (i + d) (u32 (now - l))) as [Hdue | Hwait].
        -- exists (n - 1), now, true.
           unfold update_post, update_events.
           rewrite (update_fires c n f d i l pt m now Hpin Hpos (or_intror Hdue)).
           cbn [fst snd]. unfold u8. change (2 ^ 8) with 256.
           rewrite Z.mod_small by lia.
           split; [reflexivity |]. split; [lia |]. right. auto.
        -- exists n, l, true.
           pose proof (run_waits c n f d i l pt m [now] Hpin Hpos Hl
                         ltac:(constructor; [exact Hwait | constructor])) as R.
           rewrite run_single in R.
           split; [exact (f_equal fst R) |]. split; [lia |]. left.
           split; [| auto].
           apply (f_equal snd) in R. cbn [snd] in R.
           now apply map_eq_nil in R.
    + assert (n = 0) by lia. subst n.
      exists 0, l, false.
      pose proof (run_retires c f d i l pt m [now] Hpin Hpt Hm
                    ltac:(discriminate)) as R.
      rewrite run_single in R.
      split; [exact (f_equal fst R) |]. split; [lia |]. left.
      split; [| auto].
      apply (f_equal snd) in R. cbn [snd] in R.
      now apply map_eq_nil in R.
  - exists n, l, false.
    unfold update_post, update_events.
    rewrite update_idle by (simpl; auto). cbn [fst snd].
    split; [reflexivity |]. split; [lia |]. left. auto.
Qed.

Lemma pulse_only_run (c : Config.t) (f d i : Z) (pt : Pattern.t) (m : Melody.t)
    (clock : list Z) :
  Config.pin c <> 255 -> Pattern.active pt = false -> Melody.active m = false ->
  forall n l a,
    0 <= n < 256 ->
    let r := run (mkStatics c (Pulse.mk n f d i l a) pt m) clock in
    Forall (fun e => snd e = EvTone (Config.pin c) f d) (snd r)
    /\ 0 <= Pulse.pulses (pulseState (fst r))
    /\ Z.of_nat (length (snd r)) + Pulse.pulses (pulseState (fst r)) = n
    /\ spaced_from (i + d) l (map fst (snd r)).
Proof.
  intros Hpin Hpt Hm.
  induction clock as [| now rest IH]; intros n l a Hn r.
  - subst r. simpl. repeat split; try constructor; lia.
  - subst r. rewrite run_cons.
    destruct (pulse_only_update c n f d i l a pt m now Hpin Hpt Hm Hn)
      as (n' & l' & a' & Hpost & Hn' & Hev).
    rewrite Hpost. cbn [fst snd].
    destruct (IH n' l' a' Hn') as (Hall & Hge & Hsum & Hsp).
    destruct Hev as [(Hev & -> & ->) | (Hev & -> & -> & Hdue)]; rewrite Hev.
    + cbn [map app]. repeat split; assumption.
    + cbn [map app fst]. split; [| split; [| split]].
      * constructor; [reflexivity | assumption].
      * assumption.
      * cbn [length]. rewrite Nat2Z.inj_succ. lia.
      * cbn [spaced_from]. split; assumption.
Qed.

(** X1. A pulse train never fires more tones than it was asked for: with a
    configured pin and neither a pattern nor a melody active, after
    [pulse(count, f, d, i)] and any sequence of [update()] calls the
    driver calls made are all [tone(pin, f, d)], and their number plus the
    remaining pulse count is [count]. *)
Theorem pulse_train_tone_count (s : Statics) (count f d i : Z) (clock : list Z) :
  Config.pin (config s) <> 255 ->
  isPatternActive s = false -> isMelodyActive s = false ->
  0 < count < 256 ->
  let r := run (pulse s count f d i) clock in
  Forall (fun e => snd e = EvTone (Config.pin (config s)) f d) (snd r)
  /\ 0 <= Pulse.pulses (pulseState (fst r))
  /\ Z.of_nat (length (snd r)) + Pulse.pulses (pulseState (fst r)) = count.
Proof.
  intros Hpin Hpt Hm Hc r. subst r.
  destruct s as [c ps pt m]. unfold isPatternActive, isMelodyActive in *.
  simpl in Hpin, Hpt, Hm.
  assert (Hstart : pulse (mkStatics c ps pt m) count f d i
                   = mkStatics c (Pulse.mk count f d i 0 true) pt m).
  { unfold pulse. simpl. apply Z.eqb_neq in Hpin. rewrite Hpin.
    assert (E : (count =? 0) = false) by (apply Z.eqb_neq; lia).
    now rewrite E. }
  rewrite Hstart. simpl config.
  destruct (pulse_only_run c f d i pt m clock Hpin Hpt Hm count 0 true
              ltac:(lia)) as (H1 & H2 & H3 & _).
  repeat split; assumption.
Qed.

Lemma pulse_train_tone_count_witness :
  Z.of_nat (length (snd (run (pulse configured 5 1000 50 20) demo_clock)))
  + Pulse.pulses (pulseState (fst (run (pulse configured 5 1000 50 20) demo_clock)))
  = 5.
Proof.
  refine (proj2 (proj2 (pulse_train_tone_count configured 5 1000 50 20 demo_clock
                          _ _ _ _))).
  - vm_compute; discriminate.
  - reflexivity.
  - reflexivity.
  - lia.
Defined.

(** ** pulseBlocking on a steady clock *)

Lemma last_cons_default {A : Type} (a : A) (l : list A) (d : A) :
  last (a :: l) d = last l a.
Proof.
  revert a d. induction l as [| b l IH]; intros a d; [reflexivity |].
  change (last (a :: b :: l) d) with (last (b :: l) d).
  now rewrite (IH b d), (IH b a).
Qed.

Lemma spin_pulses_fire (c : Config.t) (f d i : Z) (pt : Pattern.t) (m : Melody.t)
    (more : list Z) (clock : list Z) :
  Config.pin c <> 255 ->
  forall n l,
    Z.of_nat (length clock) = n -> n < 256 ->
    spaced_from (i + d) l clock ->
    spin (fun st => negb (Pulse.pulses (pulseState st) =? 0))
      (mkStatics c (Pulse.mk n f d i l true) pt m) (clock ++ more)
    = Some (mkStatics c (Pulse.mk 0 f d i (last clock l) true) pt m,
            map (fun t => (t, EvTone (Config.pin c) f d)) clock).
Proof.
  intros Hpin. induction clock as [| t rest IH]; intros n l Hlen Hn Hsp.
  - simpl in Hlen. subst n. destruct more; reflexivity.
  - cbn [length] in Hlen. rewrite Nat2Z.inj_succ in Hlen.
    cbn [spaced_from] in Hsp. destruct Hsp as [Hdue Hsp].
    assert (Hpos : 0 < n) by lia.
    assert (Hnz : (n =? 0) = false) by (apply Z.eqb_neq; lia).
    cbn [app spin pulseState Pulse.pulses]. rewrite Hnz. cbn [negb].
    rewrite (update_fires c n f d i l pt m t Hpin Hpos Hdue).
    unfold u8. change (2 ^ 8) with 256. rewrite Z.mod_small by lia.
    rewrite (IH (n - 1) t ltac:(lia) ltac:(lia) Hsp).
    rewrite last_cons_default. reflexivity.
Qed.

(** X3. [pulseBlocking] returns, and fires every tone it was asked for:
    with a configured pin, if the first [count] clock readings its
    [update()] calls see are each at least [interval + duration] after
    the one before, it returns after exactly [count] calls, having fired
    [tone(pin, f, d)] at each of these readings and nothing else; the
    pattern and melody state do not matter and are left as they were. *)
Theorem pulseBlocking_returns (s : Statics) (count f d i : Z)
    (clock more : list Z) :
  Config.pin (config s) <> 255 ->
  0 < count < 256 ->
  Z.of_nat (length clock) = count ->
  spaced_from (i + d) 0 clock ->
  pulseBlocking s count f d i (clock ++ more)
  = Some (set_pulseState (Pulse.mk 0 f d i (last clock 0) true) s,
          map (fun t => (t, EvTone (Config.pin (config s)) f d)) clock).
Proof.
  intros Hpin Hc Hlen Hsp. unfold pulseBlocking, pulse.
  apply Z.eqb_neq in Hpin. rewrite Hpin.
  assert (E : (count =? 0) = false) by (apply Z.eqb_neq; lia).
  rewrite E. cbn [orb]. destruct s as [c ps pt m].
  apply Z.eqb_neq in Hpin.
  exact (spin_pulses_fire c f d i pt m more clock Hpin count 0 Hlen
           ltac:(lia) Hsp).
Qed.

Lemma pulseBlocking_returns_witness :
  pulseBlocking pattern_sounding 3 800 30 50 ([7; 90; 200] ++ [201; 202])
  = Some (set_pulseState (Pulse.mk 0 800 30 50 200 true) pattern_sounding,
          [(7, EvTone 9 800 30); (90, EvTone 9 800 30); (200, EvTone 9 800 30)]).
Proof.
  apply (pulseBlocking_returns pattern_sounding 3 800 30 50 [7; 90; 200] [201; 202]).
  - vm_compute; discriminate.
  - lia.
  - reflexivity.
  - simpl. repeat split; try (left; reflexivity); right; vm_compute; discriminate.
Defined.

(** ** What update() never does *)

Lemma melodyTick_events (s : Statics) (now : Z) :
  Forall (fun e => event_pin e = Config.pin (config s)) (snd (melodyTick s now))
  /\ (Config.pin (config s) = 255 -> melodyTick s now = (s, [])).
Proof.
  split.
  - unfold melodyTick. repeat break_if; cbn [snd]; repeat constructor.
  - intros H. unfold melodyTick. rewrite H. cbn [Z.eqb Pos.eqb negb].
    now rewrite andb_false_r.
Qed.

Lemma pulseTick_events (s : Statics) (now : Z) :
  Forall (fun e => event_pin e = Config.pin (config s)) (snd (pulseTick s now)).
Proof. unfold pulseTick. repeat break_if; cbn [snd]; repeat constructor. Qed.

(** X4. [update()] drives no pin but the configured one, and with no pin
    configured (pin 255) it makes no driver call at all, returns false and
    leaves the melody state as it is. *)
Theorem update_addresses_configured_pin (s : Statics) (now : Z) :
  Forall (fun e => event_pin e = Config.pin (config s)) (update_events s now)
  /\ (Config.pin (config s) = 255 ->
      update_events s now = []
      /\ update_ret s now = false
      /\ melodyState (update_post s now) = melodyState s).
Proof.
  split.
  - unfold update_events, update. break_if.
    + apply pulseTick_events.
    + destruct (melodyTick_events (patternTick s now) now) as [H _].
      destruct (patternTick_frame s now) as [Hc _]. rewrite Hc in H.
      destruct (melodyTick (patternTick s now) now). exact H.
  - intros Hpin. unfold update_events, update_ret, update_post, update.
    rewrite Hpin. cbn [Z.eqb Pos.eqb negb]. rewrite andb_false_r.
    destruct (melodyTick_events (patternTick s now) now) as [_ H].
    destruct (patternTick_frame s now) as [Hc Hm].
    rewrite H by (rewrite Hc; exact Hpin).
    cbn [fst snd]. repeat split. exact Hm.
Qed.

Lemma update_addresses_configured_pin_witness :
  update_events (setConfig (Config.of_pin 255) pattern_sounding) 71 = []
  /\ update_ret (setConfig (Config.of_pin 255) pattern_sounding) 71 = false.
Proof.
  destruct (proj2 (update_addresses_configured_pin
                     (setConfig (Config.of_pin 255) pattern_sounding) 71)
              eq_refl) as (H1 & H2 & _).
  split; assumption.
Defined.

Lemma update_keeps_inactive (s : Statics) (now : Z) :
  (isPatternActive s = false -> isPatternActive (update_post s now) = false)
  /\ (isMelodyActive s = false -> isMelodyActive (update_post s now) = false)
  /\ (Pulse.active (pulseState s) = false -> isPatternActive s = false ->
      Pulse.active (pulseState (update_post s now)) = false).
Proof.
  unfold isPatternActive, isMelodyActive.
  split; [| split].
  - intros H. unfold_ops. rewrite H.
    repeat break_if; simpl; try assumption; reflexivity.
  - intros H. unfold update_post, update. break_if.
    + destruct (pulseTick_frame s now) as [_ ->]. exact H.
    + destruct (patternTick_frame s now) as [_ Hm].
      destruct (melodyTick (patternTick s now) now) as [s2 evs] eqn:E.
      cbn [fst snd].
      assert (Hs2 : s2 = fst (melodyTick (patternTick s now) now))
        by now rewrite E.
      rewrite Hs2. unfold melodyTick. rewrite Hm, H. cbn [andb fst].
      rewrite Hm. exact H.
  - intros H1 H2. unfold update_post.
    rewrite (update_melody_only s now H1 H2). cbn [fst snd].
    destruct (melodyTick_frame s now) as (_ & -> & _). exact H1.
Qed.

(** X5. [update()] never starts anything by itself: over any sequence of
    calls an inactive pattern stays inactive, an inactive melody stays
    inactive, and with the pattern inactive an inactive pulse train stays
    inactive. *)
Theorem update_never_activates (clock : list Z) (s : Statics) :
  (isPatternActive s = false -> isPatternActive (fst (run s clock)) = false)
  /\ (isMelodyActive s = false -> isMelodyActive (fst (run s clock)) = false)
  /\ (Pulse.active (pulseState s) = false -> isPatternActive s = false ->
      Pulse.active (pulseState (fst (run s clock))) = false).
Proof.
  revert s. induction clock as [| now rest IH]; intros s.
  - simpl. auto.
  - rewrite run_cons. cbn [fst].
    destruct (update_keeps_inactive s now) as (H1 & H2 & H3).
    destruct (IH (update_post s now)) as (I1 & I2 & I3).
    repeat split; auto.
Qed.

Lemma update_never_activates_witness :
  isPatternActive (fst (run melody_started demo_clock)) = false
  /\ Pulse.active (pulseState (fst (run melody_started demo_clock))) = false.
Proof.
  destruct (update_never_activates demo_clock melody_started) as (H1 & _ & H3).
  split; [apply H1 | apply H3]; reflexivity.
Defined.

(** ** Patterns *)

Lemma advancePattern_loops (s : Statics) :
  pattern_loops s -> pattern_loops (snd (advancePattern s)).
Proof.
  destruct s as [c ps [tp tc tcur ta tr tpd tl tw] m].
  unfold pattern_loops. cbn [patternState Pattern.active Pattern.repeat
                              Pattern.pulses Pattern.count].
  intros (-> & -> & Hp & Hc).
  destruct tp as [l |]; [| congruence].
  assert (E : (tc =? 0) = false) by now apply Z.eqb_neq.
  unfold advancePattern. simpl. rewrite E. simpl.
  break_if; simpl; repeat split; auto.
Qed.

Lemma patternTick_loops (s : Statics) (now : Z) :
  pattern_loops s -> pattern_loops (patternTick s now).
Proof.
  intros H. unfold patternTick. repeat break_if; try assumption.
  - apply advancePattern_loops.
    destruct H as (H1 & H2 & H3 & H4). unfold pattern_loops. simpl. auto.
  - now apply advancePattern_loops.
Qed.

Lemma update_loops (s : Statics) (now : Z) :
  pattern_loops s -> pattern_loops (update_post s now).
Proof.
  intros H. unfold update_post, update. break_if.
  - destruct H as (H1 & H2 & H3 & H4).
    unfold pulseTick, pattern_loops. repeat break_if; simpl; auto.
  - apply (patternTick_loops s now) in H.
    destruct (melodyTick_frame (patternTick s now) now) as (_ & _ & Hpt).
    destruct (melodyTick (patternTick s now) now) as [s2 evs].
    cbn [fst snd] in *. unfold pattern_loops in *. now rewrite Hpt.
Qed.

(** X6. A repeating pattern is never ended by [update()]: once started
    with a list, a count other than 0 and the repeat flag, it is still
    active, with the same list and count, after any sequence of calls. *)
Theorem repeating_pattern_stays_active (clock : list Z) (s : Statics) :
  pattern_loops s -> pattern_loops (fst (run s clock)).
Proof.
  revert s. induction clock as [| now rest IH]; intros s H; [exact H |].
  rewrite run_cons. cbn [fst]. apply IH. now apply update_loops.
Qed.

Lemma repeating_pattern_stays_active_witness :
  isPatternActive (fst (run (pattern configured demo_pulses 2 true 10) demo_clock))
  = true.
Proof.
  apply (repeating_pattern_stays_active demo_clock
           (pattern configured demo_pulses 2 true 10)).
  unfold pattern_loops. simpl. repeat split; discriminate.
Defined.

(** A loop whose condition an invariant of [update()] keeps true is still
    spinning whenever the readings run out. *)
Lemma spin_forever (cond : Statics -> bool) (inv : Statics -> Prop) :
  (forall s, inv s -> cond s = true) ->
  (forall s now, inv s -> inv (update_post s now)) ->
  forall clock s, inv s -> spin cond s clock = None.
Proof.
  intros Hcond Hstep. induction clock as [| now rest IH]; intros s H.
  - simpl. now rewrite (Hcond s H).
  - simpl. rewrite (Hcond s H).
    specialize (Hstep s now H). unfold update_post in Hstep.
    destruct (update s now) as [[r s1] evs]. cbn [fst snd] in Hstep.
    now rewrite (IH s1 Hstep).
Qed.

(** X7. [patternBlocking] with the repeat flag never returns: with a
    configured pin, a list and a count other than 0, its loop is still
    running after any number of [update()] calls, whatever the clock. *)
Theorem patternBlocking_repeat_never_returns (s : Statics) (l : list Pulse.t)
    (count pd : Z) (clock : list Z) :
  Config.pin (config s) <> 255 -> count <> 0 ->
  patternBlocking s (Some l) count true pd clock = None.
Proof.
  intros Hpin Hc. unfold patternBlocking.
  apply (spin_forever _ pattern_loops).
  - intros st (H & _). now rewrite H.
  - intros st now. apply update_loops.
  - unfold pattern, pattern_loops.
    apply Z.eqb_neq in Hpin, Hc. rewrite Hpin, Hc. simpl.
    apply Z.eqb_neq in Hc. repeat split; auto. discriminate.
Qed.

Lemma patternBlocking_repeat_never_returns_witness :
  patternBlocking configured (Some [Pulse.mk 1 1000 50 20 0 false]) 1 true 300
    demo_clock = None.
Proof.
  apply patternBlocking_repeat_never_returns.
  - vm_compute; discriminate.
  - discriminate.
Defined.

Lemma advancePattern_consistent (s : Statics) :
  pattern_consistent s -> pattern_consistent (snd (advancePattern s)).
Proof.
  destruct s as [c ps [tp tc tcur ta tr tpd tl tw] m].
  unfold pattern_consistent, advancePattern.
  cbn [patternState pulseState Pattern.active Pattern.repeat Pattern.pulses
       Pattern.count Pattern.current Pattern.set_current Pattern.set_active
       set_patternState set_pulseState].
  intros H.
  destruct (negb ta || is_null tp || (tc =? 0)) eqn:E.
  - cbn [snd patternState Pattern.active]. discriminate.
  - destruct ta; [| discriminate]. destruct (H eq_refl) as (Hb & _).
    assert (Hu : 0 <= u8 (tcur + 1) < 2 ^ 8)
      by (apply Z.mod_pos_bound; reflexivity).
    destruct (tc <=? u8 (tcur + 1)) eqn:E1.
    + destruct tr; simpl.
      * intros _. repeat split; try reflexivity; lia.
      * discriminate.
    + apply Z.leb_gt in E1. simpl.
      intros _. repeat split; try reflexivity; lia.
Qed.

Lemma patternTick_consistent (s : Statics) (now : Z) :
  pattern_consistent s -> pattern_consistent (patternTick s now).
Proof.
  intros H. unfold patternTick. repeat break_if; try assumption.
  - apply advancePattern_consistent. exact H.
  - now apply advancePattern_consistent.
Qed.

Lemma update_consistent (s : Statics) (now : Z) :
  pattern_consistent s -> pattern_consistent (update_post s now).
Proof.
  intros H. unfold update_post, update. break_if.
  - unfold pulseTick, pattern_consistent in *.
    repeat break_if; simpl; exact H.
  - apply (patternTick_consistent s now) in H.
    destruct (melodyTick_frame (patternTick s now) now) as (_ & Hps & Hpt).
    destruct (melodyTick (patternTick s now) now) as [s2 evs].
    cbn [fst snd] in *. unfold pattern_consistent in *. now rewrite Hps, Hpt.
Qed.

(** X8. A pattern never reads outside the entries it was given, and the
    embedded pulse train always plays the current entry: after
    [pattern(list, count, ...)] with a configured pin and [count > 0] and
    any sequence of [update()] calls, if the pattern is active its index
    lies in [0, count) and the pulse train's frequency, duration and
    interval are those of the entry at that index. *)
Theorem pattern_plays_current_entry (s : Statics) (l : list Pulse.t)
    (count : Z) (rep : bool) (pd : Z) (clock : list Z) :
  Config.pin (config s) <> 255 -> 0 < count ->
  pattern_consistent (fst (run (pattern s (Some l) count rep pd) clock)).
Proof.
  intros Hpin Hc.
  assert (H0 : pattern_consistent (pattern s (Some l) count rep pd)).
  { unfold pattern. apply Z.eqb_neq in Hpin. rewrite Hpin.
    assert (E : (count =? 0) = false) by (apply Z.eqb_neq; lia).
    rewrite E. simpl. unfold pattern_consistent. simpl. intros _.
    repeat split; lia. }
  revert H0. generalize (pattern s (Some l) count rep pd).
  induction clock as [| now rest IH]; intros st H; [exact H |].
  rewrite run_cons. cbn [fst]. apply IH. now apply update_consistent.
Qed.

Lemma pattern_plays_current_entry_witness :
  pattern_consistent (fst (run (pattern configured demo_pulses 2 true 10) demo_clock)).
Proof.
  apply (pattern_plays_current_entry configured _ 2 true 10 demo_clock).
  - vm_compute; discriminate.
  - lia.
Defined.

(** X9. Between two entries the pattern holds still: with the pulse train
    retired and the pattern waiting, every [update()] call whose reading
    is before the end of the last tone, or less than the delay after it,
    changes nothing and makes no driver call. *)
Theorem pattern_wait_holds (s : Statics) (clock : list Z) :
  Pulse.active (pulseState s) = false ->
  isPatternActive s = true ->
  Pattern.waitingForDelay (patternState s) = true ->
  Forall (still_waiting s) clock ->
  run s clock = (s, []).
Proof.
  intros Hp Ha Hw Hall. unfold isPatternActive in Ha.
  induction Hall as [| now rest Hnow _ IH]; [reflexivity |].
  assert (U : update s now = (false, s, [])).
  { unfold update. rewrite Hp. cbn [andb].
    assert (P : patternTick s now = s).
    { unfold patternTick. rewrite Ha, Hw. cbn [andb].
      destruct Hnow as [Hlt | Hlt].
      - apply Z.leb_gt in Hlt. now rewrite Hlt.
      - apply Z.leb_gt in Hlt. rewrite Hlt. now break_if. }
    rewrite P. unfold melodyTick. rewrite Ha. cbn [negb].
    now rewrite andb_false_r. }
  simpl. rewrite U, IH. reflexivity.
Qed.

Lemma pattern_wait_holds_witness :
  run pattern_last_wait [150; 200; 420] = (pattern_last_wait, []).
Proof.
  apply pattern_wait_holds; try reflexivity.
  repeat constructor; right; vm_compute; reflexivity.
Defined.

(** ** Melodies *)

Lemma update_melody_within (l : list Tone.t) (count : Z) (rep : bool)
    (s : Statics) (now : Z) :
  melody_within l count rep s -> melody_within l count rep (update_post s now).
Proof.
  intros H. unfold update_post, update. break_if.
  - unfold melody_within in *.
    destruct (pulseTick_frame s now) as [_ ->]. exact H.
  - destruct (patternTick_frame s now) as [_ Hm].
    destruct (melodyTick (patternTick s now) now) as [s2 evs] eqn:E.
    cbn [fst snd].
    assert (Hs2 : s2 = fst (melodyTick (patternTick s now) now)) by now rewrite E.
    rewrite Hs2. clear E Hs2.
    unfold melody_within in *. unfold melodyTick. rewrite Hm.
    destruct H as (Ht & Hc & Hr & Hb & Ha).
    repeat break_if;
      cbn [fst melodyState set_melodyState Melody.tones Melody.count
           Melody.repeat Melody.current Melody.active Melody.set_active
           Melody.set_current Melody.set_toneStart Melody.set_playingTone];
      rewrite ?Hm; repeat split; try assumption; try lia; try congruence.
    + apply Z.mod_pos_bound. reflexivity.
    + assert (u8 (Melody.current (melodyState s) + 1)
              <= Melody.current (melodyState s) + 1)
        by (apply Z.mod_le; [lia | reflexivity]).
      match goal with
      | H : (Melody.current _ <? Melody.count _) = true |- _ =>
          apply Z.ltb_lt in H
      end.
      lia.
Qed.

(** X10. The melody sequencer never reads outside the entries it was
    given, and [update()] never ends a repeating melody: after
    [melody(list, count, repeat)] with a configured pin and [count > 0]
    and any sequence of calls, the list, count and repeat flag are the
    ones given, the index lies in [0, count], and a melody started with
    the repeat flag is still active. *)
Theorem melody_stays_within (s : Statics) (l : list Tone.t) (count : Z)
    (rep : bool) (clock : list Z) :
  Config.pin (config s) <> 255 -> 0 < count ->
  melody_within l count rep
    (fst (run (fst (melody s (Some l) count rep)) clock)).
Proof.
  intros Hpin Hc.
  assert (H0 : melody_within l count rep (fst (melody s (Some l) count rep))).
  { unfold melody. apply Z.eqb_neq in Hpin. rewrite Hpin.
    assert (E : (count =? 0) = false) by (apply Z.eqb_neq; lia).
    rewrite E. simpl. unfold melody_within. simpl. repeat split; auto; lia. }
  revert H0. generalize (fst (melody s (Some l) count rep)).
  induction clock as [| now rest IH]; intros st H; [exact H |].
  rewrite run_cons. cbn [fst]. apply IH. now apply update_melody_within.
Qed.

Lemma melody_stays_within_witness :
  isMelodyActive
    (fst (run (fst (melody configured demo_tones 1 true)) demo_clock)) = true.
Proof.
  destruct (melody_stays_within configured [Tone.mk 440 100 50] 1 true demo_clock)
    as (_ & _ & _ & _ & H).
  - vm_compute; discriminate.
  - lia.
  - exact (H eq_refl).
Defined.

(** ** setup and beep *)

Lemma run_config (clock : list Z) (s : Statics) :
  config (fst (run s clock)) = config s.
Proof.
  revert s. induction clock as [| now rest IH]; intros s; [reflexivity |].
  rewrite run_cons. cbn [fst]. rewrite IH. apply update_config.
Qed.

Lemma update_unconfigured (s : Statics) (now : Z) :
  Config.pin (config s) = 255 -> update_events s now = [].
Proof.
  intros Hpin. unfold update_events, update.
  rewrite Hpin. cbn [Z.eqb Pos.eqb negb]. rewrite andb_false_r.
  destruct (melodyTick_events (patternTick s now) now) as [_ H].
  destruct (patternTick_frame s now) as [Hc _].
  rewrite H by (rewrite Hc; exact Hpin). reflexivity.
Qed.

Lemma run_unconfigured (clock : list Z) (s : Statics) :
  Config.pin (config s) = 255 -> snd (run s clock) = [].
Proof.
  revert s. induction clock as [| now rest IH]; intros s Hpin; [reflexivity |].
  rewrite run_cons. cbn [snd]. rewrite (update_unconfigured s now Hpin).
  apply IH. now rewrite update_config.
Qed.

(** X11. An unconfigured buzzer never touches the pin driver: with pin
    255, [beep] and [stopMelody] make no driver call, the start requests
    change nothing, and no sequence of [update()] calls makes one,
    whatever state the sequencers were left in. *)
Theorem unconfigured_is_silent (s : Statics) :
  Config.pin (config s) = 255 ->
  (forall f d, beep s f d = [])
  /\ snd (stopMelody s) = []
  /\ (forall count f d i, pulse s count f d i = s)
  /\ (forall pulses count rep pd, pattern s pulses count rep pd = s)
  /\ (forall tones count rep, melody s tones count rep = (s, []))
  /\ (forall clock, snd (run s clock) = []).
Proof.
  intros Hpin. repeat split.
  - intros f d. unfold beep. now rewrite Hpin.
  - unfold stopMelody. now rewrite Hpin.
  - intros. apply pulse_rejects. now left.
  - intros. apply pattern_rejects. now left.
  - intros. apply melody_rejects. now left.
  - intros clock. now apply run_unconfigured.
Qed.

Lemma unconfigured_is_silent_witness :
  snd (run (setConfig (Config.of_pin 255) pattern_sounding) demo_clock) = [].
Proof.
  apply (unconfigured_is_silent (setConfig (Config.of_pin 255) pattern_sounding)
           eq_refl).
Defined.

(** X12. [setup] with pin 255 on a configured buzzer tears it down
    whatever the flags: it silences and releases the old pin, returns
    false and puts all four statics back to their defaults; from there
    every start request is refused and [update()] does nothing. *)
Theorem setup_teardown (s : Statics) (conf : Config.t) (flags : Z)
    (clock : list Z) :
  Config.pin conf = 255 -> Config.pin (config s) <> 255 ->
  setup s conf flags clock
  = Some (false, boot,
          [IoDriver (EvNoTone (Config.pin (config s)));
           IoPinMode (Config.pin (config s)) INPUT])
  /\ (forall count f d i, pulse boot count f d i = boot)
  /\ (forall pulses count rep pd, pattern boot pulses count rep pd = boot)
  /\ (forall tones count rep, melody boot tones count rep = (boot, []))
  /\ (forall later, run boot later = (boot, [])).
Proof.
  intros Hc Hs. split; [| split; [| split; [| split]]].
  - unfold setup. rewrite Hc. apply Z.eqb_neq in Hs. now rewrite Hs.
  - intros. apply pulse_rejects. now left.
  - intros. apply pattern_rejects. now left.
  - intros. apply melody_rejects. now left.
  - intros later. now apply run_idle.
Qed.

Lemma setup_teardown_witness :
  setup pattern_sounding (Config.of_pin 255) (BUZ_FORCE + BUZ_BEEP) []
  = Some (false, boot, [IoDriver (EvNoTone 9); IoPinMode 9 INPUT]).
Proof.
  apply (setup_teardown pattern_sounding (Config.of_pin 255)
           (BUZ_FORCE + BUZ_BEEP) []).
  - reflexivity.
  - vm_compute; discriminate.
Defined.

Lemma spin_config (cond : Statics -> bool) (clock : list Z) :
  forall s s' log, spin cond s clock = Some (s', log) -> config s' = config s.
Proof.
  intros s s' log H. destruct (spin_run cond clock s s' log H)
    as (used & unused & _ & R).
  rewrite <- (run_config used s). now rewrite R.
Qed.

(** X13. What [setup] returns and what it stores: it returns false only
    when it tears down (pin 255 asked, a pin configured); it keeps only
    the pin of the [Config] it is given, the acknowledge and error tones
    of the result being the old ones or the defaults; and asked for the
    pin already configured, without [BUZ_FORCE], it changes nothing and
    touches no hardware. *)
Theorem setup_result (s : Statics) (conf : Config.t) (flags : Z)
    (clock : list Z) (r : bool) (s' : Statics) (out : list io) :
  setup s conf flags clock = Some (r, s', out) ->
  (r = false <-> Config.pin conf = 255 /\ Config.pin (config s) <> 255)
  /\ (config s' = config s \/ config s' = Config.of_pin (Config.pin conf))
  /\ (Config.pin conf = Config.pin (config s) ->
      has_flag flags BUZ_FORCE = false ->
      s' = s /\ out = []).
Proof.
  unfold setup. intros H.
  assert (Hpulse : forall st s2 log,
             pulseBlocking st 3 (Tone.frequency (Config.ack (getConfig st)))
               (Tone.duration (Config.ack (getConfig st)))
               (Tone.rest (Config.ack (getConfig st))) clock = Some (s2, log) ->
             config s2 = config st).
  { intros st s2 log EP. unfold pulseBlocking in EP.
    apply spin_config in EP. rewrite EP. unfold pulse.
    now destruct (_ || _). }
  destruct (Config.pin conf =? 255) eqn:E1;
    destruct (Config.pin (config s) =? 255) eqn:E2; cbn [andb negb] in H.
  - (* no pin configured, none asked for *)
    apply Z.eqb_eq in E1, E2.
    assert (E : (Config.pin conf =? Config.pin (config s)) = true)
      by (apply Z.eqb_eq; congruence).
    rewrite E in H. cbn [andb] in H.
    split; [split; [intros Hr; exfalso | intros [_ Hne]; congruence] |].
    { destruct (has_flag flags BUZ_FORCE); cbn [negb] in H;
        [destruct (has_flag flags BUZ_BEEP);
           [destruct (pulseBlocking _ _ _ _ _ clock) as [[s2 log] |];
              [| discriminate] |] |];
        inversion H; subst; discriminate. }
    destruct (has_flag flags BUZ_FORCE) eqn:EF; cbn [negb] in H.
    + split; [| intros; congruence].
      destruct (has_flag flags BUZ_BEEP).
      * destruct (pulseBlocking _ _ _ _ _ clock) as [[s2 log] |] eqn:EP;
          [| discriminate].
        inversion H; subst. right. now rewrite (Hpulse _ _ _ EP).
      * inversion H; subst. now right.
    + inversion H; subst. split; [now left | intros; split; reflexivity].
  - (* teardown *)
    apply Z.eqb_eq in E1. apply Z.eqb_neq in E2.
    inversion H; subst.
    split; [split; [intros _; split; assumption | reflexivity] |].
    split; [right; rewrite E1; reflexivity |].
    intros Heq. congruence.
  - (* first configuration *)
    apply Z.eqb_neq in E1. apply Z.eqb_eq in E2.
    assert (E : (Config.pin conf =? Config.pin (config s)) = false)
      by (apply Z.eqb_neq; congruence).
    rewrite E in H. cbn [andb] in H.
    destruct (has_flag flags BUZ_BEEP).
    + destruct (pulseBlocking _ _ _ _ _ clock) as [[s2 log] |] eqn:EP;
        [| discriminate].
      inversion H; subst.
      split; [split; [discriminate | intros [? ?]; congruence] |].
      split; [| intros; congruence].
      right. now rewrite (Hpulse _ _ _ EP).
    + inversion H; subst.
      split; [split; [discriminate | intros [? ?]; congruence] |].
      split; [now right | intros; congruence].
  - (* a pin is configured, a pin is asked for *)
    apply Z.eqb_neq in E1, E2.
    destruct ((Config.pin conf =? Config.pin (config s))
              && negb (has_flag flags BUZ_FORCE)) eqn:E.
    + inversion H; subst.
      split; [split; [discriminate | intros [? ?]; congruence] |].
      split; [now left | intros; split; reflexivity].
    + assert (Hno : Config.pin conf = Config.pin (config s) ->
                    has_flag flags BUZ_FORCE = false -> False).
      { intros Heq HF. apply Z.eqb_eq in Heq. rewrite Heq, HF in E.
        discriminate. }
      destruct (has_flag flags BUZ_BEEP).
      * destruct (pulseBlocking _ _ _ _ _ clock) as [[s2 log] |] eqn:EP;
          [| discriminate].
        inversion H; subst.
        split; [split; [discriminate | intros [? ?]; congruence] |].
        split; [| intros; exfalso; auto].
        right. now rewrite (Hpulse _ _ _ EP).
      * inversion H; subst.
        split; [split; [discriminate | intros [? ?]; congruence] |].
        split; [now right | intros; exfalso; auto].
Qed.

Lemma setup_result_witness :
  config (set_config (Config.of_pin 7) configured) = Config.of_pin 7.
Proof.
  destruct (setup_result configured
              (Config.mk 7 (Tone.mk 2000 10 10) (Tone.mk 3000 10 10))
              BUZ_NONE [] true (set_config (Config.of_pin 7) configured)
              [IoPinMode 7 OUTPUT; IoDigitalWrite 7 false] eq_refl)
    as (_ & [H | H] & _).
  - vm_compute in H. discriminate.
  - exact H.
Defined.

(** X14. [setup] with [BUZ_BEEP] sounds three acknowledge beeps: asked
    for a pin other than 255 that is not the configured one (or with
    [BUZ_FORCE]), on a clock whose first three readings in the beep loop
    are 80 ms apart or more, it returns true with the new pin configured,
    having set the pin to output and low and then fired
    [tone(pin, 800, 30)] exactly three times. *)
Theorem setup_beeps_three_times (s : Statics) (conf : Config.t) (flags : Z)
    (t1 t2 t3 : Z) (more : list Z) :
  Config.pin conf <> 255 ->
  Config.pin conf <> Config.pin (config s) \/ has_flag flags BUZ_FORCE = true ->
  has_flag flags BUZ_BEEP = true ->
  spaced_from 80 0 [t1; t2; t3] ->
  setup s conf flags ([t1; t2; t3] ++ more)
  = Some (true,
          mkStatics (Config.of_pin (Config.pin conf))
            (Pulse.mk 0 BUZZER_ACK_FREQ BUZZER_ACK_DURATION BUZZER_PULSE_INTERVAL
               t3 true)
            (patternState s) (melodyState s),
          [IoPinMode (Config.pin conf) OUTPUT;
           IoDigitalWrite (Config.pin conf) false;
           IoDriver (EvTone (Config.pin conf) 800 30);
           IoDriver (EvTone (Config.pin conf) 800 30);
           IoDriver (EvTone (Config.pin conf) 800 30)]).
Proof.
  intros Hpin Hnew Hbeep Hsp. unfold setup.
  assert (E1 : (Config.pin conf =? 255) = false) by now apply Z.eqb_neq.
  rewrite E1. cbn [andb].
  assert (E2 : (Config.pin conf =? Config.pin (config s))
               && negb (has_flag flags BUZ_FORCE) = false).
  { destruct Hnew as [H | H].
    - apply Z.eqb_neq in H. now rewrite H.
    - rewrite H. apply andb_false_r. }
  rewrite E2, Hbeep.
  destruct s as [c ps pt m].
  cbn [set_config config pulseState patternState melodyState].
  assert (EP : pulseBlocking
                 (mkStatics (Config.of_pin (Config.pin conf)) ps pt m)
                 3 800 30 50 ([t1; t2; t3] ++ more)
               = Some (mkStatics (Config.of_pin (Config.pin conf))
                         (Pulse.mk 0 800 30 50 t3 true) pt m,
                       map (fun t => (t, EvTone (Config.pin conf) 800 30))
                         [t1; t2; t3])).
  { unfold pulseBlocking, pulse.
    cbn [config Config.pin Config.of_pin]. rewrite E1.
    change (3 =? 0) with false. cbn [orb set_pulseState config patternState
                                     melodyState].
    exact (spin_pulses_fire (Config.of_pin (Config.pin conf)) 800 30 50 pt m
             more [t1; t2; t3] Hpin 3 0 eq_refl ltac:(lia) Hsp). }
  match goal with
  | |- context [pulseBlocking ?st 3 ?f ?d ?i ?cl] =>
      change (pulseBlocking st 3 f d i cl)
        with (pulseBlocking (mkStatics (Config.of_pin (Config.pin conf)) ps pt m)
                3 800 30 50 ([t1; t2; t3] ++ more))
  end.
  rewrite EP. reflexivity.
Qed.

Lemma setup_beeps_three_times_witness :
  exists s' out,
    setup_pin boot 9 BUZ_BEEP ([1; 90; 200] ++ [300]) = Some (true, s', out)
    /\ length out = 5%nat.
Proof.
  eexists. eexists. split.
  - apply (setup_beeps_three_times boot (Config.of_pin 9) BUZ_BEEP 1 90 200 [300]).
    + vm_compute; discriminate.
    + left. vm_compute; discriminate.
    + reflexivity.
    + simpl. repeat split; try (left; reflexivity); right; vm_compute; discriminate.
  - reflexivity.
Defined.

(** ** The tokenizer *)

Lemma set_slot_length (i : nat) (p : option nat) (output : list (option nat)) :
  length (set_slot i p output) = length output.
Proof.
  revert i. induction output as [| o r IH]; intros i; [reflexivity |].
  destruct i; simpl; [reflexivity | now rewrite IH].
Qed.

Lemma poke_length (buf : list ascii) (ptr : nat) (c : ascii) :
  length (poke buf ptr c) = length buf.
Proof.
  unfold poke. rewrite <- (firstn_skipn ptr buf) at 3.
  rewrite !length_app. f_equal. now destruct (skipn ptr buf).
Qed.

Lemma set_slot_nth_other (i j : nat) (p : option nat)
    (output : list (option nat)) :
  i <> j -> nth j (set_slot i p output) None = nth j output None.
Proof.
  revert i j. induction output as [| o r IH]; intros i j H; [reflexivity |].
  destruct i, j; simpl; try reflexivity; try congruence.
  apply IH. congruence.
Qed.

Lemma set_slot_nth_same (i : nat) (p : option nat) (output : list (option nat)) :
  (i < length output)%nat -> nth i (set_slot i p output) None = p.
Proof.
  revert i. induction output as [| o r IH]; intros i H; simpl in H; [lia |].
  destruct i; simpl; [reflexivity | apply IH; lia].
Qed.

(** What the loop keeps, whatever the buffer holds. *)
Lemma split_loop_bounds (fuel : nat) :
  forall buf output count ptr max_elements buf' output' count',
    split_loop fuel buf output count ptr max_elements = (buf', output', count') ->
    length output = max_elements ->
    (count <= max_elements)%nat ->
    (forall j, (count <= j)%nat -> nth j output None = None) ->
    length buf' = length buf
    /\ length output' = max_elements
    /\ (count <= count' <= max_elements)%nat
    /\ (forall j, (count' <= j)%nat -> nth j output' None = None)
    /\ (forall j, (count <= j < count')%nat -> nth j output' None <> None)
    /\ (forall j, (j < count)%nat -> nth j output' None = nth j output None).
Proof.
  induction fuel as [| fuel IH];
    intros buf output count ptr max_elements buf' output' count' H Hlen Hc Hnone.
  - simpl in H. inversion H; subst.
    repeat split; auto; intros; lia.
  - simpl in H.
    destruct (negb (is_nul (peek buf ptr)) && (count <? max_elements)%nat) eqn:E;
      [| inversion H; subst; repeat split; auto; intros; lia].
    apply andb_true_iff in E. destruct E as [_ Elt]. apply Nat.ltb_lt in Elt.
    destruct (is_nul (peek buf (scan is_space buf ptr)));
      [inversion H; subst; repeat split; auto; intros; lia |].
    assert (Hstep : forall p b q,
               split_loop fuel b (set_slot count (Some p) output) (S count) q
                 max_elements = (buf', output', count') ->
               length b = length buf ->
               length buf' = length buf
               /\ length output' = max_elements
               /\ (count <= count' <= max_elements)%nat
               /\ (forall j, (count' <= j)%nat -> nth j output' None = None)
               /\ (forall j, (count <= j < count')%nat -> nth j output' None <> None)
               /\ (forall j, (j < count)%nat ->
                             nth j output' None = nth j output None)).
    { intros p b q Hrun Hb.
      destruct (IH _ _ _ _ _ _ _ _ Hrun) as (L1 & L2 & L3 & L4 & L5 & L6).
      - now rewrite set_slot_length.
      - lia.
      - intros j Hj. rewrite set_slot_nth_other by lia. apply Hnone. lia.
      - split; [congruence |]. split; [assumption |]. split; [lia |].
        split; [assumption |]. split.
        + intros j Hj. destruct (Nat.eq_dec j count) as [-> | Hne].
          * rewrite L6 by lia. rewrite set_slot_nth_same by lia. discriminate.
          * apply L5. lia.
        + intros j Hj. rewrite L6 by lia. apply set_slot_nth_other. lia. }
    cbv zeta in H.
    repeat match type of H with
           | context [if ?c then _ else _] => destruct c
           end;
      apply (Hstep _ _ _ H); try reflexivity; apply poke_length.
Qed.

(** X15. [split] never reports more tokens than it has room for, and
    marks exactly the slots it filled: whatever the buffer holds, the
    count returned is at most [max_elements], the output slots below the
    count are pointers and the slots from the count on are [nullptr]; the
    buffer keeps its length. *)
Theorem split_fills_count_slots (input : list ascii) (max_elements : nat) :
  let '(buf, output, count) := split input max_elements in
  (count <= max_elements)%nat
  /\ length output = max_elements
  /\ length buf = length input
  /\ (forall j, (j < max_elements)%nat ->
                (nth j output None <> None <-> (j < count)%nat)).
Proof.
  unfold split.
  destruct (split_loop max_elements input (repeat None max_elements) 0 0
              max_elements) as [[buf output] count] eqn:E.
  destruct (split_loop_bounds _ _ _ _ _ _ _ _ _ E) as (L1 & L2 & L3 & L4 & L5 & _).
  - apply repeat_length.
  - lia.
  - intros j _. apply nth_repeat.
  - repeat split; try assumption; try lia.
    + intros Hne. destruct (Nat.lt_ge_cases j count) as [Hlt | Hge]; [assumption |].
      exfalso. apply Hne. now apply L4.
    + intros Hlt. apply L5. lia.
Qed.

(** The passes allowed are all the loop can make. *)
Lemma split_loop_fuel (f1 : nat) :
  forall f2 buf output count ptr max_elements,
    (max_elements - count <= f1)%nat -> (max_elements - count <= f2)%nat ->
    split_loop f1 buf output count ptr max_elements
    = split_loop f2 buf output count ptr max_elements.
Proof.
  induction f1 as [| f1 IH]; intros f2 buf output count ptr mx H1 H2.
  - destruct f2 as [| f2]; [reflexivity |]. simpl.
    assert (E : (count <? mx)%nat = false) by (apply Nat.ltb_ge; lia).
    rewrite E, andb_false_r. reflexivity.
  - destruct f2 as [| f2].
    + simpl.
      assert (E : (count <? mx)%nat = false) by (apply Nat.ltb_ge; lia).
      rewrite E, andb_false_r. reflexivity.
    + simpl. destruct (negb (is_nul (peek buf ptr)) && (count <? mx)%nat) eqn:E;
        [| reflexivity].
      apply andb_true_iff in E. destruct E as [_ E]. apply Nat.ltb_lt in E.
      repeat break_if; try reflexivity; apply IH; lia.
Qed.

Lemma peek_app (a b : list ascii) : peek (a ++ b) (length a) = hd NUL b.
Proof.
  unfold peek. rewrite app_nth2 by lia. rewrite Nat.sub_diag. now destruct b.
Qed.

Lemma skipn_app_length (a b : list ascii) : skipn (length a) (a ++ b) = b.
Proof.
  rewrite skipn_app, Nat.sub_diag, skipn_all. reflexivity.
Qed.

Lemma poke_app (a b : list ascii) (c0 c : ascii) :
  poke (a ++ c0 :: b) (length a) c = a ++ c :: b.
Proof.
  unfold poke. rewrite skipn_app_length.
  rewrite firstn_app, Nat.sub_diag, firstn_all. simpl. now rewrite app_nil_r.
Qed.

Lemma span_all (keep : ascii -> bool) (w x : list ascii) :
  Forall (fun c => keep c = true) w ->
  span keep (w ++ x) = (length w + span keep x)%nat.
Proof.
  induction 1 as [| c w Hc _ IH]; [reflexivity |].
  simpl. now rewrite Hc, IH.
Qed.

Lemma span_spaces (k : nat) (x : list ascii) :
  span is_space (repeat SPACE k ++ x) = (k + span is_space x)%nat.
Proof. induction k as [| k IH]; [reflexivity |]. simpl. now rewrite IH. Qed.

Lemma scan_app (keep : ascii -> bool) (a w x : list ascii) :
  Forall (fun c => keep c = true) w ->
  span keep x = O ->
  scan keep (a ++ w ++ x) (length a) = length (a ++ w).
Proof.
  intros Hw Hx. unfold scan. rewrite skipn_app_length, span_all by assumption.
  rewrite Hx, length_app. lia.
Qed.

Lemma in_unquoted_not_nul (c : ascii) : in_unquoted c = true -> is_nul c = false.
Proof.
  unfold in_unquoted. intros H. apply andb_true_iff in H. destruct H as [H _].
  apply andb_true_iff in H. destruct H as [H _]. now apply negb_true_iff.
Qed.

Lemma in_unquoted_not_space (c : ascii) :
  in_unquoted c = true -> is_space c = false.
Proof.
  unfold in_unquoted. intros H. apply andb_true_iff in H. destruct H as [H _].
  apply andb_true_iff in H. destruct H as [_ H]. now apply negb_true_iff.
Qed.

Lemma in_unquoted_not_quote (c : ascii) :
  in_unquoted c = true -> is_quote c = false.
Proof.
  unfold in_unquoted. intros H. apply andb_true_iff in H. destruct H as [_ H].
  now apply negb_true_iff.
Qed.

Lemma in_quoted_not_nul (c : ascii) : in_quoted c = true -> is_nul c = false.
Proof.
  unfold in_quoted. intros H. apply andb_true_iff in H. destruct H as [H _].
  now apply negb_true_iff.
Qed.

(** The first character of a rendered item: not NUL, not a blank. *)
Lemma render_head (it : item) (x : list ascii) :
  valid_item it ->
  is_nul (hd NUL (render it ++ x)) = false
  /\ is_space (hd NUL (render it ++ x)) = false
  /\ is_quote (hd NUL (render it ++ x)) = Nat.eqb (start_offset it) 1.
Proof.
  destruct it as [w | b]; simpl.
  - intros [Hne Hall]. destruct w as [| c w]; [congruence |].
    inversion Hall; subst. simpl.
    repeat split;
      [now apply in_unquoted_not_nul | now apply in_unquoted_not_space
      | now apply in_unquoted_not_quote].
  - intros _. repeat split.
Qed.

Lemma span_stop (keep : ascii -> bool) (x : list ascii) :
  keep (hd NUL x) = false -> span keep x = O.
Proof. destruct x as [| c x]; [reflexivity |]. simpl. now intros ->. Qed.

Lemma spaces_all (k : nat) : Forall (fun c => is_space c = true) (repeat SPACE k).
Proof. induction k; simpl; constructor; auto. Qed.

(** One pass of the loop over a line laid out as items. *)
Lemma split_loop_layout (items : list (nat * item)) :
  Forall (fun ki => valid_item (snd ki)) items ->
  forall n d output count mx,
    (count + n = mx)%nat ->
    split_loop n (d ++ layout items) output count (length d) mx
    = (d ++ layout_cut n items,
       fill output count (firstn n (starts (length d) items)),
       (count + Nat.min n (length items))%nat).
Proof.
  induction 1 as [| [k it] more Hv _ IH]; intros n d output count mx Hn.
  - destruct n as [| n'].
    + simpl. now rewrite Nat.add_0_r.
    + cbn [split_loop layout]. rewrite peek_app. simpl.
      now rewrite Nat.add_0_r.
  - destruct n as [| n'].
    + simpl. now rewrite Nat.add_0_r.
    + cbn [snd] in Hv.
      cbn [split_loop layout layout_cut starts firstn fill length Nat.min].
      set (rest := render it ++ separator it more ++ layout more).
      destruct (render_head it (separator it more ++ layout more) Hv)
        as (Hnul & Hsp & Hq). fold rest in Hnul, Hsp, Hq.
      assert (Hfirst : is_nul (hd NUL (repeat SPACE k ++ rest)) = false)
        by (destruct k; [exact Hnul | reflexivity]).
      rewrite peek_app, Hfirst.
      assert (Hlt : (count <? mx)%nat = true) by (apply Nat.ltb_lt; lia).
      rewrite Hlt. cbn [negb andb].
      rewrite (scan_app is_space d (repeat SPACE k) rest (spaces_all k)
                 (span_stop is_space rest Hsp)).
      rewrite (app_assoc d (repeat SPACE k) rest).
      set (a1 := d ++ repeat SPACE k).
      assert (La1 : length a1 = (length d + k)%nat)
        by (unfold a1; now rewrite length_app, repeat_length).
      rewrite peek_app, Hnul, Hq.
      destruct it as [w | b]; cbn [start_offset Nat.eqb].
      * (* a plain item *)
        destruct Hv as [Hne Hall]. unfold rest. cbn [render].
        assert (Hstop : span in_unquoted (separator (Plain w) more ++ layout more)
                        = O).
        { apply span_stop. destruct more as [| [k2 it2] more']; reflexivity. }
        rewrite (scan_app in_unquoted a1 w _ Hall Hstop).
        rewrite (app_assoc a1 w).
        rewrite peek_app.
        destruct more as [| m more'].
        -- cbn [separator layout app hd].
           change (is_nul NUL) with true. cbn [negb].
           change ((a1 ++ w) ++ []) with ((a1 ++ w) ++ layout []).
           rewrite (IH n' (a1 ++ w) _ (S count) mx ltac:(lia)).
           cbn [separator_done starts length render_done].
           rewrite !firstn_nil. cbn [fill].
           replace (layout_cut n' []) with (@nil ascii) by now destruct n'.
           rewrite La1, Nat.add_0_r, Nat.min_0_r. unfold a1.
           rewrite <- !app_assoc. cbn [app].
           rewrite (Nat.add_succ_r count). reflexivity.
        -- cbn [separator app hd].
           change (is_nul SPACE) with false. cbn [negb].
           rewrite poke_app.
           replace (S (length (a1 ++ w))) with (length ((a1 ++ w) ++ [NUL]))
             by (rewrite (length_app (a1 ++ w)); simpl; lia).
           replace ((a1 ++ w) ++ NUL :: layout (m :: more'))
             with (((a1 ++ w) ++ [NUL]) ++ layout (m :: more'))
             by (now rewrite <- (app_assoc (a1 ++ w))).
           rewrite (IH n' ((a1 ++ w) ++ [NUL]) _ (S count) mx ltac:(lia)).
           cbn [separator_done render_done separator render].
           replace (length ((a1 ++ w) ++ [NUL]))
             with (length d + k + length w + length [SPACE])%nat
             by (rewrite !length_app, La1; simpl; lia).
           rewrite La1, Nat.add_0_r. unfold a1.
           rewrite <- !app_assoc. cbn [app length].
           rewrite (Nat.add_succ_r count). reflexivity.
      * (* a quoted item *)
        unfold rest. cbn [render separator app].
        replace (a1 ++ QUOTE :: (b ++ [QUOTE]) ++ layout more)
          with ((a1 ++ [QUOTE]) ++ b ++ QUOTE :: layout more)
          by (now rewrite <- !app_assoc).
        replace (S (length a1)) with (length (a1 ++ [QUOTE]))
          by (rewrite length_app; simpl; lia).
        assert (Hstop : span in_quoted (QUOTE :: layout more) = O)
          by reflexivity.
        rewrite (scan_app in_quoted (a1 ++ [QUOTE]) b _ Hv Hstop).
        rewrite (app_assoc (a1 ++ [QUOTE]) b).
        rewrite peek_app. cbn [hd].
        change (is_quote QUOTE) with true. cbv iota.
        rewrite poke_app.
        replace (S (length ((a1 ++ [QUOTE]) ++ b)))
          with (length (((a1 ++ [QUOTE]) ++ b) ++ [NUL]))
          by (rewrite (length_app ((a1 ++ [QUOTE]) ++ b)); simpl; lia).
        replace (((a1 ++ [QUOTE]) ++ b) ++ NUL :: layout more)
          with ((((a1 ++ [QUOTE]) ++ b) ++ [NUL]) ++ layout more)
          by (now rewrite <- (app_assoc ((a1 ++ [QUOTE]) ++ b))).
        rewrite (IH n' (((a1 ++ [QUOTE]) ++ b) ++ [NUL]) _ (S count) mx
                   ltac:(lia)).
        cbn [separator_done render_done separator render].
        replace (length (((a1 ++ [QUOTE]) ++ b) ++ [NUL]))
          with (length d + k + length (QUOTE :: b ++ [QUOTE]) + length (@nil ascii))%nat
          by (cbn [length]; rewrite !length_app, La1; simpl; lia).
        replace (length (a1 ++ [QUOTE])) with (length d + k + 1)%nat
          by (rewrite length_app, La1; simpl; lia).
        unfold a1. rewrite <- !app_assoc. cbn [app length].
        rewrite <- !app_assoc. cbn [app].
        rewrite (Nat.add_succ_r count). reflexivity.
Qed.

Lemma cstr_app (a w x : list ascii) :
  Forall (fun c => is_nul c = false) w ->
  is_nul (hd NUL x) = true ->
  cstr (a ++ w ++ x) (length a) = w.
Proof.
  intros Hw Hx. unfold cstr. rewrite skipn_app_length.
  rewrite (span_all (fun c => negb (is_nul c)) w x).
  - rewrite (span_stop (fun c => negb (is_nul c)) x) by now rewrite Hx.
    rewrite Nat.add_0_r, firstn_app, Nat.sub_diag, firstn_all. simpl.
    apply app_nil_r.
  - eapply Forall_impl; [| exact Hw]. intros c Hc. simpl. now rewrite Hc.
Qed.

Lemma starts_length (items : list (nat * item)) :
  forall base, length (starts base items) = length items.
Proof.
  induction items as [| [k it] more IH]; intros base; simpl; [reflexivity |].
  now rewrite IH.
Qed.

(** The strings at the recorded starts are the items' texts. *)
Lemma layout_cut_tokens (items : list (nat * item)) :
  Forall (fun ki => valid_item (snd ki)) items ->
  forall n d,
    map (cstr (d ++ layout_cut n items)) (firstn n (starts (length d) items))
    = map token_of (firstn n (map snd items)).
Proof.
  induction 1 as [| [k it] more Hv _ IH]; intros n d.
  - destruct n; reflexivity.
  - destruct n as [| n']; [reflexivity |].
    cbn [layout_cut starts firstn map snd]. f_equal.
    + destruct it as [w | b]; cbn [render_done start_offset token_of].
      * destruct Hv as [_ Hall].
        rewrite Nat.add_0_r, (app_assoc d (repeat SPACE k)).
        replace (length d + k)%nat with (length (d ++ repeat SPACE k))
          by now rewrite length_app, repeat_length.
        apply cstr_app.
        -- eapply Forall_impl; [| exact Hall].
           intros c Hc. now apply in_unquoted_not_nul.
        -- destruct more as [| m more']; [now destruct n' | reflexivity].
      * cbn [snd valid_item] in Hv.
        replace (d ++ repeat SPACE k ++ (QUOTE :: b ++ [NUL])
                   ++ separator_done (Quoted b) more ++ layout_cut n' more)
          with ((d ++ repeat SPACE k ++ [QUOTE]) ++ b
                  ++ NUL :: layout_cut n' more)
          by (cbn [separator_done]; rewrite <- !app_assoc; cbn [app];
              now rewrite <- !app_assoc).
        replace (length d + k + 1)%nat
          with (length (d ++ repeat SPACE k ++ [QUOTE]))
          by (rewrite !length_app, repeat_length; simpl; lia).
        apply cstr_app; [| reflexivity].
        eapply Forall_impl; [| exact Hv].
        intros c Hc. now apply in_quoted_not_nul.
    + replace (d ++ repeat SPACE k ++ render_done it
                 ++ separator_done it more ++ layout_cut n' more)
        with ((d ++ repeat SPACE k ++ render_done it ++ separator_done it more)
                ++ layout_cut n' more)
        by now rewrite <- !app_assoc.
      replace (length d + k + length (render it) + length (separator it more))%nat
        with (length (d ++ repeat SPACE k ++ render_done it
                        ++ separator_done it more)).
      * apply IH.
      * rewrite !length_app, repeat_length.
        destruct it, more; cbn [render render_done separator separator_done length];
          rewrite ?length_app; simpl; lia.
Qed.

Lemma set_slot_firstn (count : nat) (p : option nat) :
  forall output,
    (count < length output)%nat ->
    firstn (S count) (set_slot count p output) = firstn count output ++ [p].
Proof.
  induction count as [| count IH]; intros output H;
    destruct output as [| o r]; simpl in H; try lia.
  - reflexivity.
  - cbn [set_slot]. change (firstn (S (S count)) (o :: set_slot count p r))
      with (o :: firstn (S count) (set_slot count p r)).
    rewrite IH by lia. reflexivity.
Qed.

Lemma fill_length (ps : list nat) :
  forall output count, length (fill output count ps) = length output.
Proof.
  induction ps as [| p r IH]; intros output count; [reflexivity |].
  simpl. now rewrite IH, set_slot_length.
Qed.

Lemma fill_firstn (ps : list nat) :
  forall output count,
    (count + length ps <= length output)%nat ->
    firstn (count + length ps) (fill output count ps)
    = firstn count output ++ map Some ps.
Proof.
  induction ps as [| p r IH]; intros output count H.
  - simpl. now rewrite Nat.add_0_r, app_nil_r.
  - cbn [fill length map] in *.
    replace (count + S (length r))%nat with (S count + length r)%nat by lia.
    rewrite IH by (rewrite set_slot_length; lia).
    rewrite set_slot_firstn by lia. now rewrite <- app_assoc.
Qed.

(** X16. [split] reads back what a line holds: for a line made of items,
    each after any number of blanks, plain items (no blank, no quote)
    being followed by a blank when another item comes, quoted items
    (which may hold blanks) standing between two quotes, it returns the
    number of items, at most [max_elements], and the output slots point
    to the items' texts, in order; items beyond [max_elements] are left
    out. *)
Theorem split_reads_layout (items : list (nat * item)) (max_elements : nat) :
  Forall (fun ki => valid_item (snd ki)) items ->
  snd (split (layout items) max_elements)
  = Nat.min max_elements (length items)
  /\ split_tokens (split (layout items) max_elements)
     = firstn max_elements (map token_of (map snd items)).
Proof.
  intros Hv. unfold split.
  pose proof (split_loop_layout items Hv max_elements [] (repeat None max_elements)
                O max_elements eq_refl) as E.
  cbn [app length] in E. rewrite E. cbn [snd Nat.add]. split; [reflexivity |].
  unfold split_tokens.
  set (ps := firstn max_elements (starts 0 items)).
  assert (Lps : length ps = Nat.min max_elements (length items))
    by (unfold ps; now rewrite length_firstn, starts_length).
  rewrite <- Lps.
  pose proof (fill_firstn ps (repeat None max_elements) O) as F.
  cbn [Nat.add firstn app] in F.
  rewrite F by (rewrite repeat_length, Lps; apply Nat.le_min_l).
  rewrite map_map.
  rewrite firstn_map.
  exact (layout_cut_tokens items Hv max_elements []).
Qed.

Lemma split_reads_layout_witness :
  split_tokens (split (layout demo_line) 4)
  = [["4"; "4"; "0"]%char; ["1"; "0"; "0"]%char; ["a"; " "; "b"]%char].
Proof.
  refine (proj2 (split_reads_layout demo_line 4 _)).
  unfold demo_line.
  repeat (apply Forall_cons; [simpl; try split; try discriminate;
                              repeat constructor |]).
  apply Forall_nil.
Defined.

(** X17. A line of blanks holds no token: [split] returns 0, writes
    nothing into the buffer and leaves every output slot [nullptr]. *)
Theorem split_blank_line (k max_elements : nat) :
  split (repeat SPACE k) max_elements
  = (repeat SPACE k, repeat None max_elements, O).
Proof.
  unfold split. destruct max_elements as [| mx]; [reflexivity |].
  cbn [split_loop].
  destruct (negb (is_nul (peek (repeat SPACE k) 0)) && (0 <? S mx)%nat);
    [| reflexivity].
  assert (Hscan : scan is_space (repeat SPACE k) 0 = k).
  { pose proof (scan_app is_space [] (repeat SPACE k) [] (spaces_all k) eq_refl) as E.
    cbn [app length] in E. rewrite app_nil_r in E. rewrite E.
    apply repeat_length. }
  rewrite Hscan.
  assert (Hend : peek (repeat SPACE k) k = NUL).
  { unfold peek. apply nth_overflow. now rewrite repeat_length. }
  rewrite Hend. reflexivity.
Qed.

(** ** The loaders' line handlers *)

Lemma array_set_length {A : Type} (i : nat) (x : A) (l : list A) :
  length (array_set i x l) = length l.
Proof.
  revert i. induction l as [| y r IH]; intros i; [reflexivity |].
  destruct i; simpl; [reflexivity | now rewrite IH].
Qed.

Lemma array_set_nth_other {A : Type} (i j : nat) (x d : A) (l : list A) :
  i <> j -> nth j (array_set i x l) d = nth j l d.
Proof.
  revert i j. induction l as [| y r IH]; intros i j H; [reflexivity |].
  destruct i, j; simpl; try reflexivity; try congruence.
  apply IH. congruence.
Qed.

(** One line raises the count by at most one, never past the capacity,
    and writes at most the slot at the old count. *)
Lemma tone_line_step (trim : list ascii -> list ascii) (atoi : list ascii -> Z)
    (tones : list Tone.t) (count : nat) (line : list ascii) (linenum : Z) :
  (count <= BUZZER_MAX_MELODY_TONES)%nat ->
  let r := tone_line trim atoi tones count line linenum in
  (count <= snd r <= BUZZER_MAX_MELODY_TONES)%nat
  /\ (snd r <= S count)%nat
  /\ length (snd (fst r)) = length tones
  /\ (forall j d, j <> count -> nth j (snd (fst r)) d = nth j tones d).
Proof.
  intros Hc r. subst r. unfold tone_line.
  destruct (linenum =? 1);
    [destruct (negb _); cbn [fst snd]; repeat split; auto; lia |].
  destruct (_ || _); [cbn [fst snd]; repeat split; auto; lia |].
  destruct (BUZZER_MAX_MELODY_TONES <=? count)%nat eqn:E;
    [cbn [fst snd]; repeat split; auto; lia |].
  apply Nat.leb_gt in E.
  destruct (split (toCharArray (trim line) 20) 3) as [[buf tok] c].
  destruct (nth 0 tok None), (nth 1 tok None), (nth 2 tok None);
    cbn [fst snd]; repeat split; auto; try lia;
    try apply array_set_length;
    intros j d Hj; apply array_set_nth_other; congruence.
Qed.

Lemma pattern_line_step (trim : list ascii -> list ascii) (atoi : list ascii -> Z)
    (pulses : list Pulse.t) (count : nat) (line : list ascii) (linenum : Z) :
  (count <= BUZZER_MAX_PATTERN_PULSES)%nat ->
  let r := pattern_line trim atoi pulses count line linenum in
  (count <= snd r <= BUZZER_MAX_PATTERN_PULSES)%nat
  /\ (snd r <= S count)%nat
  /\ length (snd (fst r)) = length pulses
  /\ (forall j d, j <> count -> nth j (snd (fst r)) d = nth j pulses d).
Proof.
  intros Hc r. subst r. unfold pattern_line.
  destruct (linenum =? 1);
    [destruct (negb _); cbn [fst snd]; repeat split; auto; lia |].
  destruct (_ || _); [cbn [fst snd]; repeat split; auto; lia |].
  destruct (BUZZER_MAX_PATTERN_PULSES <=? count)%nat eqn:E;
    [cbn [fst snd]; repeat split; auto; lia |].
  apply Nat.leb_gt in E.
  destruct (split (toCharArray (trim line) 25) 4) as [[buf tok] c].
  destruct (nth 0 tok None), (nth 1 tok None), (nth 2 tok None),
    (nth 3 tok None);
    cbn [fst snd]; repeat split; auto; try lia;
    try apply array_set_length;
    intros j d Hj; apply array_set_nth_other; congruence.
Qed.

(** What [split] makes of a line of three plain items that fits the
    buffer: three pointers, to the three texts. *)
Lemma split_three (f d r : list ascii) (k1 k2 : nat) :
  valid_item (Plain f) -> valid_item (Plain d) -> valid_item (Plain r) ->
  exists buf p0 p1 p2 c,
    split (layout [(O, Plain f); (k1, Plain d); (k2, Plain r)]) 3
    = (buf, [Some p0; Some p1; Some p2], c)
    /\ cstr buf p0 = f /\ cstr buf p1 = d /\ cstr buf p2 = r.
Proof.
  intros Hf Hd Hr.
  set (items := [(O, Plain f); (k1, Plain d); (k2, Plain r)]).
  assert (Hv : Forall (fun ki => valid_item (snd ki)) items)
    by (repeat (apply Forall_cons; [assumption |]); apply Forall_nil).
  pose proof (split_loop_layout items Hv 3 [] (repeat None 3) O 3 eq_refl) as E.
  pose proof (layout_cut_tokens items Hv 3 []) as T.
  cbn [app length] in E, T.
  pose proof (starts_length items O) as L.
  destruct (starts 0 items) as [| p0 [| p1 [| p2 [| p3 ps]]]]; try discriminate.
  cbn [firstn map snd items token_of] in T. injection T as T0 T1 T2.
  exists (layout_cut 3 items), p0, p1, p2, (0 + Nat.min 3 (length items))%nat.
  unfold split. rewrite E.
  split; [reflexivity |]. split; [exact T0 |]. split; [exact T1 | exact T2].
Qed.

(** X20. A well-formed data line of a tone file is loaded as it reads:
    when the trimmed line is three plain items separated by blanks, fits
    the 20-byte buffer, does not begin with [#], is not line 1 and there
    is room left, the handler stores
    [Tone(atoi(item 1), atoi(item 2), atoi(item 3))], each value cast to
    16 bits, at the current count, raises the count by one and returns
    true. *)
Theorem tone_line_loads (trim : list ascii -> list ascii)
    (atoi : list ascii -> Z) (tones : list Tone.t) (count : nat)
    (line : list ascii) (linenum : Z) (f d r : list ascii) (k1 k2 : nat) :
  linenum <> 1 ->
  trim line = layout [(O, Plain f); (k1, Plain d); (k2, Plain r)] ->
  valid_item (Plain f) -> valid_item (Plain d) -> valid_item (Plain r) ->
  starts_with_hash f = false ->
  (length (trim line) <= 19)%nat ->
  (count < BUZZER_MAX_MELODY_TONES)%nat ->
  tone_line trim atoi tones count line linenum
  = (true,
     array_set count
       (Tone.mk (u16 (atoi f)) (u16 (atoi d)) (u16 (atoi r))) tones,
     S count).
Proof.
  intros Hnum Htrim Hf Hd Hr Hhash Hlen Hroom.
  destruct (split_three f d r k1 k2 Hf Hd Hr)
    as (buf & p0 & p1 & p2 & c & Hsplit & T0 & T1 & T2).
  unfold tone_line. cbv zeta.
  apply Z.eqb_neq in Hnum. rewrite Hnum.
  assert (Hbuf : toCharArray (trim line) 20 = trim line)
    by (unfold toCharArray; apply firstn_all2; simpl; lia).
  rewrite Hbuf. rewrite Htrim in *.
  assert (Hne : ((length (layout [(O, Plain f); (k1, Plain d); (k2, Plain r)])
                  =? 0)%nat
                 || starts_with_hash
                      (layout [(O, Plain f); (k1, Plain d); (k2, Plain r)]))
                = false).
  { destruct Hf as [Hfne _]. destruct f as [| c0 f']; [congruence |].
    cbn [layout repeat app render length Nat.eqb starts_with_hash orb].
    exact Hhash. }
  rewrite Hne.
  assert (Hcap : (BUZZER_MAX_MELODY_TONES <=? count)%nat = false)
    by (apply Nat.leb_gt; exact Hroom).
  rewrite Hcap, Hsplit. cbn [nth]. now rewrite T0, T1, T2.
Qed.

Lemma tone_line_loads_witness :
  tone_line trim_none decimal (repeat Tone.default 30) 2 demo_tone_line 5
  = (true, array_set 2 (Tone.mk 440 100 50) (repeat Tone.default 30), 3%nat).
Proof.
  apply (tone_line_loads trim_none decimal (repeat Tone.default 30) 2
           demo_tone_line 5 ["4"; "4"; "0"]%char ["1"; "0"; "0"]%char
           ["5"; "0"]%char 0 0).
  - discriminate.
  - reflexivity.
  - split; [discriminate | repeat constructor].
  - split; [discriminate | repeat constructor].
  - split; [discriminate | repeat constructor].
  - reflexivity.
  - simpl. lia.
  - unfold BUZZER_MAX_MELODY_TONES. lia.
Defined.

(** X21. A data line of a tone file with fewer than three items is
    skipped: the handler returns true and leaves the array and the count
    as they are. *)
Theorem tone_line_skips_short (trim : list ascii -> list ascii)
    (atoi : list ascii -> Z) (tones : list Tone.t) (count : nat)
    (line : list ascii) (linenum : Z) (items : list (nat * item)) :
  linenum <> 1 ->
  trim line = layout items ->
  Forall (fun ki => valid_item (snd ki)) items ->
  (length items < 3)%nat ->
  (length (trim line) <= 19)%nat ->
  tone_line trim atoi tones count line linenum = (true, tones, count).
Proof.
  intros Hnum Htrim Hv Hshort Hlen. unfold tone_line. cbv zeta.
  apply Z.eqb_neq in Hnum. rewrite Hnum.
  destruct (_ || _); [reflexivity |].
  destruct (BUZZER_MAX_MELODY_TONES <=? count)%nat; [reflexivity |].
  assert (Hbuf : toCharArray (trim line) 20 = trim line)
    by (unfold toCharArray; apply firstn_all2; simpl; lia).
  rewrite Hbuf, Htrim. unfold split.
  pose proof (split_loop_layout items Hv 3 [] (repeat None 3) O 3 eq_refl) as E.
  cbn [app length] in E. rewrite E.
  destruct items as [| [ka a] [| [kb b] [| i3 more]]];
    [| | | cbn [length] in Hshort; lia];
    cbn [starts firstn fill repeat set_slot nth]; reflexivity.
Qed.

Lemma tone_line_skips_short_witness :
  tone_line trim_none decimal (repeat Tone.default 30) 2
    ["4"; "4"; "0"; " "; "1"; "0"; "0"]%char 5
  = (true, repeat Tone.default 30, 2%nat).
Proof.
  apply (tone_line_skips_short trim_none decimal (repeat Tone.default 30) 2
           ["4"; "4"; "0"; " "; "1"; "0"; "0"]%char 5
           [(O, Plain ["4"; "4"; "0"]%char); (O, Plain ["1"; "0"; "0"]%char)]).
  - discriminate.
  - reflexivity.
  - repeat (apply Forall_cons;
            [split; [discriminate | repeat constructor] |]).
    apply Forall_nil.
  - simpl. lia.
  - simpl. lia.
Defined.

Lemma split_four (a b c d : list ascii) (k1 k2 k3 : nat) :
  valid_item (Plain a) -> valid_item (Plain b) -> valid_item (Plain c) ->
  valid_item (Plain d) ->
  exists buf p0 p1 p2 p3 n,
    split (layout [(O, Plain a); (k1, Plain b); (k2, Plain c); (k3, Plain d)]) 4
    = (buf, [Some p0; Some p1; Some p2; Some p3], n)
    /\ cstr buf p0 = a /\ cstr buf p1 = b /\ cstr buf p2 = c /\ cstr buf p3 = d.
Proof.
  intros Ha Hb Hc Hd.
  set (items := [(O, Plain a); (k1, Plain b); (k2, Plain c); (k3, Plain d)]).
  assert (Hv : Forall (fun ki => valid_item (snd ki)) items)
    by (repeat (apply Forall_cons; [assumption |]); apply Forall_nil).
  pose proof (split_loop_layout items Hv 4 [] (repeat None 4) O 4 eq_refl) as E.
  pose proof (layout_cut_tokens items Hv 4 []) as T.
  cbn [app length] in E, T.
  pose proof (starts_length items O) as L.
  destruct (starts 0 items) as [| p0 [| p1 [| p2 [| p3 [| p4 ps]]]]];
    try discriminate.
  cbn [firstn map snd items token_of] in T. injection T as T0 T1 T2 T3.
  exists (layout_cut 4 items), p0, p1, p2, p3,
    (0 + Nat.min 4 (length items))%nat.
  unfold split. rewrite E.
  split; [reflexivity |]. split; [exact T0 |]. split; [exact T1 |].
  split; [exact T2 | exact T3].
Qed.

(** X22. A well-formed data line of a pattern file is loaded as a pulse
    template: when the trimmed line is four plain items separated by
    blanks, fits the 25-byte buffer, does not begin with [#], is not line
    1 and there is room left, the handler stores
    [Pulse(atoi(item 1), atoi(item 2), atoi(item 3), atoi(item 4), 0, false)]
    (the count cast to 8 bits, the others to 16), inactive and with no
    last-fire time, at the current count and raises the count by one. *)
Theorem pattern_line_loads (trim : list ascii -> list ascii)
    (atoi : list ascii -> Z) (pulses : list Pulse.t) (count : nat)
    (line : list ascii) (linenum : Z) (a b c d : list ascii) (k1 k2 k3 : nat) :
  linenum <> 1 ->
  trim line = layout [(O, Plain a); (k1, Plain b); (k2, Plain c); (k3, Plain d)] ->
  valid_item (Plain a) -> valid_item (Plain b) -> valid_item (Plain c) ->
  valid_item (Plain d) ->
  starts_with_hash a = false ->
  (length (trim line) <= 24)%nat ->
  (count < BUZZER_MAX_PATTERN_PULSES)%nat ->
  pattern_line trim atoi pulses count line linenum
  = (true,
     array_set count
       (Pulse.mk (u8 (atoi a)) (u16 (atoi b)) (u16 (atoi c)) (u16 (atoi d))
          0 false) pulses,
     S count).
Proof.
  intros Hnum Htrim Ha Hb Hc Hd Hhash Hlen Hroom.
  destruct (split_four a b c d k1 k2 k3 Ha Hb Hc Hd)
    as (buf & p0 & p1 & p2 & p3 & n & Hsplit & T0 & T1 & T2 & T3).
  unfold pattern_line. cbv zeta.
  apply Z.eqb_neq in Hnum. rewrite Hnum.
  assert (Hbuf : toCharArray (trim line) 25 = trim line)
    by (unfold toCharArray; apply firstn_all2; simpl; lia).
  rewrite Hbuf. rewrite Htrim in *.
  assert (Hne : ((length (layout [(O, Plain a); (k1, Plain b); (k2, Plain c);
                                  (k3, Plain d)]) =? 0)%nat
                 || starts_with_hash
                      (layout [(O, Plain a); (k1, Plain b); (k2, Plain c);
                               (k3, Plain d)]))
                = false).
  { destruct Ha as [Hane _]. destruct a as [| c0 a']; [congruence |].
    cbn [layout repeat app render length Nat.eqb starts_with_hash orb].
    exact Hhash. }
  rewrite Hne.
  assert (Hcap : (BUZZER_MAX_PATTERN_PULSES <=? count)%nat = false)
    by (apply Nat.leb_gt; exact Hroom).
  rewrite Hcap, Hsplit. cbn [nth]. now rewrite T0, T1, T2, T3.
Qed.

Lemma pattern_line_loads_witness :
  pattern_line trim_none decimal (repeat Pulse.default 20) 0 demo_pattern_line 2
  = (true, array_set 0 (Pulse.mk 3 1000 50 20 0 false) (repeat Pulse.default 20),
     1%nat).
Proof.
  apply (pattern_line_loads trim_none decimal (repeat Pulse.default 20) 0
           demo_pattern_line 2 ["3"]%char ["1"; "0"; "0"; "0"]%char
           ["5"; "0"]%char ["2"; "0"]%char 0 0 0).
  - discriminate.
  - reflexivity.
  - split; [discriminate | repeat constructor].
  - split; [discriminate | repeat constructor].
  - split; [discriminate | repeat constructor].
  - split; [discriminate | repeat constructor].
  - reflexivity.
  - simpl. lia.
  - unfold BUZZER_MAX_PATTERN_PULSES. lia.
Defined.

(** ** melodyBlocking on a steady clock *)

Lemma u32_small (x : Z) : 0 <= x < 2 ^ 32 -> u32 x = x.
Proof. intros H. unfold u32. now apply Z.mod_small. Qed.

(** One step of the melody, begun, stopped and left by three calls. *)
Lemma melody_step_three (c : Config.t) (ps : Pulse.t) (pt : Pattern.t)
    (l : list Tone.t) (count i : Z) (tn : Tone.t) (ta tb tc gap prev : Z) :
  Config.pin c <> 255 ->
  Pulse.active ps = false -> Pattern.active pt = false ->
  0 <= i -> i + 1 <= count -> count < 256 ->
  tone_at (Some l) i = tn ->
  0 <= Tone.duration tn -> 0 <= Tone.rest tn ->
  Tone.duration tn + Tone.rest tn <= gap ->
  0 <= prev -> 1 <= gap ->
  prev + gap <= ta < 2 ^ 32 -> ta + gap <= tb < 2 ^ 32 ->
  tb + gap <= tc < 2 ^ 32 ->
  let st := fun cur start playing =>
              mkStatics c ps pt (Melody.mk (Some l) count cur true false
                                   start playing) in
  update (st i 0 false) ta
  = (false, st i ta true,
     if 0 <? Tone.frequency tn
     then [EvTone (Config.pin c) (Tone.frequency tn) (Tone.duration tn)]
     else [])
  /\ update (st i ta true) tb = (false, st i ta false, [EvNoTone (Config.pin c)])
  /\ update (st i ta false) tc = (false, st (i + 1) 0 false, []).
Proof.
  intros Hpin Hp Hpt Hi0 Hi Hc Htn Hd Hr Hg Hprev Hgap Ha Hb Hcc st.
  assert (Epin : (Config.pin c =? 255) = false) by now apply Z.eqb_neq.
  assert (Elt : (i <? count) = true) by (apply Z.ltb_lt; lia).
  assert (Eta : (ta =? 0) = false) by (apply Z.eqb_neq; lia).
  assert (Eb : (Tone.duration tn <=? u32 (tb - ta)) = true)
    by (apply Z.leb_le; rewrite u32_small by lia; lia).
  assert (Ec : (Tone.duration tn + Tone.rest tn <=? u32 (tc - ta)) = true)
    by (apply Z.leb_le; rewrite u32_small by lia; lia).
  assert (Eu : u8 (i + 1) = i + 1)
    by (unfold u8; apply Z.mod_small; change (2 ^ 8) with 256; lia).
  subst st. cbv beta.
  repeat split.
  - rewrite update_melody_only by assumption.
    unfold melodyTick, add16.
    cbn [config pulseState patternState melodyState Melody.active
         Melody.current Melody.count Melody.toneStart Melody.tones
         Melody.playingTone].
    rewrite Epin, Hp, Hpt, Elt, Htn. reflexivity.
  - rewrite update_melody_only by assumption.
    unfold melodyTick, add16.
    cbn [config pulseState patternState melodyState Melody.active
         Melody.current Melody.count Melody.toneStart Melody.tones
         Melody.playingTone].
    rewrite Epin, Hp, Hpt, Elt, Htn, Eta, Eb. reflexivity.
  - rewrite update_melody_only by assumption.
    unfold melodyTick, add16.
    cbn [config pulseState patternState melodyState Melody.active
         Melody.current Melody.count Melody.toneStart Melody.tones
         Melody.playingTone].
    rewrite Epin, Hp, Hpt, Elt, Htn, Eta, Ec.
    cbn [andb negb fst snd set_melodyState Melody.set_current
         Melody.set_toneStart config pulseState patternState melodyState
         Melody.tones Melody.count Melody.current Melody.active Melody.repeat
         Melody.toneStart Melody.playingTone].
    now rewrite Eu.
Qed.

Lemma spin_melody (c : Config.t) (ps : Pulse.t) (pt : Pattern.t)
    (l : list Tone.t) (gap : Z) (more : list Z) (rest_tones : list Tone.t) :
  Config.pin c <> 255 ->
  Pulse.active ps = false -> Pattern.active pt = false ->
  Z.of_nat (length l) < 256 -> 1 <= gap ->
  steps_within gap rest_tones ->
  forall done clock prev,
    l = done ++ rest_tones ->
    0 <= prev ->
    rising gap prev clock ->
    length clock = (3 * length rest_tones + 1)%nat ->
    spin (fun st => Melody.active (melodyState st))
      (mkStatics c ps pt
         (Melody.mk (Some l) (Z.of_nat (length l)) (Z.of_nat (length done))
            true false 0 false))
      (clock ++ more)
    = Some (mkStatics c ps pt
              (Melody.mk (Some l) (Z.of_nat (length l)) (Z.of_nat (length l))
                 false false 0 false),
            melody_log (Config.pin c) rest_tones clock).
Proof.
  intros Hpin Hp Hpt Hc Hgap Hsteps.
  induction Hsteps as [| tn rest' Htn _ IH]; intros done clock prev Hl Hprev Hr Hlen.
  - rewrite app_nil_r in Hl. subst done.
    destruct clock as [| t [| t2 clock']]; simpl in Hlen; try lia.
    cbn [app spin melodyState Melody.active].
    rewrite update_melody_only by assumption.
    unfold melodyTick.
    cbn [config pulseState patternState melodyState Melody.active
         Melody.current Melody.count Melody.repeat].
    assert (Epin : (Config.pin c =? 255) = false) by now apply Z.eqb_neq.
    rewrite Epin, Hp, Hpt, Z.ltb_irrefl. cbn [andb negb fst snd].
    unfold set_melodyState, Melody.set_active.
    cbn [config pulseState patternState melodyState Melody.active
         Melody.current Melody.count Melody.repeat Melody.tones
         Melody.toneStart Melody.playingTone].
    destruct more; reflexivity.
  - destruct clock as [| ta [| tb [| tc clock']]]; simpl in Hlen; try lia.
    cbn [rising] in Hr. destruct Hr as (Ha & Hb & Hcc & Hr).
    destruct Htn as (Hd0 & Hr0 & Hsum).
    assert (Hlen_l : length l = (length done + S (length rest'))%nat)
      by (rewrite Hl, length_app; reflexivity).
    assert (Hat : tone_at (Some l) (Z.of_nat (length done)) = tn).
    { unfold tone_at. rewrite Nat2Z.id, Hl, app_nth2 by lia.
      now rewrite Nat.sub_diag. }
    destruct (melody_step_three c ps pt l (Z.of_nat (length l))
                (Z.of_nat (length done)) tn ta tb tc gap prev Hpin Hp Hpt
                ltac:(lia) ltac:(lia) Hc Hat Hd0 Hr0 Hsum Hprev Hgap Ha Hb Hcc)
      as (U1 & U2 & U3).
    cbn [app spin melodyState Melody.active].
    rewrite U1. cbn [melodyState Melody.active]. rewrite U2.
    cbn [melodyState Melody.active]. rewrite U3.
    replace (Z.of_nat (length done) + 1) with (Z.of_nat (length (done ++ [tn])))
      by (rewrite length_app; simpl; lia).
    rewrite (IH (done ++ [tn]) clock' tc).
    + cbn [melody_log map app].
      destruct (0 <? Tone.frequency tn); reflexivity.
    + rewrite Hl, <- app_assoc. reflexivity.
    + lia.
    + exact Hr.
    + lia.
Qed.

(** X23. [melodyBlocking] plays the melody through once and returns: with
    a configured pin and neither the pulse train nor a pattern active,
    for a list of [count] tones (fewer than 256) on a clock that rises,
    without wrapping, by at least [gap] between calls, [gap] covering the
    duration plus rest of every tone, it returns after [3 * count + 1]
    calls of [update()] whatever the repeat argument.  Each tone was
    begun at its first call (with a [tone] call unless its frequency is
    0) and stopped with [noTone] at its second, in the order of the list;
    the melody is left inactive. *)
Theorem melodyBlocking_plays_through (s : Statics) (l : list Tone.t)
    (rep : bool) (gap : Z) (clock more : list Z) :
  Config.pin (config s) <> 255 ->
  Pulse.active (pulseState s) = false -> isPatternActive s = false ->
  l <> [] -> Z.of_nat (length l) < 256 ->
  1 <= gap -> steps_within gap l ->
  rising gap 0 clock ->
  length clock = (3 * length l + 1)%nat ->
  melodyBlocking s (Some l) (Z.of_nat (length l)) rep (clock ++ more)
  = Some (set_melodyState
            (Melody.mk (Some l) (Z.of_nat (length l)) (Z.of_nat (length l))
               false false 0 false) s,
          [EvNoTone (Config.pin (config s))],
          melody_log (Config.pin (config s)) l clock).
Proof.
  intros Hpin Hp Hpt Hne Hc Hgap Hsteps Hr Hlen.
  unfold isPatternActive in Hpt. destruct s as [c ps pt m].
  cbn [config pulseState patternState] in *.
  unfold melodyBlocking, melody, stopMelody. cbn [config is_null].
  assert (Epin : (Config.pin c =? 255) = false) by now apply Z.eqb_neq.
  assert (Ecount : (Z.of_nat (length l) =? 0) = false).
  { apply Z.eqb_neq. destruct l; [congruence | simpl; lia]. }
  rewrite Epin, Ecount. cbn [orb negb].
  unfold set_melodyState, Melody.set_active, Melody.set_repeat.
  cbn [config pulseState patternState melodyState Melody.tones Melody.count
       Melody.current Melody.active Melody.repeat Melody.toneStart
       Melody.playingTone].
  pose proof (spin_melody c ps pt l gap more l Hpin Hp Hpt Hc Hgap Hsteps
                [] clock 0 eq_refl ltac:(lia) Hr Hlen) as E.
  cbn [length Z.of_nat] in E. rewrite E. reflexivity.
Qed.

(** The melody [(440,100,50), (0,0,50), (880,100,0)] of the
    specification on a clock that rises by 150 ms per call. *)
Lemma melodyBlocking_plays_through_witness :
  exists s',
    melodyBlocking configured
      (Some [Tone.mk 440 100 50; Tone.mk 0 0 50; Tone.mk 880 100 0]) 3 true
      ([150; 300; 450; 600; 750; 900; 1050; 1200; 1350; 1500] ++ [1501])
    = Some (s', [EvNoTone 9],
            [(150, EvTone 9 440 100); (300, EvNoTone 9); (750, EvNoTone 9);
             (1050, EvTone 9 880 100); (1200, EvNoTone 9)])
    /\ isMelodyActive s' = false.
Proof.
  eexists. split.
  - apply (melodyBlocking_plays_through configured
             [Tone.mk 440 100 50; Tone.mk 0 0 50; Tone.mk 880 100 0] true 150
             [150; 300; 450; 600; 750; 900; 1050; 1200; 1350; 1500] [1501]).
    + vm_compute; discriminate.
    + reflexivity.
    + reflexivity.
    + discriminate.
    + simpl. lia.
    + lia.
    + repeat constructor; simpl; lia.
    + simpl. repeat split; lia.
    + reflexivity.
  - reflexivity.
Defined.

(** The line of [demo_line] read with room for two tokens: slot 1 is
    filled. *)
Lemma split_fills_count_slots_witness :
  nth 1 (snd (fst (split (layout demo_line) 2))) None <> None.
Proof.
  pose proof (split_fills_count_slots (layout demo_line) 2) as H.
  destruct (split (layout demo_line) 2) as [[buf output] count] eqn:E.
  destruct H as (_ & _ & _ & H). cbn [fst snd].
  apply H; [lia |].
  vm_compute in E. injection E as _ _ <-. lia.
Defined.

(** * Targets, wrap-around and array bounds *)

(** ** The pattern's wait across the wrap of the clock *)

(** C1, at the failing input: a two-entry pattern with a delay of 10 ms
    is started on pin 9 shortly before the 32-bit clock wraps.  On either
    width of [int] the first tone fires at 2^32 - 149, the train is
    retired at 2^32 - 100, and the pattern waits from 2^32 - 50 on.  The
    clock wraps; at readings 50, 1000 and 100000 the time elapsed since
    then, taken by unsigned subtraction, is 100 ms and more, far over the
    delay.  Yet the pattern does not advance: line 112 first asks for
    [now >= lastPulseEnd] on the two absolute timestamps.  The same calls
    150 ms earlier on the clock (tone at 1, retired at 50, next call at
    200) do advance it. *)
Theorem pattern_wait_stalls_across_wrap :
  (forall w,
     run_on w (pattern configured demo_pulses 2 false 10)
       [2 ^ 32 - 149; 2 ^ 32 - 100]
     = (pattern_before_wrap, [(2 ^ 32 - 149, EvTone 9 1000 50)])
     /\ run_on w pattern_before_wrap [50; 1000; 100000]
        = (pattern_before_wrap, [])
     /\ snd (run_on w pattern_waiting [200; 201]) = [(201, EvTone 9 2000 60)])
  /\ pattern_before_wrap = shift_statics (2 ^ 32 - 150) pattern_waiting
  /\ Pattern.waitingForDelay (patternState pattern_before_wrap) = true
  /\ Pattern.lastPulseEnd (patternState pattern_before_wrap) = 2 ^ 32 - 50
  /\ Pattern.pulseDelay (patternState pattern_before_wrap) = 10
  /\ u32 (50 - (2 ^ 32 - 50)) = 100
  /\ Pattern.current (patternState pattern_before_wrap) = 0
  /\ Pattern.current (patternState (update_post pattern_waiting 200)) = 1.
Proof.
  split; [intros w; destruct w; repeat split; vm_compute; reflexivity |].
  repeat split; vm_compute; reflexivity.
Qed.

(** ** The loaders and the extent of the caller's array *)

Lemma tone_line_in_bounds (trim : list ascii -> list ascii)
    (atoi : list ascii -> Z) (tones : list Tone.t) (count : nat)
    (line : list ascii) (linenum : Z) :
  (BUZZER_MAX_MELODY_TONES <= length tones)%nat ->
  tone_line_checked trim atoi tones count line linenum
  = Some (tone_line trim atoi tones count line linenum).
Proof.
  intros Hlen. unfold tone_line_checked, tone_line.
  destruct (linenum =? 1); [destruct (negb _); reflexivity |].
  destruct (_ || _); [reflexivity |].
  destruct (BUZZER_MAX_MELODY_TONES <=? count)%nat eqn:E; [reflexivity |].
  apply Nat.leb_gt in E.
  destruct (split (toCharArray (trim line) 20) 3) as [[buf tok] c].
  destruct (nth 0 tok None), (nth 1 tok None), (nth 2 tok None);
    try reflexivity.
  unfold array_store.
  assert (L : (count <? length tones)%nat = true) by (apply Nat.ltb_lt; lia).
  now rewrite L.
Qed.

Lemma pattern_line_in_bounds (trim : list ascii -> list ascii)
    (atoi : list ascii -> Z) (pulses : list Pulse.t) (count : nat)
    (line : list ascii) (linenum : Z) :
  (BUZZER_MAX_PATTERN_PULSES <= length pulses)%nat ->
  pattern_line_checked trim atoi pulses count line linenum
  = Some (pattern_line trim atoi pulses count line linenum).
Proof.
  intros Hlen. unfold pattern_line_checked, pattern_line.
  destruct (linenum =? 1); [destruct (negb _); reflexivity |].
  destruct (_ || _); [reflexivity |].
  destruct (BUZZER_MAX_PATTERN_PULSES <=? count)%nat eqn:E; [reflexivity |].
  apply Nat.leb_gt in E.
  destruct (split (toCharArray (trim line) 25) 4) as [[buf tok] c].
  destruct (nth 0 tok None), (nth 1 tok None), (nth 2 tok None),
    (nth 3 tok None); try reflexivity.
  unfold array_store.
  assert (L : (count <? length pulses)%nat = true) by (apply Nat.ltb_lt; lia).
  now rewrite L.
Qed.

(** X18. The tone loader stays inside an array of at least
    [BUZZER_MAX_MELODY_TONES] (30) entries: whatever lines its handler is
    given, in whatever order, starting from a count of at most 30, every
    store lands inside the array (the bounds-checked handlers never
    report a write outside it and agree with the unchecked ones), the
    count ends between its old value and 30, the array keeps its length,
    and the entries below the old count are left as they are. *)
Theorem tone_loader_in_bounds (trim : list ascii -> list ascii)
    (atoi : list ascii -> Z) (lines : list (list ascii * Z)) :
  forall (tones : list Tone.t) (count : nat),
    (BUZZER_MAX_MELODY_TONES <= length tones)%nat ->
    (count <= BUZZER_MAX_MELODY_TONES)%nat ->
    exists tones' count',
      tone_lines_checked trim atoi tones count lines = Some (tones', count')
      /\ tone_lines trim atoi tones count lines = (tones', count')
      /\ (count <= count' <= BUZZER_MAX_MELODY_TONES)%nat
      /\ length tones' = length tones
      /\ (forall j d, (j < count)%nat -> nth j tones' d = nth j tones d).
Proof.
  induction lines as [| [line linenum] rest IH]; intros tones count Hlen Hc.
  - exists tones, count. simpl. repeat split; auto.
  - cbn [tone_lines tone_lines_checked].
    rewrite (tone_line_in_bounds trim atoi tones count line linenum Hlen).
    pose proof (tone_line_step trim atoi tones count line linenum Hc)
      as (H1 & H2 & H3 & H4).
    destruct (tone_line trim atoi tones count line linenum) as [[ok t1] c1].
    cbn [fst snd] in *.
    destruct (IH t1 c1 ltac:(lia) ltac:(lia))
      as (t2 & c2 & I0 & I1 & I2 & I3 & I4).
    exists t2, c2. split; [exact I0 |]. split; [exact I1 |].
    split; [lia |]. split; [lia |].
    intros j d Hj. rewrite I4 by lia. apply H4. lia.
Qed.

Lemma tone_loader_in_bounds_witness :
  exists tones' count',
    tone_lines_checked trim_none decimal (repeat Tone.default 30) 29
      [(demo_tone_line, 2); (demo_tone_line, 3); (demo_tone_line, 4)]
    = Some (tones', count')
    /\ tone_lines trim_none decimal (repeat Tone.default 30) 29
         [(demo_tone_line, 2); (demo_tone_line, 3); (demo_tone_line, 4)]
       = (tones', count')
    /\ (29 <= count' <= BUZZER_MAX_MELODY_TONES)%nat
    /\ length tones' = length (repeat Tone.default 30)
    /\ (forall j d, (j < 29)%nat ->
                    nth j tones' d = nth j (repeat Tone.default 30) d).
Proof.
  apply (tone_loader_in_bounds trim_none decimal
           [(demo_tone_line, 2); (demo_tone_line, 3); (demo_tone_line, 4)]
           (repeat Tone.default 30) 29).
  - simpl. unfold BUZZER_MAX_MELODY_TONES. lia.
  - unfold BUZZER_MAX_MELODY_TONES. lia.
Defined.

(** An array shorter than the capacity is overrun: with room for two
    tones, the third tone line of a file is stored outside the array. *)
Lemma tone_loader_overruns_short_array :
  tone_lines_checked trim_none decimal (repeat Tone.default 2) 0
    [(header_play, 1); (demo_tone_line, 2); (demo_tone_line, 3)]
  = Some ([Tone.mk 440 100 50; Tone.mk 440 100 50], 2%nat)
  /\ tone_lines_checked trim_none decimal (repeat Tone.default 2) 0
       [(header_play, 1); (demo_tone_line, 2); (demo_tone_line, 3);
        (demo_tone_line, 4)]
     = None.
Proof. split; vm_compute; reflexivity. Qed.

(** X19. The pattern loader stays inside an array of at least
    [BUZZER_MAX_PATTERN_PULSES] (20) entries: whatever lines its handler
    is given, starting from a count of at most 20, every store lands
    inside the array, the count ends between its old value and 20, the
    array keeps its length, and the entries below the old count are left
    as they are. *)
Theorem pattern_loader_in_bounds (trim : list ascii -> list ascii)
    (atoi : list ascii -> Z) (lines : list (list ascii * Z)) :
  forall (pulses : list Pulse.t) (count : nat),
    (BUZZER_MAX_PATTERN_PULSES <= length pulses)%nat ->
    (count <= BUZZER_MAX_PATTERN_PULSES)%nat ->
    exists pulses' count',
      pattern_lines_checked trim atoi pulses count lines
      = Some (pulses', count')
      /\ pattern_lines trim atoi pulses count lines = (pulses', count')
      /\ (count <= count' <= BUZZER_MAX_PATTERN_PULSES)%nat
      /\ length pulses' = length pulses
      /\ (forall j d, (j < count)%nat -> nth j pulses' d = nth j pulses d).
Proof.
  induction lines as [| [line linenum] rest IH]; intros pulses count Hlen Hc.
  - exists pulses, count. simpl. repeat split; auto.
  - cbn [pattern_lines pattern_lines_checked].
    rewrite (pattern_line_in_bounds trim atoi pulses count line linenum Hlen).
    pose proof (pattern_line_step trim atoi pulses count line linenum Hc)
      as (H1 & H2 & H3 & H4).
    destruct (pattern_line trim atoi pulses count line linenum) as [[ok t1] c1].
    cbn [fst snd] in *.
    destruct (IH t1 c1 ltac:(lia) ltac:(lia))
      as (t2 & c2 & I0 & I1 & I2 & I3 & I4).
    exists t2, c2. split; [exact I0 |]. split; [exact I1 |].
    split; [lia |]. split; [lia |].
    intros j d Hj. rewrite I4 by lia. apply H4. lia.
Qed.

Lemma pattern_loader_in_bounds_witness :
  exists pulses' count',
    pattern_lines_checked trim_none decimal (repeat Pulse.default 20) 19
      [(demo_pattern_line, 2); (demo_pattern_line, 3)]
    = Some (pulses', count')
    /\ pattern_lines trim_none decimal (repeat Pulse.default 20) 19
         [(demo_pattern_line, 2); (demo_pattern_line, 3)]
       = (pulses', count')
    /\ (19 <= count' <= BUZZER_MAX_PATTERN_PULSES)%nat
    /\ length pulses' = length (repeat Pulse.default 20)
    /\ (forall j d, (j < 19)%nat ->
                    nth j pulses' d = nth j (repeat Pulse.default 20) d).
Proof.
  apply (pattern_loader_in_bounds trim_none decimal
           [(demo_pattern_line, 2); (demo_pattern_line, 3)]
           (repeat Pulse.default 20) 19).
  - simpl. unfold BUZZER_MAX_PATTERN_PULSES. lia.
  - unfold BUZZER_MAX_PATTERN_PULSES. lia.
Defined.

Lemma pattern_loader_overruns_short_array :
  pattern_lines_checked trim_none decimal (repeat Pulse.default 1) 0
    [(header_pattern, 1); (demo_pattern_line, 2); (demo_pattern_line, 3)]
  = None.
Proof. vm_compute; reflexivity. Qed.

(** ** The pulse train on either width of int *)

Lemma run_on_cons (w : int_width) (s : Statics) (now : Z) (rest : list Z) :
  run_on w s (now :: rest)
  = (fst (run_on w (update_post_on w s now) rest),
     map (pair now) (update_events_on w s now)
     ++ snd (run_on w (update_post_on w s now) rest)).
Proof.
  simpl. unfold update_post_on, update_events_on.
  destruct (update_on w s now) as [[r s1] evs]. simpl.
  now destruct (run_on w s1 rest).
Qed.


(** With a 32-bit [int] the width-aware dispatcher is [update]. *)
Lemma update_on_Int32 (s : Statics) (now : Z) :
  update_on Int32 s now = update s now.
Proof. reflexivity. Qed.

Lemma run_on_Int32 (clock : list Z) :
  forall s, run_on Int32 s clock = run s clock.
Proof.
  induction clock as [| now rest IH]; intros s; [reflexivity |].
  rewrite run_on_cons, run_cons. unfold update_post_on, update_events_on.
  rewrite update_on_Int32, IH. reflexivity.
Qed.

(** The sum is exact where it fits. *)
Lemma add16_on_exact (w : int_width) (a b : Z) :
  w = Int32 \/ 0 <= a + b < 2 ^ 16 -> add16_on w a b = a + b.
Proof.
  intros [-> | H]; [reflexivity |].
  destruct w; [| reflexivity].
  unfold add16_on. now rewrite Z.mod_small.
Qed.

Lemma pulse_only_update_on (w : int_width) (c : Config.t) (n f d i l : Z)
    (a : bool) (pt : Pattern.t) (m : Melody.t) (now : Z) :
  Config.pin c <> 255 -> Pattern.active pt = false -> Melody.active m = false ->
  0 <= n < 256 ->
  exists n' l' a',
    update_post_on w (mkStatics c (Pulse.mk n f d i l a) pt m) now
    = mkStatics c (Pulse.mk n' f d i l' a') pt m
    /\ 0 <= n' < 256
    /\ ((update_events_on w (mkStatics c (Pulse.mk n f d i l a) pt m) now = []
         /\ n' = n /\ l' = l)
        \/ (update_events_on w (mkStatics c (Pulse.mk n f d i l a) pt m) now
            = [EvTone (Config.pin c) f d]
            /\ n' = n - 1 /\ l' = now
            /\ (l = 0 \/ add16_on w i d <= u32 (now - l)))).
Proof.
  intros Hpin Hpt Hm Hn.
  unfold update_post_on, update_events_on, update_on.
  cbn [pulseState config Pulse.active].
  apply Z.eqb_neq in Hpin.
  destruct a; cbn [andb].
  - rewrite Hpin. cbn [negb]. unfold pulseTick_on.
    cbn [pulseState config Pulse.pulses Pulse.last Pulse.interval
         Pulse.duration Pulse.frequency].
    destruct (Z.ltb_spec 0 n) as [Hpos | Hzero].
    + destruct (Z.eqb_spec l 0) as [Hl | Hl]; cbn [orb].
      * exists (n - 1), now, true. cbn. unfold u8. change (2 ^ 8) with 256.
        rewrite Z.mod_small by lia.
        split; [reflexivity |]. split; [lia |]. right. auto.
      * destruct (Z.leb_spec (add16_on w i d) (u32 (now - l))) as [Hdue | Hwait].
        -- exists (n - 1), now, true. cbn. unfold u8. change (2 ^ 8) with 256.
           rewrite Z.mod_small by lia.
           split; [reflexivity |]. split; [lia |]. right. auto.
        -- exists n, l, true. cbn.
           split; [reflexivity |]. split; [lia |]. left. auto.
    + exists n, l, false. cbn. rewrite Hpt. cbn.
      split; [reflexivity |]. split; [lia |]. left. auto.
  - exists n, l, false.
    unfold patternTick. cbn [patternState]. rewrite Hpt. cbn [andb].
    unfold melodyTick_on. cbn [melodyState]. rewrite Hm. cbn.
    split; [reflexivity |]. split; [lia |]. left. auto.
Qed.

Lemma pulse_only_run_on (w : int_width) (c : Config.t) (f d i : Z)
    (pt : Pattern.t) (m : Melody.t) (clock : list Z) :
  Config.pin c <> 255 -> Pattern.active pt = false -> Melody.active m = false ->
  forall n l a,
    0 <= n < 256 ->
    spaced_from (add16_on w i d) l
      (map fst (snd (run_on w (mkStatics c (Pulse.mk n f d i l a) pt m) clock))).
Proof.
  intros Hpin Hpt Hm.
  induction clock as [| now rest IH]; intros n l a Hn.
  - simpl. exact I.
  - rewrite run_on_cons.
    destruct (pulse_only_update_on w c n f d i l a pt m now Hpin Hpt Hm Hn)
      as (n' & l' & a' & Hpost & Hn' & Hev).
    rewrite Hpost. cbn [fst snd].
    specialize (IH n' l' a' Hn').
    destruct Hev as [(Hev & -> & ->) | (Hev & -> & -> & Hdue)]; rewrite Hev.
    + cbn [map app]. assumption.
    + cbn [map app fst]. cbn [spaced_from]. split; assumption.
Qed.

(** X2. Two successive tones of a pulse train are never closer on the
    32-bit clock than [interval + duration] as the target computes it,
    whatever the cadence of the [update()] calls: the exact sum where
    [int] has 32 bits, the sum modulo 2^16 where it has 16 bits, and so
    the exact sum on either target when it is below 2^16.  The one
    exception is a tone fired at reading 0, which the next call follows
    at once. *)
Theorem pulse_train_gap (w : int_width) (s : Statics) (count f d i : Z)
    (clock : list Z) :
  Config.pin (config s) <> 255 ->
  isPatternActive s = false -> isMelodyActive s = false ->
  0 < count < 256 ->
  spaced_from (add16_on w i d) 0
    (map fst (snd (run_on w (pulse s count f d i) clock)))
  /\ (w = Int32 \/ 0 <= i + d < 2 ^ 16 ->
      spaced_from (i + d) 0
        (map fst (snd (run_on w (pulse s count f d i) clock)))).
Proof.
  intros Hpin Hpt Hm Hc.
  destruct s as [c ps pt m]. unfold isPatternActive, isMelodyActive in *.
  simpl in Hpin, Hpt, Hm.
  assert (Hstart : pulse (mkStatics c ps pt m) count f d i
                   = mkStatics c (Pulse.mk count f d i 0 true) pt m).
  { unfold pulse. simpl. apply Z.eqb_neq in Hpin. rewrite Hpin.
    assert (E : (count =? 0) = false) by (apply Z.eqb_neq; lia).
    now rewrite E. }
  rewrite Hstart.
  pose proof (pulse_only_run_on w c f d i pt m clock Hpin Hpt Hm
                count 0 true ltac:(lia)) as H.
  split; [exact H |].
  intros Hfit. rewrite <- (add16_on_exact w i d Hfit). exact H.
Qed.

Lemma pulse_train_gap_witness :
  spaced_from (20 + 50) 0
    (map fst (snd (run_on Int16 (pulse configured 5 1000 50 20) demo_clock))).
Proof.
  refine (proj2 (pulse_train_gap Int16 configured 5 1000 50 20 demo_clock
                   _ _ _ _) _).
  - vm_compute; discriminate.
  - reflexivity.
  - reflexivity.
  - lia.
  - right. lia.
Defined.

(** Where the sum does not fit 16 bits the two targets part: the train
    [pulse(2, 1000, 40000, 40000)] fires its second tone 14464 ms after
    the first where [int] has 16 bits, and not before 80000 ms where it
    has 32. *)
Lemma pulse_train_gap_differs :
  add16_on Int16 40000 40000 = 14464
  /\ snd (run_on Int16 (pulse configured 2 1000 40000 40000) [1; 14465])
     = [(1, EvTone 9 1000 40000); (14465, EvTone 9 1000 40000)]
  /\ snd (run_on Int32 (pulse configured 2 1000 40000 40000) [1; 14465; 80000])
     = [(1, EvTone 9 1000 40000)]
  /\ snd (run_on Int32 (pulse configured 2 1000 40000 40000) [1; 14465; 80001])
     = [(1, EvTone 9 1000 40000); (80001, EvTone 9 1000 40000)].
Proof. repeat split; vm_compute; reflexivity. Qed.

(** ** A melody step from its first call to its last *)

Section MelodyStep.

Variable w : int_width.
Variables (c : Config.t) (ps : Pulse.t) (pt : Pattern.t).
Variables (l : list Tone.t) (count i : Z) (rep : bool) (tn : Tone.t).

Hypothesis Hpin : Config.pin c <> 255.
Hypothesis Hps : Pulse.active ps = false.
Hypothesis Hpt : Pattern.active pt = false.
Hypothesis Hi : 0 <= i < count.
Hypothesis Hnth : nth_error l (Z.to_nat i) = Some tn.






End MelodyStep.




(** ** A pulse train started over a running pattern *)

(** Calls that leave the pulse train active: it keeps its parameters,
    fires its own tone or nothing, and the pattern and the melody are not
    touched. *)
Lemma train_runs (c : Config.t) (f d i : Z) (pt : Pattern.t) (m : Melody.t)
    (clock : list Z) :
  Config.pin c <> 255 ->
  forall n l,
    0 <= n < 256 ->
    Forall (fun st => Pulse.active (pulseState st) = true)
      (states (mkStatics c (Pulse.mk n f d i l true) pt m) clock) ->
    exists n' l',
      fst (run (mkStatics c (Pulse.mk n f d i l true) pt m) clock)
      = mkStatics c (Pulse.mk n' f d i l' true) pt m
      /\ 0 <= n' < 256
      /\ Forall (fun e => snd e = EvTone (Config.pin c) f d)
           (snd (run (mkStatics c (Pulse.mk n f d i l true) pt m) clock))
      /\ Z.of_nat
           (length (snd (run (mkStatics c (Pulse.mk n f d i l true) pt m) clock)))
         + n' = n.
Proof.
  intros Hpin.
  assert (Hpin' : (Config.pin c =? 255) = false) by now apply Z.eqb_neq.
  induction clock as [| now rest IH]; intros n l Hn Hall.
  - exists n, l. simpl. repeat split; try constructor; lia.
  - cbn [states] in Hall. apply Forall_cons_iff in Hall.
    destruct Hall as [Hact Hrest].
    rewrite run_cons. cbn [fst snd].
    revert Hact Hrest.
    unfold update_post, update_events, update, pulseTick.
    cbn [pulseState config patternState Pulse.active Pulse.pulses Pulse.last
         Pulse.interval Pulse.duration Pulse.frequency].
    rewrite Hpin'. cbn [andb negb].
    destruct (Z.ltb_spec 0 n) as [Hpos | Hzero].
    + destruct ((l =? 0) || (add16 i d <=? u32 (now - l)));
        cbn [fst snd map app set_pulseState Pulse.set_pulses Pulse.set_last
             config patternState melodyState pulseState Pulse.pulses
             Pulse.frequency Pulse.duration Pulse.interval Pulse.last
             Pulse.active];
        intros _ Hrest.
      * assert (Hu : u8 (n - 1) = n - 1).
        { unfold u8. change (2 ^ 8) with 256. apply Z.mod_small. lia. }
        rewrite Hu in *.
        destruct (IH (n - 1) now ltac:(lia) Hrest) as (n' & l' & H1 & H2 & H3 & H4).
        exists n', l'. split; [exact H1 |]. split; [exact H2 |]. split.
        -- constructor; [reflexivity | exact H3].
        -- cbn [map app length fst snd]. rewrite Nat2Z.inj_succ.
           match goal with
           | |- Z.succ ?a + _ = _ =>
               change a with
                 (Z.of_nat
                    (length
                       (snd (run (mkStatics c (Pulse.mk (n - 1) f d i now true)
                                    pt m) rest))))
           end.
           lia.
      * destruct (IH n l Hn Hrest) as (n' & l' & H1 & H2 & H3 & H4).
        exists n', l'.
        split; [exact H1 |]. split; [exact H2 |]. split; [exact H3 | exact H4].
    + intros Hact _. simpl in Hact.
      destruct (Pattern.active pt); simpl in Hact; discriminate Hact.
Qed.

(** The pattern waits: calls before the end of the last tone, or less
    than the delay after it, change nothing. *)
Lemma run_pattern_waits (s : Statics) (clock : list Z) :
  Pulse.active (pulseState s) = false ->
  Pattern.active (patternState s) = true ->
  Pattern.waitingForDelay (patternState s) = true ->
  Forall (still_waiting s) clock ->
  run s clock = (s, []).
Proof.
  intros Hp Ha Hw Hall.
  induction Hall as [| now rest Hnow _ IH]; [reflexivity |].
  assert (U : update s now = (false, s, [])).
  { unfold update. rewrite Hp. cbn [andb].
    assert (P : patternTick s now = s).
    { unfold patternTick. rewrite Ha, Hw. cbn [andb].
      destruct Hnow as [Hlt | Hlt].
      - apply Z.leb_gt in Hlt. now rewrite Hlt.
      - apply Z.leb_gt in Hlt. rewrite Hlt. now break_if. }
    rewrite P. unfold melodyTick. rewrite Ha. cbn [negb].
    now rewrite andb_false_r. }
  simpl. rewrite U, IH. reflexivity.
Qed.

(** The train is through (count at 0) and the pattern has a next entry:
    the call at [tr] retires the train, the calls at [ws] wait, the call
    at [ta] finds the delay over and loads the next entry. *)
Lemma train_hands_over (c : Config.t) (f d i last : Z) (l : list Pulse.t)
    (pc cur : Z) (rp : bool) (pd lpe : Z) (wfd : bool) (m : Melody.t)
    (tr : Z) (ws : list Z) (ta : Z) :
  Config.pin c <> 255 ->
  0 <= cur -> cur + 1 < pc -> pc <= 256 ->
  Forall (fun t => t < u32 (tr + d) \/ u32 (t - u32 (tr + d)) < pd) ws ->
  u32 (tr + d) <= ta ->
  pd <= u32 (ta - u32 (tr + d)) ->
  run (mkStatics c (Pulse.mk 0 f d i last true)
         (Pattern.mk (Some l) pc cur true rp pd lpe wfd) m)
      (tr :: ws ++ [ta])
  = (mkStatics c (load_pulse (nth (Z.to_nat (cur + 1)) l Pulse.default))
       (Pattern.mk (Some l) pc (cur + 1) true rp pd (u32 (tr + d)) false) m,
     []).
Proof.
  intros Hpin Hcur Hnext Hpc Hws Hta Hpd.
  assert (Hpin' : (Config.pin c =? 255) = false) by now apply Z.eqb_neq.
  rewrite run_cons.
  assert (R : update (mkStatics c (Pulse.mk 0 f d i last true)
                        (Pattern.mk (Some l) pc cur true rp pd lpe wfd) m) tr
              = (last =? tr,
                 mkStatics c (Pulse.mk 0 f d i last false)
                   (Pattern.mk (Some l) pc cur true rp pd (u32 (tr + d)) true) m,
                 [])).
  { unfold update, pulseTick. cbn. rewrite Hpin'. reflexivity. }
  unfold update_post, update_events. rewrite R. cbn [fst snd map app].
  rewrite run_app.
  rewrite (run_pattern_waits
             (mkStatics c (Pulse.mk 0 f d i last false)
                (Pattern.mk (Some l) pc cur true rp pd (u32 (tr + d)) true) m)
             ws eq_refl eq_refl eq_refl Hws).
  cbn [fst snd app]. rewrite run_single.
  assert (A : update (mkStatics c (Pulse.mk 0 f d i last false)
                        (Pattern.mk (Some l) pc cur true rp pd (u32 (tr + d)) true)
                        m) ta
              = (false,
                 mkStatics c (load_pulse (nth (Z.to_nat (cur + 1)) l Pulse.default))
                   (Pattern.mk (Some l) pc (cur + 1) true rp pd (u32 (tr + d)) false)
                   m,
                 [])).
  { unfold update, patternTick, advancePattern, melodyTick.
    cbn [pulseState patternState config melodyState Pulse.active
         Pattern.active Pattern.waitingForDelay Pattern.lastPulseEnd
         Pattern.pulseDelay Pattern.set_waitingForDelay set_patternState
         Pattern.pulses Pattern.count Pattern.current Pattern.set_current
         Pattern.repeat andb negb orb is_null].
    apply Z.leb_le in Hta, Hpd. rewrite Hta, Hpd.
    assert (E0 : (pc =? 0) = false) by (apply Z.eqb_neq; lia).
    rewrite E0.
    assert (Hu : u8 (cur + 1) = cur + 1).
    { unfold u8. change (2 ^ 8) with 256. apply Z.mod_small. lia. }
    rewrite Hu.
    assert (E1 : (pc <=? cur + 1) = false) by (apply Z.leb_gt; lia).
    rewrite E1. cbn. rewrite !andb_false_r. reflexivity. }
  unfold update_post, update_events. rewrite A. reflexivity.
Qed.

(** C2 (as the code has it). [pulse] with a configured pin and a count
    other than 0 replaces the pulse train by the new one and touches
    nothing else: the pattern state is left as it was, so
    [isPatternActive()] answers as before the call.
    The new train runs with its own parameters: over [update()] calls
    that leave the train active, the pattern and the melody state stay as
    they were, every driver call is [tone(pin, f, d)], and the tones fired
    plus the remaining count make up [count].
    The [update()] call that retires the train (count at 0) finds the
    pattern still active and hands over to it: the pattern's waiting flag
    is raised and its delay runs from [now + duration].
    The old pattern then goes on: when it has a next entry, the calls
    before [now + duration] or less than the delay after it change
    nothing, and the first call at least the delay after it moves the
    pattern to that entry and loads it into the pulse train, whose first
    tone the call after that fires. *)
Theorem pulse_leaves_pattern_untouched (s : Statics) (count f d i : Z) :
  Config.pin (config s) <> 255 -> count <> 0 ->
  patternState (pulse s count f d i) = patternState s
  /\ isPatternActive (pulse s count f d i) = isPatternActive s
  /\ melodyState (pulse s count f d i) = melodyState s
  /\ pulseState (pulse s count f d i) = Pulse.mk count f d i 0 true
  /\ (forall st now,
        Config.pin (config st) <> 255 ->
        pulseState st = Pulse.mk 0 f d i (Pulse.last (pulseState st)) true ->
        isPatternActive st = true ->
        let pt := patternState (update_post st now) in
        Pattern.active pt = true
        /\ Pattern.waitingForDelay pt = true
        /\ Pattern.lastPulseEnd pt = u32 (now + d)
        /\ Pattern.current pt = Pattern.current (patternState st)
        /\ Pulse.active (pulseState (update_post st now)) = false)
  /\ (forall clock,
        0 < count < 256 ->
        Forall (fun st => Pulse.active (pulseState st) = true)
          (states (pulse s count f d i) clock) ->
        let r := run (pulse s count f d i) clock in
        patternState (fst r) = patternState s
        /\ melodyState (fst r) = melodyState s
        /\ Forall (fun e => snd e = EvTone (Config.pin (config s)) f d) (snd r)
        /\ Z.of_nat (length (snd r)) + Pulse.pulses (pulseState (fst r))
           = count)
  /\ (forall l clock tr ws ta,
        0 < count < 256 ->
        Forall (fun st => Pulse.active (pulseState st) = true)
          (states (pulse s count f d i) clock) ->
        Pulse.pulses (pulseState (fst (run (pulse s count f d i) clock))) = 0 ->
        isPatternActive s = true ->
        Pattern.pulses (patternState s) = Some l ->
        0 <= Pattern.current (patternState s) ->
        Pattern.current (patternState s) + 1 < Pattern.count (patternState s) ->
        Pattern.count (patternState s) <= 256 ->
        Forall (fun t => t < u32 (tr + d)
                         \/ u32 (t - u32 (tr + d))
                            < Pattern.pulseDelay (patternState s)) ws ->
        u32 (tr + d) <= ta ->
        Pattern.pulseDelay (patternState s) <= u32 (ta - u32 (tr + d)) ->
        let next :=
          nth (Z.to_nat (Pattern.current (patternState s) + 1)) l Pulse.default
        in
        run (pulse s count f d i) (clock ++ tr :: ws ++ [ta])
        = (mkStatics (config s) (load_pulse next)
             (Pattern.set_waitingForDelay false
                (Pattern.set_lastPulseEnd (u32 (tr + d))
                   (Pattern.set_current (Pattern.current (patternState s) + 1)
                      (patternState s))))
             (melodyState s),
           snd (run (pulse s count f d i) clock))
        /\ (0 < Pulse.pulses next ->
            forall tn,
              snd (run (pulse s count f d i) (clock ++ tr :: ws ++ [ta; tn]))
              = snd (run (pulse s count f d i) clock)
                ++ [(tn, EvTone (Config.pin (config s)) (Pulse.frequency next)
                           (Pulse.duration next))])).
Proof.
  intros Hpin Hcount.
  assert (Hstart : pulse s count f d i
                   = mkStatics (config s) (Pulse.mk count f d i 0 true)
                       (patternState s) (melodyState s)).
  { unfold pulse. apply Z.eqb_neq in Hpin, Hcount. now rewrite Hpin, Hcount. }
  rewrite Hstart. unfold isPatternActive. cbn [patternState melodyState pulseState].
  split; [reflexivity |]. split; [reflexivity |]. split; [reflexivity |].
  split; [reflexivity |]. split; [| split].
  - intros st now Hp Hps Hact.
    apply Z.eqb_neq in Hp.
    destruct st as [c [pp pf pd pi pl pa] pt m]. simpl in *.
    inversion Hps; subst.
    unfold update_post, update, pulseTick. simpl.
    rewrite Hp. simpl. rewrite Hact. simpl. auto.
  - intros clock Hc Hall.
    destruct (train_runs (config s) f d i (patternState s) (melodyState s) clock
                Hpin count 0 ltac:(lia) Hall) as (n' & l' & H1 & H2 & H3 & H4).
    rewrite H1. cbn [patternState melodyState pulseState Pulse.pulses].
    split; [reflexivity |]. split; [reflexivity |]. split; assumption.
  - intros l clock tr ws ta Hc Hall Hzero Hact Hl Hcur Hnext Hpc Hws Hta Hpd.
    destruct (train_runs (config s) f d i (patternState s) (melodyState s) clock
                Hpin count 0 ltac:(lia) Hall) as (n' & l' & H1 & _ & _ & _).
    rewrite H1 in Hzero. cbn [pulseState Pulse.pulses] in Hzero. subst n'.
    destruct (patternState s) as [pl pc cur act rp pd lpe wfd] eqn:Ept.
    cbn [Pattern.active Pattern.pulses Pattern.current Pattern.count
         Pattern.pulseDelay] in Hact, Hl, Hcur, Hnext, Hpc, Hws, Hpd.
    subst act pl.
    pose proof (train_hands_over (config s) f d i l' l pc cur rp pd lpe wfd
                  (melodyState s) tr ws ta Hpin Hcur Hnext Hpc Hws Hta Hpd)
      as Hover.
    split.
    + rewrite run_app, H1, Hover. cbn [fst snd]. now rewrite app_nil_r.
    + intros Hpos tn.
      replace (clock ++ tr :: ws ++ [ta; tn])
        with (clock ++ (tr :: ws ++ [ta]) ++ [tn])
        by (cbn [app]; now rewrite <- app_assoc).
      rewrite run_app, H1. cbn [fst snd]. f_equal.
      rewrite run_app, Hover. cbn [fst snd app]. rewrite run_single.
      unfold update_events, load_pulse.
      rewrite (update_fires (config s) _ _ _ _ 0 _ _ tn Hpin Hpos
                 (or_introl eq_refl)).
      reflexivity.
Qed.

(** The pattern of [pattern_started] (two entries, delay 300 ms), a pulse
    of one started over it and fired at 1, the call at 71 that retires
    that pulse train, the call at 141 during the wait, the call at 500
    that moves the pattern to its second entry, and the call at 1000 that
    fires that entry's tone. *)
Lemma pulse_leaves_pattern_untouched_witness :
  isPatternActive (pulse pattern_started 1 500 10 10)
  = isPatternActive pattern_started
  /\ snd (run (pulse pattern_started 1 500 10 10) ([1] ++ 71 :: [141] ++ [500; 1000]))
     = snd (run (pulse pattern_started 1 500 10 10) [1])
       ++ [(1000, EvTone 9 2000 60)].
Proof.
  assert (Hpin : Config.pin (config pattern_started) <> 255)
    by (vm_compute; discriminate).
  assert (Hcount : 1 <> 0) by lia.
  destruct (pulse_leaves_pattern_untouched pattern_started 1 500 10 10 Hpin Hcount)
    as (_ & Hact & _ & _ & _ & _ & Hon).
  split; [exact Hact |].
  refine (proj2 (Hon [Pulse.mk 1 1000 50 20 0 false; Pulse.mk 1 2000 60 30 0 false]
                   [1] 71 [141] 500 _ _ _ _ _ _ _ _ _ _ _) _ 1000).
  - lia.
  - repeat constructor.
  - reflexivity.
  - reflexivity.
  - reflexivity.
  - vm_compute. discriminate.
  - vm_compute. reflexivity.
  - vm_compute. discriminate.
  - constructor; [right; vm_compute; reflexivity | constructor].
  - vm_compute. discriminate.
  - vm_compute. discriminate.
  - vm_compute. reflexivity.
Defined.
